(** * rdesktop, protocol services, TCP layer ([tcp.c])

    A shallow embedding of the transport and trust layer of rdesktop:
    the trust-on-first-use public-key store ([cert_tdb_store],
    [cert_tdb_verify], [check_cert]), the TLS upgrade ([tcp_tls_connect]),
    the send and receive loops ([tcp_send], [tcp_recv]) and the connection
    manager ([tcp_connect], [tcp_disconnect], [tcp_is_connected]); and
    of what the layer hands out besides: the outbound buffers
    ([tcp_init], [tcp_reset_state]), the address of the client
    ([tcp_get_address]) and the key of the server
    ([tcp_tls_get_server_pubkey]).

    The static globals of [tcp.c] and the two [extern] flags are the fields
    of one record that every operation takes and returns.  What the C code
    asks of the operating system, of GnuTLS and of the user interface is
    answered by an [environment] of oracles; every such call leaves an
    [event] in the trace of the state, so that "how often" and "not at all"
    are statements about the trace. *)

From Stdlib Require Import ZArith NArith Lia Bool.
From Stdlib.Strings Require Import Ascii String Byte.
From stdpp Require Import gmap strings list fin_maps.

Local Open Scope Z_scope.

(** ** C strings and stdio *)

Module CStr.

Definition NUL : ascii := "000"%char.
Definition LF : ascii := "010"%char.

(** The C string held in a buffer: the characters before the first NUL. *)
Fixpoint c_str (buf : string) : string :=
  match buf with
  | EmptyString => EmptyString
  | String c r => if Ascii.eqb c NUL then EmptyString else String c (c_str r)
  end.

Definition strlen (buf : string) : nat := String.length (c_str buf).

(** [strcmp(a, b) == 0] *)
Definition strcmp0 (a b : string) : bool := String.eqb (c_str a) (c_str b).

(** [snprintf(dst, size, ...)] keeps at most [size - 1] characters. *)
Fixpoint str_take (n : nat) (s : string) : string :=
  match n, s with
  | S n', String c r => String c (str_take n' r)
  | _, _ => EmptyString
  end.

Fixpoint str_drop (n : nat) (s : string) : string :=
  match n, s with
  | S n', String _ r => str_drop n' r
  | _, _ => s
  end.

Definition snprintf (size : N) (formatted : string) : string :=
  str_take (N.to_nat (size - 1)) formatted.

(** [strstr(haystack, needle)]: the suffix of [haystack] that starts at the
    first occurrence of [needle]. *)
Fixpoint is_prefix (p s : string) : bool :=
  match p, s with
  | EmptyString, _ => true
  | String a p', String b s' => Ascii.eqb a b && is_prefix p' s'
  | String _ _, EmptyString => false
  end.

Fixpoint strstr (haystack needle : string) : option string :=
  if is_prefix needle haystack then Some haystack
  else match haystack with
       | EmptyString => None
       | String _ r => strstr r needle
       end.

(** [fgets(buf, size, stream)]: at most [size - 1] characters, stopping
    after a newline; [None] is the NULL returned at end of file.  The
    second component is what is left of the stream. *)
Fixpoint read_line (n : nat) (s : string) : string * string :=
  match n, s with
  | S n', String c r =>
      if Ascii.eqb c LF then (String c EmptyString, r)
      else let '(l, r') := read_line n' r in (String c l, r')
  | _, _ => (EmptyString, s)
  end.

Definition fgets (size : N) (stream : string) : option (string * string) :=
  match stream with
  | EmptyString => None
  | String _ _ => Some (read_line (N.to_nat (size - 1)) stream)
  end.

(** [printf] conversions.  [print_radix] writes the digits of [n] in front
    of [acc]; a number has no more digits than bits, which is the fuel. *)
Fixpoint print_radix (fuel : nat) (radix : N) (digit : N -> ascii)
    (n : N) (acc : string) : string :=
  match fuel with
  | O => acc
  | S f =>
      let acc' := String (digit (n mod radix)%N) acc in
      if (n / radix =? 0)%N then acc'
      else print_radix f radix digit (n / radix)%N acc'
  end.

Definition digit_fuel (n : N) : nat := S (N.to_nat (N.log2 n)).

Definition dec_digit (d : N) : ascii := ascii_of_N (48 + d).

Definition hex_digit (d : N) : ascii :=
  if (d <? 10)%N then ascii_of_N (48 + d) else ascii_of_N (87 + d).

(** ["%lu"] *)
Definition print_lu (n : N) : string :=
  print_radix (digit_fuel n) 10 dec_digit n EmptyString.

(** ["%ld"] *)
Definition print_ld (z : Z) : string :=
  if z <? 0 then String "-"%char (print_lu (Z.to_N (- z)))
  else print_lu (Z.to_N z).

(** ["%x"] of a [uint32] *)
Definition print_x (n : N) : string :=
  print_radix (digit_fuel n) 16 hex_digit (n mod 2 ^ 32)%N EmptyString.

(** A line of text: no newline and no NUL inside. *)
Fixpoint plain (s : string) : bool :=
  match s with
  | EmptyString => true
  | String c r => negb (Ascii.eqb c LF) && negb (Ascii.eqb c NUL) && plain r
  end.

(** [memcmp(a, b, n)]: the difference at the first position, among the
    first [n], where the two byte strings differ. *)
Fixpoint memcmp (a b : list byte) (n : nat) : Z :=
  match n, a, b with
  | S n', x :: a', y :: b' =>
      if Byte.eqb x y then memcmp a' b' n'
      else Z.of_N (Byte.to_N x) - Z.of_N (Byte.to_N y)
  | _, _, _ => 0
  end.

End CStr.
Import CStr.

Arguments str_take : simpl never.
Arguments read_line : simpl never.
Arguments fgets : simpl never.
Arguments snprintf : simpl never.
Arguments print_radix : simpl never.
Arguments print_ld : simpl never.
Arguments print_x : simpl never.

(** ** Data *)

(** What GnuTLS reports about a certificate of the peer: the result of
    [gnutls_x509_crt_get_dn] (the size it writes back and the buffer), the
    raw public key handed to the trust-store callbacks, the expiration time
    and the one-line summary of [gnutls_x509_crt_print] with its return
    value. *)
Record x509_crt := {
  crt_dn_size : Z;
  crt_dn : string;
  crt_raw_pubkey : option (list byte);
  crt_expiration_time : Z;
  crt_print_rv : Z;
  crt_print_info : string;
}.

(** A TLS session after the handshake, as far as [check_cert] looks at it. *)
Record session := {
  certificate_type : Z;
  certificate_peers : list x509_crt;
}.

(** [struct stream]: [s_p] is the offset of [p] from [data]; [end] is
    [data] plus the length of [s_data]. *)
Record stream := {
  s_size : Z;
  s_p : Z;
  s_data : list byte;
}.

Definition s_end_offset (s : stream) : Z := Z.of_nat (length (s_data s)).

(** [struct addrinfo] (one node; [ai_next] is the tail of a list) and
    [struct sockaddr_in]. *)
Record addrinfo := {
  ai_family : Z;
  ai_socktype : Z;
  ai_protocol : Z;
  ai_addr : list byte;
  ai_canonname : option string;
}.

Record sockaddr_in := {
  sin_family : Z;
  sin_port : Z;
  sin_addr : N;
}.

Inductive server_address :=
| ServerAddrinfo (a : addrinfo)      (* IPv6 build *)
| ServerSockaddr (a : sockaddr_in).  (* build without IPv6 *)

Inductive stat_result :=
| StatENOENT
| StatFailed               (* -1 with another errno *)
| StatMode (is_dir : bool).

(** Calls that leave the process, with what they were given and what they
    answered.  The trace of a state lists them, the most recent first. *)
Inductive event :=
| EvMkdirCertcache
| EvDialog (message : string) (response : option string)
| EvTlsInit
| EvHandshake (rv : Z)
| EvVerificationStatusPrint
| EvTlsBye
| EvTlsDeinit
| EvRecordSend (data : list byte) (rv : Z)
| EvRecordRecv (len : Z) (rv : Z)
| EvRecordCheckPending (rv : Z)
| EvSend (data : list byte) (rv : Z)
| EvRecv (len : Z) (rv : Z)
| EvSelectWrite (tv_sec tv_usec : Z) (rv : Z)
| EvUiSelect
| EvResolve (server : string)
| EvSocket (rv : Z)
| EvGetnameinfo (rv : Z)
| EvConnect (rv : Z)
| EvClose (fd : Z)
| EvSetsockopt (name : string) (value : Z)
| EvGetsockopt (rv value : Z)
| EvGetpeername (rv : Z).

(** The build: [#ifdef IPv6], [#ifdef WITH_SCARD] and the GnuTLS version. *)
Record build := {
  IPv6 : bool;
  WITH_SCARD : bool;
  GNUTLS_VERSION_NUMBER : Z;
}.

(** The collaborators of [tcp.c].  The oracles of calls whose answer may
    change from one call to the next take the trace so far. *)
Record environment := {
  env_build : build;
  (* utils.c, nettle *)
  utils_djb2_hash : string -> N;
  base64_encode_raw : list byte -> string;
  base64_decode_update : string -> option (list byte);
  (* process, file system, user *)
  getenv_HOME : option string;
  os_stat : list event -> string -> stat_result;
  rd_certcache_mkdir : bool;
  util_dialog_choice : list event -> string -> option string;
  (* [fopen(filename, "w+")] succeeds *)
  os_fopen_write : list event -> string -> bool;
  (* the stack: the C string found in the uninitialised [b64] of
     [cert_tdb_store] from an offset on, NULL when there is no NUL before
     the end of the buffer *)
  uninitialised_b64 : list event -> nat -> option string;
  (* GnuTLS *)
  gnutls_init : Z;
  gnutls_priority_set_direct : Z;
  gnutls_certificate_allocate_credentials : Z;
  gnutls_credentials_set : Z;
  gnutls_certificate_verification_status_print : Z;
  gnutls_handshake : list event -> Z;
  gnutls_error_is_fatal : Z -> bool;
  gnutls_session : session;
  gnutls_record_send : list event -> list byte -> Z;
  gnutls_record_recv : list event -> Z -> Z * list byte;
  gnutls_record_check_pending : list event -> Z;
  (* sockets; the boolean is [errno == EWOULDBLOCK] *)
  os_send : list event -> list byte -> Z * bool;
  os_recv : list event -> Z -> Z * bool * list byte;
  os_select_write : list event -> Z -> Z;
  ui_select : list event -> bool;
  os_getaddrinfo : list event -> string -> Z -> Z * list addrinfo;
  os_gethostbyname : list event -> string -> option N;
  inet_addr : string -> N;
  os_socket : list event -> Z;
  os_getnameinfo : list event -> addrinfo -> Z;
  os_connect_addrinfo : list event -> addrinfo -> Z;
  os_connect_sockaddr : list event -> sockaddr_in -> Z;
  os_getsockopt_rcvbuf : list event -> Z * Z;
  os_getpeername : list event -> Z;
}.

(** The globals of [tcp.c], the [extern] flags it shares with the
    application, the files of the certificate cache (path to content) and
    the trace. *)
Record state := {
  g_server_address : option server_address;
  g_last_server_name : option string;
  g_ssl_initialized : bool;
  g_sock : Z;
  g_run_ui : bool;
  g_in : stream;
  g_out : list stream;
  g_tcp_port_rdp : Z;
  g_exit_mainloop : bool;
  g_network_error : bool;
  files : gmap string string;
  trace : list event;
}.

Definition set_server_address (v : option server_address) (st : state) : state :=
  {| g_server_address := v; g_last_server_name := g_last_server_name st;
     g_ssl_initialized := g_ssl_initialized st; g_sock := g_sock st;
     g_run_ui := g_run_ui st; g_in := g_in st; g_out := g_out st;
     g_tcp_port_rdp := g_tcp_port_rdp st;
     g_exit_mainloop := g_exit_mainloop st;
     g_network_error := g_network_error st; files := files st;
     trace := trace st |}.

Definition set_last_server_name (v : option string) (st : state) : state :=
  {| g_server_address := g_server_address st; g_last_server_name := v;
     g_ssl_initialized := g_ssl_initialized st; g_sock := g_sock st;
     g_run_ui := g_run_ui st; g_in := g_in st; g_out := g_out st;
     g_tcp_port_rdp := g_tcp_port_rdp st;
     g_exit_mainloop := g_exit_mainloop st;
     g_network_error := g_network_error st; files := files st;
     trace := trace st |}.

Definition set_ssl_initialized (v : bool) (st : state) : state :=
  {| g_server_address := g_server_address st;
     g_last_server_name := g_last_server_name st;
     g_ssl_initialized := v; g_sock := g_sock st;
     g_run_ui := g_run_ui st; g_in := g_in st; g_out := g_out st;
     g_tcp_port_rdp := g_tcp_port_rdp st;
     g_exit_mainloop := g_exit_mainloop st;
     g_network_error := g_network_error st; files := files st;
     trace := trace st |}.

Definition set_sock (v : Z) (st : state) : state :=
  {| g_server_address := g_server_address st;
     g_last_server_name := g_last_server_name st;
     g_ssl_initialized := g_ssl_initialized st; g_sock := v;
     g_run_ui := g_run_ui st; g_in := g_in st; g_out := g_out st;
     g_tcp_port_rdp := g_tcp_port_rdp st;
     g_exit_mainloop := g_exit_mainloop st;
     g_network_error := g_network_error st; files := files st;
     trace := trace st |}.

Definition set_run_ui (v : bool) (st : state) : state :=
  {| g_server_address := g_server_address st;
     g_last_server_name := g_last_server_name st;
     g_ssl_initialized := g_ssl_initialized st; g_sock := g_sock st;
     g_run_ui := v; g_in := g_in st; g_out := g_out st;
     g_tcp_port_rdp := g_tcp_port_rdp st;
     g_exit_mainloop := g_exit_mainloop st;
     g_network_error := g_network_error st; files := files st;
     trace := trace st |}.

Definition set_in (v : stream) (st : state) : state :=
  {| g_server_address := g_server_address st;
     g_last_server_name := g_last_server_name st;
     g_ssl_initialized := g_ssl_initialized st; g_sock := g_sock st;
     g_run_ui := g_run_ui st; g_in := v; g_out := g_out st;
     g_tcp_port_rdp := g_tcp_port_rdp st;
     g_exit_mainloop := g_exit_mainloop st;
     g_network_error := g_network_error st; files := files st;
     trace := trace st |}.

Definition set_out (v : list stream) (st : state) : state :=
  {| g_server_address := g_server_address st;
     g_last_server_name := g_last_server_name st;
     g_ssl_initialized := g_ssl_initialized st; g_sock := g_sock st;
     g_run_ui := g_run_ui st; g_in := g_in st; g_out := v;
     g_tcp_port_rdp := g_tcp_port_rdp st;
     g_exit_mainloop := g_exit_mainloop st;
     g_network_error := g_network_error st; files := files st;
     trace := trace st |}.

Definition set_exit_mainloop (v : bool) (st : state) : state :=
  {| g_server_address := g_server_address st;
     g_last_server_name := g_last_server_name st;
     g_ssl_initialized := g_ssl_initialized st; g_sock := g_sock st;
     g_run_ui := g_run_ui st; g_in := g_in st; g_out := g_out st;
     g_tcp_port_rdp := g_tcp_port_rdp st;
     g_exit_mainloop := v;
     g_network_error := g_network_error st; files := files st;
     trace := trace st |}.

Definition set_network_error (v : bool) (st : state) : state :=
  {| g_server_address := g_server_address st;
     g_last_server_name := g_last_server_name st;
     g_ssl_initialized := g_ssl_initialized st; g_sock := g_sock st;
     g_run_ui := g_run_ui st; g_in := g_in st; g_out := g_out st;
     g_tcp_port_rdp := g_tcp_port_rdp st;
     g_exit_mainloop := g_exit_mainloop st;
     g_network_error := v; files := files st;
     trace := trace st |}.

Definition set_files (v : gmap string string) (st : state) : state :=
  {| g_server_address := g_server_address st;
     g_last_server_name := g_last_server_name st;
     g_ssl_initialized := g_ssl_initialized st; g_sock := g_sock st;
     g_run_ui := g_run_ui st; g_in := g_in st; g_out := g_out st;
     g_tcp_port_rdp := g_tcp_port_rdp st;
     g_exit_mainloop := g_exit_mainloop st;
     g_network_error := g_network_error st; files := v;
     trace := trace st |}.

(** An external call: its event goes on top of the trace. *)
Definition emit (e : event) (st : state) : state :=
  {| g_server_address := g_server_address st;
     g_last_server_name := g_last_server_name st;
     g_ssl_initialized := g_ssl_initialized st; g_sock := g_sock st;
     g_run_ui := g_run_ui st; g_in := g_in st; g_out := g_out st;
     g_tcp_port_rdp := g_tcp_port_rdp st;
     g_exit_mainloop := g_exit_mainloop st;
     g_network_error := g_network_error st; files := files st;
     trace := e :: trace st |}.

(** How a C function ends. *)
Inductive outcome (A : Type) :=
| Return (a : A)
| Exit (status : Z)   (* [exit(status)] *)
| Abort               (* a failed [assert] *)
| Fault.              (* a NULL pointer is read: undefined behaviour *)
Arguments Return {A} a.
Arguments Exit {A} status.
Arguments Abort {A}.
Arguments Fault {A}.

(** ** The public-key store *)

Definition GNUTLS_E_SUCCESS : Z := 0.
Definition GNUTLS_E_CERTIFICATE_ERROR : Z := -43.
Definition GNUTLS_E_NO_CERTIFICATE_FOUND : Z := -49.
Definition GNUTLS_E_CERTIFICATE_KEY_MISMATCH : Z := -60.
Definition GNUTLS_E_CERTIFICATE_VERIFICATION_ERROR : Z := -348.
Definition GNUTLS_CRT_X509 : Z := 1.
Definition PATH_MAX : N := 4096.

Definition nl : string := String LF EmptyString.

Definition cert_store_cache_filename (E : environment)
    (db_name host : string) (size : N) : string :=
  snprintf size (db_name +:+ "/" +:+ print_x (utils_djb2_hash E host)).

Definition BASE64_ENCODE_RAW_LENGTH (length : N) : N :=
  ((length + 2) / 3 * 4)%N.

Fixpoint has_nul (s : string) : bool :=
  match s with
  | EmptyString => false
  | String c r => Ascii.eqb c NUL || has_nul r
  end.

(** What ["%s"] prints of [b64].  [base64_encode_raw] has written the
    encoding at the start of the buffer and no NUL behind it, so that the
    text goes on into what the buffer held before, up to the first NUL.
    [None]: the encoding is longer than the buffer, or there is no NUL
    before the end of the buffer; memory outside [b64] is then written or
    read. *)
Definition printed_b64 (E : environment) (t : list event)
    (pubkey : list byte) : option string :=
  let b64 := base64_encode_raw E pubkey in
  let written := N.of_nat (String.length b64) in
  if (BASE64_ENCODE_RAW_LENGTH 4096 <? written)%N then None
  else if has_nul b64 then Some (c_str b64)
  else if (BASE64_ENCODE_RAW_LENGTH 4096 <=? written)%N then None
  else
    match uninitialised_b64 E t (String.length b64) with
    | Some behind => Some (b64 +:+ c_str behind)
    | None => None
    end.

(** The record of a key and an expiration time, as [cert_tdb_store] writes
    it when [b64] holds a NUL right behind the encoding: ["%ld\n"] of the
    expiration time and the encoding with a newline. *)
Definition trust_record (E : environment) (expiration : Z)
    (pubkey : list byte) : string :=
  let b64 := base64_encode_raw E pubkey in
  print_ld expiration +:+ nl +:+ c_str b64 +:+ nl.

(** [fopen(filename, "w+")] writes the file anew.  Its result is not
    tested: when the file cannot be opened, [fprintf] is given NULL.  After
    a [Fault] the state is of no significance. *)
Definition cert_tdb_store (E : environment) (db_name host : string)
    (expiration : Z) (pubkey : list byte) (st : state)
    : outcome Z * state :=
  let filename := cert_store_cache_filename E db_name host 4096 in
  if (BASE64_ENCODE_RAW_LENGTH 4096
      <? N.of_nat (String.length (base64_encode_raw E pubkey)))%N
  then (Fault, st)
  else if negb (os_fopen_write E (trace st) filename) then (Fault, st)
  else
    match printed_b64 E (trace st) pubkey with
    | None => (Fault, st)
    | Some b64 =>
        let content := print_ld expiration +:+ nl +:+ b64 +:+ nl in
        (Return GNUTLS_E_SUCCESS,
         set_files (<[filename := content]> (files st)) st)
    end.

Definition unlink (filename : string) (st : state) : state :=
  set_files (delete filename (files st)) st.

Definition cert_tdb_verify (E : environment) (db_name host : string)
    (pubkey : list byte) (st : state) : Z * state :=
  let filename := cert_store_cache_filename E db_name host 4096 in
  match files st !! filename with
  | None => (GNUTLS_E_NO_CERTIFICATE_FOUND, unlink filename st)
  | Some content =>
      (* get expiration line *)
      match fgets 4096 content with
      | None => (GNUTLS_E_NO_CERTIFICATE_FOUND, unlink filename st)
      | Some (_, rest) =>
          (* get base64 line *)
          match fgets 4096 rest with
          | None => (GNUTLS_E_NO_CERTIFICATE_FOUND, unlink filename st)
          | Some (buf, _) =>
              (* base64 decode stored key and compare *)
              match base64_decode_update E (c_str buf) with
              | None =>
                  (GNUTLS_E_CERTIFICATE_KEY_MISMATCH, unlink filename st)
              | Some store_pubkey =>
                  if negb (length pubkey =? length store_pubkey)%nat
                  then (GNUTLS_E_CERTIFICATE_KEY_MISMATCH, st)
                  else if negb (memcmp pubkey store_pubkey (length pubkey) =? 0)
                  then (GNUTLS_E_CERTIFICATE_KEY_MISMATCH, st)
                  else (GNUTLS_E_SUCCESS, st)
              end
          end
      end
  end.

(** GnuTLS, with the callbacks [cert_store_init] registers in [g_tdb]:
    [gnutls_verify_stored_pubkey] hands the raw public key of the
    certificate to [cert_tdb_verify] and reports every failure other than
    a key mismatch as "no certificate found"; [gnutls_store_pubkey] hands
    it to [cert_tdb_store]. *)
Definition gnutls_verify_stored_pubkey (E : environment)
    (db_name host : string) (cert : x509_crt) (st : state) : Z * state :=
  match crt_raw_pubkey cert with
  | None => (GNUTLS_E_CERTIFICATE_ERROR, st)
  | Some pubkey =>
      let '(rv, st') := cert_tdb_verify E db_name host pubkey st in
      (if (rv <? 0) && negb (rv =? GNUTLS_E_CERTIFICATE_KEY_MISMATCH)
       then GNUTLS_E_NO_CERTIFICATE_FOUND else rv, st')
  end.

Definition gnutls_store_pubkey (E : environment)
    (db_name host : string) (cert : x509_crt) (expiration : Z)
    (st : state) : outcome Z * state :=
  match crt_raw_pubkey cert with
  | None => (Return GNUTLS_E_CERTIFICATE_ERROR, st)
  | Some pubkey => cert_tdb_store E db_name host expiration pubkey st
  end.

(** replace ',' with '\n' for simpler format *)
Fixpoint comma_to_newline (s : string) : string :=
  match s with
  | EmptyString => EmptyString
  | String c r =>
      String (if Ascii.eqb c ","%char then LF else c) (comma_to_newline r)
  end.

(** The text the [snprintf], [strcat] and [strncat] of [check_cert] put
    together.  Only the [snprintf] is bounded: [message_fits] tells
    whether the text and its NUL are within [char message[2048]]. *)
Definition mismatch_message (name : string) (cert : x509_crt) : string :=
  let message :=
    snprintf 2048
      ("Host '" +:+ name +:+
       "' is known but has another key associated with it, " +:+ nl) in
  let message :=
    if crt_print_rv cert =? 0
    then message +:+ "review the following certificate info:" +:+ nl +:+ nl
           +:+ " " +:+ comma_to_newline (c_str (crt_print_info cert))
    else message +:+
           "rdesktop failed to parse the certificate and there for we can not display certificate information for you to  inspect the change."
           +:+ nl +:+ nl in
  message +:+ nl +:+ nl +:+ "Do you trust this certificate (yes/no)? ".

Definition message_fits (message : string) : bool :=
  (N.of_nat (String.length message) <? 2048)%N.

(** [if (rv != GNUTLS_E_SUCCESS) goto bail;] after [gnutls_store_pubkey],
    and the [return 0] that follows. *)
Definition stored (r : outcome Z * state) : outcome Z * state :=
  match r with
  | (Return rv, st) =>
      if negb (rv =? GNUTLS_E_SUCCESS) then (Return 1, st) else (Return 0, st)
  | (Exit status, st) => (Exit status, st)
  | (Abort, st) => (Abort, st)
  | (Fault, st) => (Fault, st)
  end.

(** The part of [check_cert] that runs once the name has been found. *)
Definition check_name (E : environment) (certcache_dir name : string)
    (cert : x509_crt) (st : state) : outcome Z * state :=
  let '(rv, st) := gnutls_verify_stored_pubkey E certcache_dir name cert st in
  if rv =? GNUTLS_E_NO_CERTIFICATE_FOUND then
    let exp_time := crt_expiration_time cert in
    stored (gnutls_store_pubkey E certcache_dir name cert exp_time st)
  else if rv =? GNUTLS_E_CERTIFICATE_KEY_MISMATCH then
    let message := mismatch_message name cert in
    (* [strcat] writes behind [message] *)
    if negb (message_fits message) then (Fault, st)
    else
    let response := util_dialog_choice E (trace st) message in
    let st := emit (EvDialog message response) st in
    (* strcmp(response, "no") == 0 || response == NULL *)
    match response with
    | None => (Fault, st)
    | Some r =>
        if strcmp0 r "no" then (Return 1, st)
        else
          let exp_time := crt_expiration_time cert in
          stored (gnutls_store_pubkey E certcache_dir name cert exp_time st)
    end
  else if rv <? 0 then (Return 1, st)
  else (Return 0, st).

Definition check_peer (E : environment) (certcache_dir : string)
    (cert : x509_crt) (st : state) : outcome Z * state :=
  if 0 <? crt_dn_size cert then
    match strstr (c_str (crt_dn cert)) "CN=" with
    | None => (Return 1, st)
    | Some found =>
        let name := str_drop 3 found in
        if (strlen name =? 0)%nat then (Return 1, st)
        else check_name E certcache_dir name cert st
    end
  else (Return 1, st).

Definition certcache_dir (home : string) : string :=
  snprintf (PATH_MAX - 1) (home +:+ "/" +:+ ".local/share/rdesktop/certs/").

(** The [stat] of the cache directory and what follows from it: [false]
    is [goto bail]. *)
Definition certcache_check (E : environment) (dir : string) (st : state)
    : bool * state :=
  match os_stat E (trace st) dir with
  | StatENOENT => (rd_certcache_mkdir E, emit EvMkdirCertcache st)
  | StatFailed => (true, st)
  | StatMode is_dir => (is_dir, st)
  end.

Definition check_cert (E : environment) (sess : session) (st : state)
    : outcome Z * state :=
  match getenv_HOME E with
  | None => (Return 0, st)    (* [return False] *)
  | Some home =>
      let '(dir_ok, st) := certcache_check E (certcache_dir home) st in
      if negb dir_ok then (Return 1, st)
      else if certificate_type sess =? GNUTLS_CRT_X509 then
        match certificate_peers sess with
        | [] => (Return 0, st)
        | cert :: _ => check_peer E (certcache_dir home) cert st
        end
      else (Return 0, st)
  end.

(** ** The TLS upgrade *)

(** [do err = gnutls_handshake(...) while (err < 0 && !fatal(err))] *)
Fixpoint handshake_loop (fuel : nat) (E : environment) (st : state)
    : option (Z * state) :=
  match fuel with
  | O => None
  | S fuel' =>
      let err := gnutls_handshake E (trace st) in
      let st := emit (EvHandshake err) st in
      if (err <? 0) && negb (gnutls_error_is_fatal E err)
      then handshake_loop fuel' E st
      else Some (err, st)
  end.

(** The label [fail]. *)
Definition tls_fail (st : state) : outcome bool * state :=
  if g_ssl_initialized st
  then (Return false, set_ssl_initialized false (emit EvTlsDeinit st))
  else (Return false, st).

(** Everything before the handshake; [None] when one of the [CHECK]
    assertions fails. *)
Definition tls_setup (E : environment) (st : state) : option state :=
  let init :=
    if g_ssl_initialized st then Some st
    else if gnutls_init E <? 0 then None
    else Some (set_ssl_initialized true (emit EvTlsInit st)) in
  match init with
  | None => None
  | Some st =>
      if (gnutls_priority_set_direct E <? 0)
         || (gnutls_certificate_allocate_credentials E <? 0)
         || (gnutls_credentials_set E <? 0)
      then None
      else Some st
  end.

Definition tcp_tls_connect (fuel : nat) (E : environment) (st : state)
    : option (outcome bool * state) :=
  match tls_setup E st with
  | None => Some (Abort, st)
  | Some st =>
        match handshake_loop fuel E st with
        | None => None
        | Some (err, st) =>
            if err <? 0 then
              if (0x030406 <=? GNUTLS_VERSION_NUMBER (env_build E))
                 && (err =? GNUTLS_E_CERTIFICATE_VERIFICATION_ERROR)
              then
                let st := emit EvVerificationStatusPrint st in
                if gnutls_certificate_verification_status_print E <? 0
                then Some (Abort, st)
                else Some (tls_fail st)
              else Some (tls_fail st)
            else
              match check_cert E (gnutls_session E) st with
              | (Return rv, st) =>
                  if negb (rv =? 0) then Some (Exit 1, st)
                  else Some (Return true, st)
              | (Exit status, st) => Some (Exit status, st)
              | (Abort, st) => Some (Abort, st)
              | (Fault, st) => Some (Fault, st)
              end
        end
  end.

(** ** The I/O engine *)

(** wait till socket is ready to write or timeout *)
Definition tcp_can_send (E : environment) (millis : Z) (st : state)
    : bool * state :=
  let tv_sec := Z.quot millis 1000 in
  let tv_usec := Z.rem (millis * 1000) 1000000 in
  let sel_count := os_select_write E (trace st) millis in
  (0 <? sel_count, emit (EvSelectWrite tv_sec tv_usec sel_count) st).

(** [s->data + total], [length - total] bytes of it. *)
Definition send_window (data : list byte) (length total : Z) : list byte :=
  take (Z.to_nat (length - total)) (drop (Z.to_nat total) data).

(** One round of [while (total < length)]: either the loop goes on with a
    new [total], or [tcp_send] returns. *)
Inductive send_step_result :=
| SendContinue (total : Z) (st : state)
| SendReturn (st : state).

Definition tcp_send_step (E : environment) (data : list byte)
    (length total : Z) (st : state) : send_step_result :=
  let window := send_window data length total in
  if g_ssl_initialized st then
    let sent := gnutls_record_send E (trace st) window in
    let st := emit (EvRecordSend window sent) st in
    if sent <=? 0 then
      if gnutls_error_is_fatal E sent
      then SendReturn (set_network_error true st)
      else
        let '(_, st) := tcp_can_send E 100 st in
        SendContinue (total + 0) st
    else SendContinue (total + sent) st
  else
    let '(sent, blocks) := os_send E (trace st) window in
    let st := emit (EvSend window sent) st in
    if sent <=? 0 then
      if (sent =? -1) && blocks then
        let '(_, st) := tcp_can_send E 100 st in
        SendContinue (total + 0) st
      else SendReturn (set_network_error true st)
    else SendContinue (total + sent) st.

Fixpoint tcp_send_loop (fuel : nat) (E : environment) (data : list byte)
    (length total : Z) (st : state) : option state :=
  if negb (total <? length) then Some st
  else
    match fuel with
    | O => None
    | S fuel' =>
        match tcp_send_step E data length total st with
        | SendContinue total' st' =>
            tcp_send_loop fuel' E data length total' st'
        | SendReturn st' => Some st'
        end
    end.

(** Send TCP transport data packet.  [None]: the loop is still running
    when the fuel is used up.  [length] and [total] are [int] in C and
    integers here: what the C code computes for a stream of fewer than
    [2 ^ 31] bytes. *)
Definition tcp_send (fuel : nat) (E : environment) (s : stream) (st : state)
    : option state :=
  let length := s_end_offset s in
  if g_network_error st then Some st
  else tcp_send_loop fuel E (s_data s) length 0 st.

(** A [STREAM] is a pointer: to [g_in], or to a stream of the caller. *)
Inductive stream_ptr :=
| PtrIn
| PtrCaller (s : stream).

Definition deref (p : stream_ptr) (st : state) : stream :=
  match p with
  | PtrIn => g_in st
  | PtrCaller s => s
  end.

Definition assign (p : stream_ptr) (v : stream) (st : state)
    : stream_ptr * state :=
  match p with
  | PtrIn => (PtrIn, set_in v st)
  | PtrCaller _ => (PtrCaller v, st)
  end.

Definition uint32 (z : Z) : Z := z mod 2 ^ 32.

(** [s->end += rcvd] after the transport wrote [rcvd] bytes at [s->end]. *)
Definition s_append (rcvd : Z) (bytes : list byte) (s : stream) : stream :=
  {| s_size := s_size s; s_p := s_p s;
     s_data := s_data s ++ resize (Z.to_nat rcvd) x00 bytes |}.

Inductive recv_step_result :=
| RecvContinue (s : stream_ptr) (length : Z) (st : state)
| RecvReturn (st : state).      (* [return NULL] *)

(** The head of a round: under the event loop of the user interface,
    and with nothing pending in the TLS session, wait in [ui_select]; the
    boolean tells that leaving the main loop was requested there. *)
Definition recv_wait (E : environment) (st : state) : bool * state :=
  let '(no_pending, st) :=
    if g_ssl_initialized st then
      let pending := gnutls_record_check_pending E (trace st) in
      (pending <=? 0, emit (EvRecordCheckPending pending) st)
    else (true, st) in
  if no_pending && g_run_ui st then
    let quit := ui_select E (trace st) in
    let st := set_exit_mainloop quit (emit EvUiSelect st) in
    (g_exit_mainloop st, st)
  else (false, st).

(** The read of a round, through the active transport. *)
Definition recv_read (E : environment) (s : stream_ptr) (length : Z)
    (st : state) : recv_step_result :=
  if g_ssl_initialized st then
    let '(rcvd, bytes) := gnutls_record_recv E (trace st) length in
    let st := emit (EvRecordRecv length rcvd) st in
    if rcvd <? 0 then
      if gnutls_error_is_fatal E rcvd
      then RecvReturn (set_network_error true st)
      else RecvContinue s (uint32 (length - 0)) st
    else
      let '(s, st) := assign s (s_append rcvd bytes (deref s st)) st in
      RecvContinue s (uint32 (length - rcvd)) st
  else
    let '(rcvd, blocks, bytes) := os_recv E (trace st) length in
    let st := emit (EvRecv length rcvd) st in
    if rcvd <? 0 then
      if (rcvd =? -1) && blocks
      then RecvContinue s (uint32 (length - 0)) st
      else RecvReturn (set_network_error true st)
    else if rcvd =? 0 then RecvReturn st
    else
      let '(s, st) := assign s (s_append rcvd bytes (deref s st)) st in
      RecvContinue s (uint32 (length - rcvd)) st.

(** One round of [while (length > 0)]. *)
Definition tcp_recv_step (E : environment) (s : stream_ptr) (length : Z)
    (st : state) : recv_step_result :=
  let '(cancelled, st) := recv_wait E st in
  if cancelled then RecvReturn st else recv_read E s length st.

Fixpoint tcp_recv_loop (fuel : nat) (E : environment) (s : stream_ptr)
    (length : Z) (st : state) : option (option stream_ptr * state) :=
  if negb (0 <? length) then Some (Some s, st)
  else
    match fuel with
    | O => None
    | S fuel' =>
        match tcp_recv_step E s length st with
        | RecvContinue s' length' st' => tcp_recv_loop fuel' E s' length' st'
        | RecvReturn st' => Some (None, st')
        end
    end.

(** The stream [tcp_recv] reads into: [g_in], emptied and made large
    enough, when [s] is NULL; otherwise [s], grown to hold [length] more
    bytes, with [p] and [end] at the offsets they had. *)
Definition recv_prepare (s : option stream_ptr) (length : Z) (st : state)
    : stream_ptr * state :=
  match s with
  | None =>
      (* read into "new" stream *)
      let g := g_in st in
      let size := if s_size g <? length then length else s_size g in
      (PtrIn, set_in {| s_size := size; s_p := 0; s_data := [] |} st)
  | Some p =>
      (* append to existing stream *)
      let v := deref p st in
      let new_length := uint32 (s_end_offset v + length) in
      if s_size v <? new_length
      then assign p {| s_size := new_length; s_p := s_p v;
                       s_data := s_data v |} st
      else (p, st)
  end.

(** Receive a message on the TCP layer.  The result is the stream pointer
    returned, [None] for NULL. *)
Definition tcp_recv (fuel : nat) (E : environment) (s : option stream_ptr)
    (length : Z) (st : state) : option (option stream_ptr * state) :=
  if g_network_error st then Some (None, st)
  else
    let '(s, st) := recv_prepare s length st in
    tcp_recv_loop fuel E s length st.

(** ** The connection manager *)

Definition AF_INET : Z := 2.
Definition INADDR_NONE : N := 0xffffffff.

Definition STREAM_COUNT (b : build) : nat := if WITH_SCARD b then 8 else 1.

(** Helper function to determine if rdesktop should resolve hostnames again
    or not *)
Definition tcp_connect_resolve_hostname (server : string) (st : state) : bool :=
  match g_server_address st, g_last_server_name st with
  | None, _ => true
  | Some _, None => true
  | Some _, Some last => negb (strcmp0 last server)
  end.

Definition TCP_CLOSE (st : state) : state := emit (EvClose (g_sock st)) st.

(** How the loop over the candidate addresses ends. *)
Inductive candidates_result :=
| CandidateConnected (addr : addrinfo) (st : state)   (* [break] *)
| CandidatesExhausted (st : state)                    (* [addr == NULL] *)
| CandidateGetnameinfoFailed (st : state).            (* [return False] *)

Fixpoint try_candidates (E : environment) (addrs : list addrinfo)
    (st : state) : candidates_result :=
  match addrs with
  | [] => CandidatesExhausted st
  | addr :: rest =>
      let fd := os_socket E (trace st) in
      let st := set_sock fd (emit (EvSocket fd) st) in
      if fd <? 0 then try_candidates E rest st
      else
        let n := os_getnameinfo E (trace st) addr in
        let st := emit (EvGetnameinfo n) st in
        if negb (n =? 0) then CandidateGetnameinfoFailed st
        else
          let rv := os_connect_addrinfo E (trace st) addr in
          let st := emit (EvConnect rv) st in
          if rv =? 0 then CandidateConnected addr st
          else try_candidates E rest (set_sock (-1) (TCP_CLOSE st))
  end.

(** [s->size = size; s->data = ...]: a stream is given another buffer,
    and [p] and [end] are not assigned.  They point where they did, and
    the fields [s_p] and [s_data], which stand for them, are left as they
    are: they say nothing of the new buffer until [p] and [end] are
    assigned again. *)
Definition rebuffered (size : Z) (s : stream) : stream :=
  {| s_size := size; s_p := s_p s; s_data := s_data s |}.

(** [for (i = 0; i < STREAM_COUNT; i++)] over the elements of [g_out]. *)
Definition for_each_out (E : environment) (f : stream -> stream)
    (out : list stream) : list stream :=
  foldl (fun out i => alter f i out) out (seq 0 (STREAM_COUNT (env_build E))).

(** What follows [#endif /* IPv6 */]: socket options, buffers, and the
    name of the server just connected to. *)
Definition tcp_connect_finish (E : environment) (server : string)
    (st : state) : outcome bool * state :=
  let st := emit (EvSetsockopt "TCP_NODELAY" 1) st in
  (* receive buffer must be a least 16 K *)
  let '(rv, option_value) := os_getsockopt_rcvbuf E (trace st) in
  let st := emit (EvGetsockopt rv option_value) st in
  let st :=
    if (rv =? 0) && (option_value <? 1024 * 16)
    then emit (EvSetsockopt "SO_RCVBUF" (1024 * 16)) st
    else st in
  let st := set_in (rebuffered 4096 (g_in st)) st in
  let st := set_out (for_each_out E (rebuffered 4096) (g_out st)) st in
  (* After successful connect: update the last server name *)
  let st := set_last_server_name (Some (c_str server)) st in
  (Return true, st).

(** The node kept in [g_server_address]: a copy of [addr] with
    [ai_canonname] and [ai_next] cleared. *)
Definition cached_addrinfo (addr : addrinfo) : addrinfo :=
  {| ai_family := ai_family addr;
     ai_socktype := ai_socktype addr;
     ai_protocol := ai_protocol addr;
     ai_addr := ai_addr addr;
     ai_canonname := None |}.

(** The [struct sockaddr_in] filled in by the build without IPv6; the
    port is [htons((uint16) g_tcp_port_rdp)]. *)
Definition resolved_sockaddr (port : Z) (addr : N) : sockaddr_in :=
  {| sin_family := AF_INET; sin_port := port mod 2 ^ 16; sin_addr := addr |}.

Definition tcp_connect_ipv6 (E : environment) (server : string) (st : state)
    : outcome bool * state :=
  let resolve := tcp_connect_resolve_hostname server st in
  let lookup :=
    if resolve then
      let '(n, res) :=
        os_getaddrinfo E (trace st) server (g_tcp_port_rdp st) in
      let st := emit (EvResolve server) st in
      if negb (n =? 0) then inl st else inr (res, st)
    else
      match g_server_address st with
      | Some (ServerAddrinfo a) => inr ([a], st)
      | _ => inr ([], st)
      end in
  match lookup with
  | inl st => (Return false, st)
  | inr (res, st) =>
      let st := set_sock (-1) st in
      match try_candidates E res st with
      | CandidateGetnameinfoFailed st => (Return false, st)
      | CandidatesExhausted st =>
          if g_sock st =? -1 then (Return false, st)
          else (Fault, st)     (* [memcpy] from [addr == NULL] *)
      | CandidateConnected addr st =>
          (* Save server address for later use, if we haven't already. *)
          let st :=
            if resolve
            then set_server_address
                   (Some (ServerAddrinfo (cached_addrinfo addr))) st
            else st in
          tcp_connect_finish E server st
      end
  end.

Definition tcp_connect_ipv4 (E : environment) (server : string) (st : state)
    : outcome bool * state :=
  let lookup :=
    if tcp_connect_resolve_hostname server st then
      let nslookup := os_gethostbyname E (trace st) server in
      let st := emit (EvResolve server) st in
      let fresh := resolved_sockaddr (g_tcp_port_rdp st) in
      match nslookup with
      | Some h_addr =>
          let a := fresh h_addr in
          inr (a, set_server_address (Some (ServerSockaddr a)) st)
      | None =>
          let a := fresh (inet_addr E server) in
          let st := set_server_address (Some (ServerSockaddr a)) st in
          if (sin_addr a =? INADDR_NONE)%N then inl (Return false, st)
          else inr (a, st)
      end
    else
      match g_server_address st with
      | Some (ServerSockaddr a) => inr (a, st)
      | _ => inl (Fault, st)
      end in
  match lookup with
  | inl r => r
  | inr (a, st) =>
      let fd := os_socket E (trace st) in
      let st := set_sock fd (emit (EvSocket fd) st) in
      if fd <? 0 then (Return false, st)
      else
        let rv := os_connect_sockaddr E (trace st) a in
        let st := emit (EvConnect rv) st in
        if rv <? 0 then (Return false, set_sock (-1) (TCP_CLOSE st))
        else tcp_connect_finish E server st
  end.

(** Establish a connection on the TCP layer *)
Definition tcp_connect (E : environment) (server : string) (st : state)
    : outcome bool * state :=
  if IPv6 (env_build E) then tcp_connect_ipv6 E server st
  else tcp_connect_ipv4 E server st.

(** Disconnect on the TCP layer *)
Definition tcp_disconnect (E : environment) (st : state) : state :=
  let st :=
    if g_ssl_initialized st
    then set_ssl_initialized false (emit EvTlsDeinit (emit EvTlsBye st))
    else st in
  let st := set_sock (-1) (TCP_CLOSE st) in
  let st := set_in (rebuffered 0 (g_in st)) st in
  set_out (for_each_out E (rebuffered 0) (g_out st)) st.

Definition tcp_is_connected (E : environment) (st : state) : bool * state :=
  let rv := os_getpeername E (trace st) in
  let st := emit (EvGetpeername rv) st in
  if negb (rv =? 0) then (true, st) else (false, st).

Definition tcp_run_ui (run : bool) (st : state) : state := set_run_ui run st.

(** A call into the layer, and a sequence of calls made one after the
    other; a call that leaves the process ends the sequence. *)
Inductive tcp_call :=
| CallConnect (server : string)
| CallDisconnect
| CallTlsConnect
| CallSend (s : stream)
| CallRecv (s : option stream_ptr) (length : Z)
| CallIsConnected
| CallRunUi (run : bool).

Definition run_call (fuel : nat) (E : environment) (c : tcp_call)
    (st : state) : option (outcome unit * state) :=
  match c with
  | CallConnect server =>
      match tcp_connect E server st with
      | (Return _, st) => Some (Return tt, st)
      | (Exit n, st) => Some (Exit n, st)
      | (Abort, st) => Some (Abort, st)
      | (Fault, st) => Some (Fault, st)
      end
  | CallDisconnect => Some (Return tt, tcp_disconnect E st)
  | CallTlsConnect =>
      match tcp_tls_connect fuel E st with
      | None => None
      | Some (Return _, st) => Some (Return tt, st)
      | Some (Exit n, st) => Some (Exit n, st)
      | Some (Abort, st) => Some (Abort, st)
      | Some (Fault, st) => Some (Fault, st)
      end
  | CallSend s =>
      match tcp_send fuel E s st with
      | None => None
      | Some st => Some (Return tt, st)
      end
  | CallRecv s length =>
      match tcp_recv fuel E s length st with
      | None => None
      | Some (_, st) => Some (Return tt, st)
      end
  | CallIsConnected => Some (Return tt, snd (tcp_is_connected E st))
  | CallRunUi run => Some (Return tt, tcp_run_ui run st)
  end.

Fixpoint run_calls (fuel : nat) (E : environment) (cs : list tcp_call)
    (st : state) : option (outcome unit * state) :=
  match cs with
  | [] => Some (Return tt, st)
  | c :: cs' =>
      match run_call fuel E c st with
      | Some (Return _, st') => run_calls fuel E cs' st'
      | r => r
      end
  end.

(** ** Buffers handed out, and what the layer tells of the connection *)

(** Modelled from the spec: [s_realloc] and [s_reset] belong to
    [stream.c], which is not part of this file.  The spec has the growth
    of a buffer keep the bytes already written and the offsets of the
    cursors, and a reset clear the logical content (the read and write
    cursors) without releasing memory. *)
Definition s_realloc (s : stream) (size : Z) : stream :=
  if s_size s <? size
  then {| s_size := size; s_p := s_p s; s_data := s_data s |}
  else s.

Definition s_reset (s : stream) : stream :=
  {| s_size := s_size s; s_p := 0; s_data := [] |}.

(** Initialise TCP transport data packet.  [cur_stream_id], the [static]
    counter of the function, comes in and goes out next to the state.  The
    result is the index of the element of [g_out] whose address the C
    function returns.  The lock of the smart-card build is not modelled. *)
Definition tcp_init (E : environment) (maxlen : Z) (cur_stream_id : nat)
    (st : state) : nat * nat * state :=
  let result := cur_stream_id in
  let st :=
    set_out (alter (fun s => s_reset (s_realloc s maxlen)) result (g_out st))
      st in
  (result, ((cur_stream_id + 1) mod STREAM_COUNT (env_build E))%nat, st).

(** A sequence of calls of [tcp_init], one for each requested length: the
    indices returned, the counter and the state after the last call. *)
Fixpoint tcp_init_calls (E : environment) (maxlens : list Z)
    (cur_stream_id : nat) (st : state) : list nat * nat * state :=
  match maxlens with
  | [] => ([], cur_stream_id, st)
  | maxlen :: rest =>
      let '(result, cur, st) := tcp_init E maxlen cur_stream_id st in
      let '(results, cur, st) := tcp_init_calls E rest cur st in
      (result :: results, cur, st)
  end.

(** reset the state of the tcp layer *)
Definition tcp_reset_state (E : environment) (st : state) : state :=
  (* Clear the incoming stream *)
  let st := set_in (s_reset (g_in st)) st in
  (* Clear the outgoing stream(s) *)
  set_out
    (foldl (fun out i => alter s_reset i out) (g_out st)
       (seq 0 (STREAM_COUNT (env_build E))))
    st.

(** ["%d"] of a [uint8]. *)
Definition print_uint8 (b : byte) : string := print_ld (Z.of_N (Byte.to_N b)).

(** [tcp_get_address]: what is left in the static buffer [ipaddr].
    [getsockname] answers with its return value and the four bytes of
    [sin_addr], in the order they lie in memory. *)
Definition tcp_get_address (getsockname : Z * list byte) : string :=
  let '(rv, ip) := getsockname in
  if rv =? 0 then
    print_uint8 (nth 0 ip x00) +:+ "." +:+ print_uint8 (nth 1 ip x00) +:+ "."
      +:+ print_uint8 (nth 2 ip x00) +:+ "." +:+ print_uint8 (nth 3 ip x00)
  else "127.0.0.1".

Definition GNUTLS_PK_RSA : Z := 1.

(** What GnuTLS and the encoder of [asn.c] answer to
    [tcp_tls_get_server_pubkey]: the first certificate of the peer (or
    NULL), the return values of [gnutls_x509_crt_init] and
    [gnutls_x509_crt_import], the algorithm of the key, the return value of
    [gnutls_x509_crt_get_pk_rsa_raw] with what it leaves in [m] and [e]
    ([None]: the datum is not written), and [write_pkcs1_der_pubkey],
    which is given modulus, exponent and the size of [pk_data] and answers
    with its return value and the bytes it wrote ([pk_size] is their
    number).  [m] and [e] are not initialised: the last two fields tell
    whether what the stack holds in their place has a size other than 0
    and data other than NULL. *)
Record server_key := {
  key_certificate_get_peers : option (list byte);
  key_x509_crt_init : Z;
  key_x509_crt_import : list byte -> Z;
  key_x509_crt_get_pk_algorithm : list byte -> Z;
  key_x509_crt_get_pk_rsa_raw :
    list byte -> Z * option (list byte) * option (list byte);
  write_pkcs1_der_pubkey : list byte -> list byte -> Z -> Z * list byte;
  key_stack_m : bool;
  key_stack_e : bool;
}.

(** The label [out]: [free(e.data)] and [free(m.data)], each under
    [size != 0 && data].  A datum that was written holds memory of
    GnuTLS, or none; one that was not holds what the stack held, and
    [free] of that is undefined. *)
Definition server_pubkey_out (G : server_key) (m e : option (list byte))
    (result : bool) (s : option stream) : outcome bool * option stream :=
  let wild (stack : bool) (d : option (list byte)) :=
    match d with
    | None => stack
    | Some _ => false
    end in
  if wild (key_stack_e G) e || wild (key_stack_m G) m then (Fault, s)
  else (Return result, s).

(** Get public key from server of TLS 1.x connection.  The stream [s] of
    the caller is written, not read: the result is the return value and
    what [s] holds, [None] when [s->data] is NULL (and [s->size] is 0). *)
Definition tcp_tls_get_server_pubkey (G : server_key)
    : outcome bool * option stream :=
  match key_certificate_get_peers G with
  | None => server_pubkey_out G None None false None
  | Some der =>
      if negb (key_x509_crt_init G =? GNUTLS_E_SUCCESS)
      then server_pubkey_out G None None false None
      else if negb (key_x509_crt_import G der =? GNUTLS_E_SUCCESS)
      then server_pubkey_out G None None false None
      else if key_x509_crt_get_pk_algorithm G der =? GNUTLS_PK_RSA then
        let '(ret, m, e) := key_x509_crt_get_pk_rsa_raw G der in
        if negb (ret =? GNUTLS_E_SUCCESS)
        then server_pubkey_out G m e false None
        else
          match m, e with
          | Some modulus, Some exponent =>
              let '(ret, pk_data) :=
                write_pkcs1_der_pubkey G modulus exponent 1024 in
              if negb (ret =? 0) then server_pubkey_out G m e false None
              else
                let pk_size := Z.of_nat (length pk_data) in
                server_pubkey_out G m e (negb (pk_size =? 0))
                  (Some {| s_size := pk_size; s_p := 0; s_data := pk_data |})
          | _, _ => (Fault, None)    (* the encoder reads a datum not written *)
          end
      else server_pubkey_out G None None false None
  end.

(** ** Reference collaborators

    The base64 codec of nettle (the [base64_encode_raw],
    [base64_decode_init] and [base64_decode_update] that [tcp.c] calls) and
    the hash of [utils.c], as functions, to run the model on concrete
    records.  The statements below are about any [environment]; these
    definitions instantiate them. *)

Module Nettle.

Definition base64_encode_table : list ascii :=
  list_ascii_of_string
    "ABCDEFGHIJKLMNOPQRSTUVWXYZabcdefghijklmnopqrstuvwxyz0123456789+/".

(** [ENCODE(alphabet, x)] is [alphabet[0x3F & x]]. *)
Definition ENCODE (x : Z) : ascii :=
  nth (Z.to_nat (Z.land 63 x)) base64_encode_table "A"%char.

(** The value of a byte, as the [uint8_t] it is. *)
Definition byte_val (b : byte) : Z := Z.of_N (Byte.to_N b).

Fixpoint base64_encode_raw (src : list byte) : string :=
  match src with
  | [] => EmptyString
  | [a] =>
      let a := byte_val a in
      String (ENCODE (Z.shiftr a 2))
        (String (ENCODE (Z.shiftl a 4)) "==")
  | [a; b] =>
      let a := byte_val a in
      let b := byte_val b in
      String (ENCODE (Z.shiftr a 2))
        (String (ENCODE (Z.lor (Z.shiftl a 4) (Z.shiftr b 4)))
           (String (ENCODE (Z.shiftl b 2)) "="))
  | a :: b :: c :: rest =>
      let a := byte_val a in
      let b := byte_val b in
      let c := byte_val c in
      String (ENCODE (Z.shiftr a 2))
        (String (ENCODE (Z.lor (Z.shiftl a 4) (Z.shiftr b 4)))
           (String (ENCODE (Z.lor (Z.shiftl b 2) (Z.shiftr c 6)))
              (String (ENCODE c) (base64_encode_raw rest))))
  end.

Inductive table_entry :=
| TABLE_DATA (d : Z)
| TABLE_INVALID
| TABLE_SPACE
| TABLE_END.

(** White space is HT, VT, FF, CR, LF and SPC *)
Definition base64_decode_table (c : ascii) : table_entry :=
  let n := Z.of_N (N_of_ascii c) in
  if (65 <=? n) && (n <=? 90) then TABLE_DATA (n - 65)
  else if (97 <=? n) && (n <=? 122) then TABLE_DATA (n - 71)
  else if (48 <=? n) && (n <=? 57) then TABLE_DATA (n + 4)
  else if n =? 43 then TABLE_DATA 62
  else if n =? 47 then TABLE_DATA 63
  else if n =? 61 then TABLE_END
  else if ((9 <=? n) && (n <=? 13)) || (n =? 32) then TABLE_SPACE
  else TABLE_INVALID.

(** [struct base64_decode_ctx]: [word] is an [unsigned short]. *)
Record base64_decode_ctx := {
  word : Z;
  bits : Z;
  padding : Z;
}.

Definition base64_decode_init : base64_decode_ctx :=
  {| word := 0; bits := 0; padding := 0 |}.

(** A context in which no padding has been seen. *)
Definition ctx_at (w b : Z) : base64_decode_ctx :=
  {| word := w; bits := b; padding := 0 |}.

Definition uint8_of_Z (z : Z) : byte :=
  match Byte.of_N (Z.to_N (z mod 256)) with
  | Some b => b
  | None => x00
  end.

(** [None] is the return value -1; otherwise the new context and the byte
    written, if one was. *)
Definition base64_decode_single (ctx : base64_decode_ctx) (src : ascii)
    : option (base64_decode_ctx * option byte) :=
  match base64_decode_table src with
  | TABLE_DATA data =>
      if negb (padding ctx =? 0) then None
      else
        let w := Z.lor (Z.shiftl (word ctx) 6) data mod 2 ^ 16 in
        let b := bits ctx + 6 in
        if 8 <=? b
        then Some ({| word := w; bits := b - 8; padding := padding ctx |},
                   Some (uint8_of_Z (Z.shiftr w (b - 8))))
        else Some ({| word := w; bits := b; padding := padding ctx |}, None)
  | TABLE_INVALID => None
  | TABLE_SPACE => Some (ctx, None)
  | TABLE_END =>
      (* There can be at most two padding characters. *)
      if (bits ctx =? 0) || (2 <? padding ctx) then None
      (* We shouldn't have any leftover bits *)
      else if negb (Z.land (word ctx) (Z.shiftl 1 (bits ctx) - 1) =? 0)
      then None
      else Some ({| word := word ctx; bits := bits ctx - 2;
                    padding := padding ctx + 1 |}, None)
  end.

Fixpoint decode_from (ctx : base64_decode_ctx) (src : string)
    : option (list byte) :=
  match src with
  | EmptyString => Some []
  | String c r =>
      match base64_decode_single ctx c with
      | None => None
      | Some (ctx', out) =>
          match decode_from ctx' r with
          | None => None
          | Some l =>
              Some (match out with Some b => b :: l | None => l end)
          end
      end
  end.

(** [base64_decode_init] followed by [base64_decode_update]; [None] is
    the return value 0. *)
Definition base64_decode_update (src : string) : option (list byte) :=
  decode_from base64_decode_init src.

End Nettle.

(** Modelled from the spec: the hash of identities is [utils_djb2_hash]
    of [utils.c], which is not part of this file; the spec asks of it to be
    stable and deterministic.  This is the djb2 hash its name refers to,
    over a [uint32]. *)
Fixpoint djb2_from (hash : N) (str : string) : N :=
  match str with
  | EmptyString => hash
  | String c r =>
      if Ascii.eqb c NUL then hash
      else djb2_from ((N.shiftl hash 5 + hash + N_of_ascii c) mod 2 ^ 32)%N r
  end.

Definition djb2 (str : string) : N := djb2_from 5381 str.

(** ** A scripted environment

    An environment whose oracles answer the same at every call, and the
    state of a process that has not connected yet, to run the model. *)

Definition scripted_build (ipv6 : bool) : build :=
  {| IPv6 := ipv6; WITH_SCARD := false; GNUTLS_VERSION_NUMBER := 0x030600 |}.

Definition scripted_env (ipv6 : bool) (root : stat_result)
    (answer : option string) (peer : session)
    (send_rv : list byte -> Z * bool) (recv_rv : Z * bool * list byte)
    (connect_rv : Z) : environment :=
  {| env_build := scripted_build ipv6;
     utils_djb2_hash := djb2;
     base64_encode_raw := Nettle.base64_encode_raw;
     base64_decode_update := Nettle.base64_decode_update;
     getenv_HOME := Some "/home/user";
     os_stat := fun _ _ => root;
     rd_certcache_mkdir := true;
     util_dialog_choice := fun _ _ => answer;
     os_fopen_write := fun _ _ => true;
     uninitialised_b64 := fun _ _ => Some EmptyString;
     gnutls_init := 0;
     gnutls_priority_set_direct := 0;
     gnutls_certificate_allocate_credentials := 0;
     gnutls_credentials_set := 0;
     gnutls_certificate_verification_status_print := 0;
     gnutls_handshake := fun _ => 0;
     gnutls_error_is_fatal := fun rv => rv <? -50;
     gnutls_session := peer;
     gnutls_record_send := fun _ data => fst (send_rv data);
     gnutls_record_recv := fun _ _ => (fst (fst recv_rv), snd recv_rv);
     gnutls_record_check_pending := fun _ => 0;
     os_send := fun _ data => send_rv data;
     os_recv := fun _ _ => recv_rv;
     os_select_write := fun _ _ => 1;
     ui_select := fun _ => false;
     os_getaddrinfo := fun _ _ _ =>
       (0, [ {| ai_family := 10; ai_socktype := 1; ai_protocol := 6;
                ai_addr := [x0a; x00; x00; x01];
                ai_canonname := None |} ]);
     os_gethostbyname := fun _ _ => Some 0x0a000001%N;
     inet_addr := fun _ => INADDR_NONE;
     os_socket := fun _ => 3;
     os_getnameinfo := fun _ _ => 0;
     os_connect_addrinfo := fun _ _ => connect_rv;
     os_connect_sockaddr := fun _ _ => connect_rv;
     os_getsockopt_rcvbuf := fun _ => (0, 8192);
     os_getpeername := fun _ => 0 |}.

Definition no_stream : stream := {| s_size := 0; s_p := 0; s_data := [] |}.

Definition initial_state : state :=
  {| g_server_address := None; g_last_server_name := None;
     g_ssl_initialized := false; g_sock := 0; g_run_ui := false;
     g_in := no_stream; g_out := [no_stream];
     g_tcp_port_rdp := 3389;
     g_exit_mainloop := false; g_network_error := false;
     files := ∅; trace := [] |}.

(** A peer with one X.509 certificate, for an identity and a key. *)
Definition x509_peer_cert (identity : string) (pubkey : list byte)
    (expiration : Z) : x509_crt :=
  {| crt_dn_size := Z.of_nat (String.length identity + 3);
     crt_dn := "CN=" +:+ identity;
     crt_raw_pubkey := Some pubkey;
     crt_expiration_time := expiration;
     crt_print_rv := 0;
     crt_print_info := "subject `CN=" +:+ identity +:+ "', RSA key" |}.

Definition x509_peer (identity : string) (pubkey : list byte)
    (expiration : Z) : session :=
  {| certificate_type := GNUTLS_CRT_X509;
     certificate_peers := [x509_peer_cert identity pubkey expiration] |}.

(** Every write is taken whole: the transport of a quiet network. *)
Definition send_all (data : list byte) : Z * bool :=
  (Z.of_nat (length data), false).

(** Half of what is offered is taken, and at least one byte. *)
Definition send_half (data : list byte) : Z * bool :=
  (Z.max 1 (Z.of_nat (length data) / 2), false).

Definition recv_nothing : Z * bool * list byte := (-1, true, []).

(** An environment with more of its answers left open: the build with or
    without smart-card support, HOME, the results of the handshake and of
    the reads (which may depend on what has happened so far), whether the
    user interface asks to leave the main loop, and, for the connection
    manager, the addresses of the resolver and the results of
    [getnameinfo] and [connect]. *)
Definition staged_env (scard : bool) (home : option string)
    (handshake : list event -> Z) (recv : list event -> Z -> Z * list byte)
    (quit : bool) (addrs : list addrinfo) (nameinfo : Z)
    (connect : list event -> Z) : environment :=
  {| env_build :=
       {| IPv6 := true; WITH_SCARD := scard;
          GNUTLS_VERSION_NUMBER := 0x030600 |};
     utils_djb2_hash := djb2;
     base64_encode_raw := Nettle.base64_encode_raw;
     base64_decode_update := Nettle.base64_decode_update;
     getenv_HOME := home;
     os_stat := fun _ _ => StatMode true;
     rd_certcache_mkdir := true;
     util_dialog_choice := fun _ _ => Some "no";
     os_fopen_write := fun _ _ => true;
     uninitialised_b64 := fun _ _ => Some EmptyString;
     gnutls_init := 0;
     gnutls_priority_set_direct := 0;
     gnutls_certificate_allocate_credentials := 0;
     gnutls_credentials_set := 0;
     gnutls_certificate_verification_status_print := 0;
     gnutls_handshake := handshake;
     gnutls_error_is_fatal := fun rv => rv <? (-50);
     gnutls_session := x509_peer "server.example.com" [x41] 1700000000;
     gnutls_record_send := fun _ data => Z.of_nat (length data);
     gnutls_record_recv := recv;
     gnutls_record_check_pending := fun _ => 0;
     os_send := fun _ data => (Z.of_nat (length data), false);
     os_recv := fun t len => ((recv t len).1, false, (recv t len).2);
     os_select_write := fun _ _ => 1;
     ui_select := fun _ => quit;
     os_getaddrinfo := fun _ _ _ => (0, addrs);
     os_gethostbyname := fun _ _ => Some 0x0a000001%N;
     inet_addr := fun _ => INADDR_NONE;
     os_socket := fun t => 3 + Z.of_nat (length t);
     os_getnameinfo := fun _ _ => nameinfo;
     os_connect_addrinfo := fun t _ => connect t;
     os_connect_sockaddr := fun t _ => connect t;
     os_getsockopt_rcvbuf := fun _ => (0, 8192);
     os_getpeername := fun _ => 0 |}.

(** An environment for the store in trouble: what [stat] says of the
    cache root and whether it can be made, whether a record can be opened
    for writing, and what the stack holds where [b64] is. *)
Definition store_env (root : stat_result) (mkdir fopen : bool)
    (stack : nat -> option string) (answer : option string)
    (peer : session) : environment :=
  {| env_build := scripted_build true;
     utils_djb2_hash := djb2;
     base64_encode_raw := Nettle.base64_encode_raw;
     base64_decode_update := Nettle.base64_decode_update;
     getenv_HOME := Some "/home/user";
     os_stat := fun _ _ => root;
     rd_certcache_mkdir := mkdir;
     util_dialog_choice := fun _ _ => answer;
     os_fopen_write := fun _ _ => fopen;
     uninitialised_b64 := fun _ => stack;
     gnutls_init := 0;
     gnutls_priority_set_direct := 0;
     gnutls_certificate_allocate_credentials := 0;
     gnutls_credentials_set := 0;
     gnutls_certificate_verification_status_print := 0;
     gnutls_handshake := fun _ => 0;
     gnutls_error_is_fatal := fun rv => rv <? (-50);
     gnutls_session := peer;
     gnutls_record_send := fun _ data => Z.of_nat (length data);
     gnutls_record_recv := fun _ _ => (0, []);
     gnutls_record_check_pending := fun _ => 0;
     os_send := fun _ data => (Z.of_nat (length data), false);
     os_recv := fun _ _ => (0, false, []);
     os_select_write := fun _ _ => 1;
     ui_select := fun _ => false;
     os_getaddrinfo := fun _ _ _ => (0, []);
     os_gethostbyname := fun _ _ => None;
     inet_addr := fun _ => INADDR_NONE;
     os_socket := fun _ => 3;
     os_getnameinfo := fun _ _ => 0;
     os_connect_addrinfo := fun _ _ => 0;
     os_connect_sockaddr := fun _ _ => 0;
     os_getsockopt_rcvbuf := fun _ => (0, 8192);
     os_getpeername := fun _ => 0 |}.

(** The stack where an earlier call of [cert_tdb_store] has left the
    encoding [old] and a NUL behind it. *)
Definition left_behind (old : string) (offset : nat) : option string :=
  Some (c_str (str_drop offset old)).

(** A read that delivers two bytes at a time, and fewer when fewer are
    asked for. *)
Definition recv_two (t : list event) (len : Z) : Z * list byte :=
  (Z.min len 2, [x41; x42]).

(** The address of a host, for the resolver. *)
Definition host_address (last : byte) : addrinfo :=
  {| ai_family := 10; ai_socktype := 1; ai_protocol := 6;
     ai_addr := [x0a; x00; x00; last]; ai_canonname := None |}.

(** ** Vocabulary of the statements *)

#[global] Instance byte_eq_decision : EqDecision byte := Byte.byte_eq_dec.

(** [time_t] is a 64-bit [long]. *)
Definition time_t_range (z : Z) : Prop := - 2 ^ 63 <= z < 2 ^ 63.

(** The file that holds the record of an identity. *)
Definition record_file (E : environment) (home identity : string) : string :=
  cert_store_cache_filename E (certcache_dir home) identity 4096.

(** A key the store can hold: its encoding is one line of text that fits
    the 4096-byte read buffer and that the decoder turns back into the
    key. *)
Definition storable (E : environment) (pubkey : list byte) : bool :=
  let line := c_str (base64_encode_raw E pubkey) in
  plain line && (N.of_nat (String.length line) <? 4095)%N &&
  match base64_decode_update E (line +:+ nl) with
  | Some decoded =>
      (length pubkey =? length decoded)%nat
      && (memcmp pubkey decoded (length pubkey) =? 0)
  | None => false
  end.

(** A store of key [pubkey] for an identity that goes well: whenever it
    is made, the record can be opened for writing and [b64] holds a NUL
    right behind the encoding. *)
Definition clean_store (E : environment) (home identity : string)
    (pubkey : list byte) : Prop :=
  forall t,
    os_fopen_write E t (record_file E home identity) = true /\
    printed_b64 E t pubkey = Some (c_str (base64_encode_raw E pubkey)).

(** The certificate and the identity [check_cert] finds in a session: the
    leaf of an X.509 chain and what follows ["CN="] in its distinguished
    name. *)
Definition peer_identity (sess : session) : option (x509_crt * string) :=
  if certificate_type sess =? GNUTLS_CRT_X509 then
    match certificate_peers sess with
    | [] => None
    | cert :: _ =>
        if 0 <? crt_dn_size cert then
          match strstr (c_str (crt_dn cert)) "CN=" with
          | None => None
          | Some found =>
              if (strlen (str_drop 3 found) =? 0)%nat then None
              else Some (cert, str_drop 3 found)
          end
        else None
    end
  else None.

(** The cache root is there, and is a directory, whenever it is looked
    at. *)
Definition cache_root_is_dir (E : environment) (home : string) : Prop :=
  forall t, os_stat E t (certcache_dir home) = StatMode true.

Definition is_dialog (e : event) : bool :=
  match e with
  | EvDialog _ _ => true
  | _ => false
  end.

Fixpoint count_events (p : event -> bool) (t : list event) : nat :=
  match t with
  | [] => 0
  | e :: t' => (if p e then 1 else 0) + count_events p t'
  end.

(** How often the user was asked. *)
Definition prompts (t : list event) : nat := count_events is_dialog t.

Definition is_resolve (e : event) : bool :=
  match e with
  | EvResolve _ => true
  | _ => false
  end.

(** How often a name was resolved. *)
Definition resolutions (t : list event) : nat := count_events is_resolve t.

(** The bytes the transport took, from a trace (most recent event first). *)
Fixpoint transmitted (t : list event) : list byte :=
  match t with
  | [] => []
  | EvSend data rv :: t' => transmitted t' ++ take (Z.to_nat rv) data
  | EvRecordSend data rv :: t' => transmitted t' ++ take (Z.to_nat rv) data
  | _ :: t' => transmitted t'
  end.

(** The stages of [check_cert] before the certificate is looked at do not
    end it: HOME is unset, or the cache root is a directory, has just been
    made, or could not be examined. *)
Definition cache_root_passes (E : environment) (st : state) : bool :=
  match getenv_HOME E with
  | None => true
  | Some home => (certcache_check E (certcache_dir home) st).1
  end.

Definition is_tls_deinit (e : event) : bool :=
  match e with
  | EvTlsDeinit => true
  | _ => false
  end.

(** How often a TLS session was torn down. *)
Definition teardowns (t : list event) : nat := count_events is_tls_deinit t.


(** The last thing that happened is a read of no bytes from the socket. *)
Definition zero_read (t : list event) : Prop :=
  exists length t', t = EvRecv length 0 :: t'.

(** Two states of which the second has, under one path name, the file
    the first has, and the same past. *)
Definition agree_on (file : string) (st st' : state) : Prop :=
  trace st' = trace st /\ files st' !! file = files st !! file.



(** The addresses a resolution of [server] offers for the cache, at a
    given trace. *)
Definition resolved_candidates (E : environment) (t : list event)
    (server : string) (port : Z) : list server_address :=
  if IPv6 (env_build E)
  then map (fun a => ServerAddrinfo (cached_addrinfo a))
           (os_getaddrinfo E t server port).2
  else [ServerSockaddr
          (resolved_sockaddr port
             match os_gethostbyname E t server with
             | Some h_addr => h_addr
             | None => inet_addr E server
             end)].

(** What the loop over the candidate addresses leaves alone. *)
Definition candidates_frame (st st' : state) : Prop :=
  g_network_error st' = g_network_error st /\
  g_server_address st' = g_server_address st /\
  g_last_server_name st' = g_last_server_name st /\
  resolutions (trace st') = resolutions (trace st).

(** The value a string of hexadecimal digits stands for. *)
Definition hex_digit_value (c : ascii) : option N :=
  let n := N_of_ascii c in
  if (48 <=? n)%N && (n <=? 57)%N then Some (n - 48)%N
  else if (97 <=? n)%N && (n <=? 102)%N then Some (n - 87)%N
  else None.

Fixpoint hex_value_from (acc : N) (s : string) : option N :=
  match s with
  | EmptyString => Some acc
  | String c r =>
      match hex_digit_value c with
      | Some d => hex_value_from (16 * acc + d)%N r
      | None => None
      end
  end.

Definition hex_value (s : string) : option N := hex_value_from 0 s.

(** Reads and writes through the socket itself, and through the TLS
    session. *)
Definition is_plain_io (e : event) : bool :=
  match e with
  | EvSend _ _ | EvRecv _ _ => true
  | _ => false
  end.

Definition is_tls_io (e : event) : bool :=
  match e with
  | EvRecordSend _ _ | EvRecordRecv _ _ | EvRecordCheckPending _ => true
  | _ => false
  end.

Definition is_read (e : event) : bool :=
  match e with
  | EvRecv _ _ | EvRecordRecv _ _ => true
  | _ => false
  end.

(** A transport that never reports more bytes read than were asked for. *)
Definition reads_within_request (E : environment) : Prop :=
  forall t length,
    (os_recv E t length).1.1 <= length /\
    (gnutls_record_recv E t length).1 <= length.

(** A transport that gives at least one byte, and no more than asked for,
    to every read that asks for some; and a user interface that does not
    ask to leave the main loop. *)
Definition delivers (E : environment) : Prop :=
  forall t length, 0 < length ->
    0 < (os_recv E t length).1.1 <= length /\
    0 < (gnutls_record_recv E t length).1 <= length.

Definition stays_in_main_loop (E : environment) : Prop :=
  forall t, ui_select E t = false.

(** Sockets that were opened, and descriptors that were closed. *)
Definition is_socket_opened (e : event) : bool :=
  match e with
  | EvSocket fd => 0 <=? fd
  | _ => false
  end.

Definition is_close (e : event) : bool :=
  match e with
  | EvClose _ => true
  | _ => false
  end.

Definition sockets_opened (t : list event) : nat :=
  count_events is_socket_opened t.

Definition sockets_closed (t : list event) : nat := count_events is_close t.

(** Every socket opened in [new] was closed again; or one was not, and
    the last thing that happened is a [getnameinfo] that failed. *)
Definition sockets_given_back (new : list event) : Prop :=
  sockets_opened new = sockets_closed new \/
  sockets_opened new = S (sockets_closed new) /\
  exists n t, n <> 0 /\ new = EvGetnameinfo n :: t.

(** What a call of [tcp_connect] that does not connect leaves as it was. *)
Definition failed_connect_frame (E : environment) (st st' : state) : Prop :=
  g_ssl_initialized st' = g_ssl_initialized st /\
  files st' = files st /\
  g_in st' = g_in st /\ g_out st' = g_out st /\
  g_last_server_name st' = g_last_server_name st /\
  (IPv6 (env_build E) = true -> g_server_address st' = g_server_address st).

(** An empty buffer of 4096 bytes: a buffer of [tcp_connect] once its
    cursors are set. *)
Definition fresh_stream : stream :=
  {| s_size := 4096; s_p := 0; s_data := [] |}.

(** The reason of a certificate verification error is asked for, and
    cannot be printed. *)
Definition status_print_fails (E : environment) (err : Z) : bool :=
  (0x030406 <=? GNUTLS_VERSION_NUMBER (env_build E))
  && (err =? GNUTLS_E_CERTIFICATE_VERIFICATION_ERROR)
  && (gnutls_certificate_verification_status_print E <? 0).

Definition is_tls_init (e : event) : bool :=
  match e with
  | EvTlsInit => true
  | _ => false
  end.

(** The result of a handshake that ends the loop of [tcp_tls_connect]. *)
Definition handshake_decided (E : environment) (err : Z) : bool :=
  negb ((err <? 0) && negb (gnutls_error_is_fatal E err)).

(** * Properties *)

(** ** Lines, numbers and bytes *)

Section CStrFacts.

Lemma append_cons (c : ascii) (a b : string) :
  String c a +:+ b = String c (a +:+ b).
Proof. reflexivity. Qed.

Lemma append_nil_l (b : string) : EmptyString +:+ b = b.
Proof. reflexivity. Qed.

Lemma append_nil_r (s : string) : s +:+ EmptyString = s.
Proof.
  induction s as [|c s IH]; [reflexivity |].
  now rewrite append_cons, IH.
Qed.

Lemma append_assoc (a b c : string) : (a +:+ b) +:+ c = a +:+ b +:+ c.
Proof.
  induction a as [|x a IH]; [reflexivity |].
  now rewrite !append_cons, IH.
Qed.

Lemma length_append (a b : string) :
  String.length (a +:+ b) = (String.length a + String.length b)%nat.
Proof.
  induction a as [|x a IH]; [reflexivity |].
  rewrite append_cons. simpl. now rewrite IH.
Qed.

Lemma plain_append (a b : string) :
  plain (a +:+ b) = plain a && plain b.
Proof.
  induction a as [|x a IH]; [reflexivity |].
  rewrite append_cons. simpl. rewrite IH. now rewrite andb_assoc.
Qed.

Lemma plain_cons (c : ascii) (l : string) :
  plain (String c l) = true ->
  Ascii.eqb c LF = false /\ Ascii.eqb c NUL = false /\ plain l = true.
Proof.
  simpl. intros Hp. apply andb_prop in Hp as [Hc Hl].
  apply andb_prop in Hc as [Hlf Hnul].
  apply negb_true_iff in Hlf. apply negb_true_iff in Hnul. auto.
Qed.

(** A plain line followed by a newline is what [fgets] reads, when it fits
    the buffer. *)
Lemma read_line_plain (l rest : string) (n : nat) :
  plain l = true -> (String.length l < n)%nat ->
  read_line n (l +:+ nl +:+ rest) = (l +:+ nl, rest).
Proof.
  revert n. induction l as [|c l IH]; intros n Hp Hn.
  - destruct n as [|n]; [lia |]. reflexivity.
  - destruct n as [|n]; [simpl in Hn; lia |].
    apply plain_cons in Hp as (Hlf & _ & Hl).
    rewrite !append_cons.
    change (read_line (S n) (String c ?r))
      with (if Ascii.eqb c LF then (String c EmptyString, r)
            else let '(l0, r') := read_line n r in (String c l0, r')).
    rewrite Hlf.
    rewrite (IH n Hl); [reflexivity | simpl in Hn; lia].
Qed.

Lemma fgets_plain (l rest : string) (size : N) :
  plain l = true -> (N.of_nat (String.length l) + 1 < size)%N ->
  fgets size (l +:+ nl +:+ rest) = Some (l +:+ nl, rest).
Proof.
  intros Hp Hn. unfold fgets.
  rewrite read_line_plain by (trivial; lia).
  destruct l; reflexivity.
Qed.

Lemma c_str_plain (l : string) : plain l = true -> c_str l = l.
Proof.
  induction l as [|c l IH]; [reflexivity |].
  intros Hp. apply plain_cons in Hp as (_ & Hnul & Hl).
  simpl. rewrite Hnul. now rewrite IH.
Qed.

Lemma c_str_line (l : string) : plain l = true -> c_str (l +:+ nl) = l +:+ nl.
Proof.
  induction l as [|c l IH]; [reflexivity |].
  intros Hp. apply plain_cons in Hp as (_ & Hnul & Hl).
  rewrite append_cons. simpl. rewrite Hnul. now rewrite IH.
Qed.

(** Digits are neither newline nor NUL. *)
Lemma dec_digit_plain (d : N) (acc : string) :
  (d < 10)%N -> plain (String (dec_digit d) acc) = plain acc.
Proof.
  intros Hd.
  destruct d as [|[[[[?|?|]|[?|?|]|]|[[?|?|]|[?|?|]|]|]
                  |[[[?|?|]|[?|?|]|]|[[?|?|]|[?|?|]|]|]|]];
    try lia; reflexivity.
Qed.

Lemma print_radix_dec_plain (fuel : nat) (n : N) (acc : string) :
  plain (print_radix fuel 10 dec_digit n acc) = plain acc.
Proof.
  revert n acc. induction fuel as [|fuel IH]; intros n acc; [reflexivity |].
  change (print_radix (S fuel) 10 dec_digit n acc)
    with (if (n / 10 =? 0)%N then String (dec_digit (n mod 10)) acc
          else print_radix fuel 10 dec_digit (n / 10)
                 (String (dec_digit (n mod 10)) acc)).
  assert (Hd : (n mod 10 < 10)%N) by (apply N.mod_lt; lia).
  destruct (n / 10 =? 0)%N.
  - now apply dec_digit_plain.
  - rewrite IH. now apply dec_digit_plain.
Qed.

Lemma print_radix_length (fuel : nat) (radix : N) (digit : N -> ascii)
    (n : N) (acc : string) :
  (String.length (print_radix fuel radix digit n acc)
   <= fuel + String.length acc)%nat.
Proof.
  revert n acc. induction fuel as [|fuel IH]; intros n acc;
    [change (print_radix 0 radix digit n acc) with acc; lia |].
  change (print_radix (S fuel) radix digit n acc)
    with (if (n / radix =? 0)%N then String (digit (n mod radix)%N) acc
          else print_radix fuel radix digit (n / radix)%N
                 (String (digit (n mod radix)%N) acc)).
  destruct (n / radix =? 0)%N; simpl; [lia |].
  etransitivity; [apply IH |]. simpl. lia.
Qed.

Lemma print_ld_plain (z : Z) : plain (print_ld z) = true.
Proof.
  unfold print_ld, print_lu.
  destruct (z <? 0); [change (plain (String "-" ?s)) with (plain s) |];
    now rewrite print_radix_dec_plain.
Qed.

Lemma print_ld_length (z : Z) :
  time_t_range z -> (String.length (print_ld z) <= 65)%nat.
Proof.
  intros Hz. unfold print_ld, print_lu.
  assert (Hlog : forall n : N, (n <= 2 ^ 63)%N -> (digit_fuel n <= 64)%nat).
  { intros n Hn. unfold digit_fuel.
    assert (N.log2 n <= 63)%N; [| lia].
    destruct (N.eq_dec n 0%N) as [-> | Hn0]; [simpl; lia |].
    transitivity (N.log2 (2 ^ 63)); [now apply N.log2_le_mono |].
    now rewrite N.log2_pow2. }
  unfold time_t_range in Hz.
  destruct (z <? 0) eqn:Hneg.
  - change (String.length (String ?c ?s)) with (S (String.length s)).
    pose proof (print_radix_length (digit_fuel (Z.to_N (- z))) 10 dec_digit
                  (Z.to_N (- z)) EmptyString) as Hl.
    assert (Hb : (Z.to_N (- z) <= 2 ^ 63)%N)
      by (change (2 ^ 63)%N with (Z.to_N (2 ^ 63)); lia).
    specialize (Hlog _ Hb).
    change (String.length EmptyString) with 0%nat in Hl. lia.
  - pose proof (print_radix_length (digit_fuel (Z.to_N z)) 10 dec_digit
                  (Z.to_N z) EmptyString) as Hl.
    assert (Hb : (Z.to_N z <= 2 ^ 63)%N)
      by (change (2 ^ 63)%N with (Z.to_N (2 ^ 63)); lia).
    specialize (Hlog _ Hb).
    change (String.length EmptyString) with 0%nat in Hl. lia.
Qed.

Lemma memcmp_refl (a : list byte) : memcmp a a (length a) = 0.
Proof.
  induction a as [|x a IH]; [reflexivity |].
  simpl. now rewrite (Byte.byte_dec_lb (eq_refl x)).
Qed.

Lemma memcmp_eq (a b : list byte) :
  length a = length b -> memcmp a b (length a) = 0 -> a = b.
Proof.
  revert b. induction a as [|x a IH]; intros [|y b] Hlen Hcmp;
    try discriminate; [reflexivity |].
  simpl in Hcmp. destruct (Byte.eqb x y) eqn:Hxy.
  - apply Byte.byte_dec_bl in Hxy as ->. f_equal.
    apply IH; [now injection Hlen | exact Hcmp].
  - assert (Hn : Byte.to_N x = Byte.to_N y) by lia.
    assert (Hs : Some x = Some y)
      by now rewrite <- (Byte.of_to_N x), <- (Byte.of_to_N y), Hn.
    injection Hs as ->.
    now rewrite (Byte.byte_dec_lb (eq_refl y)) in Hxy.
Qed.

End CStrFacts.

(** ** The codec of nettle

    The reference codec decodes what it encoded, so that the keys it can
    hold in a record are all those whose encoding fits the read buffer. *)

Module NettleFacts.
Import Nettle.

Lemma byte_val_range (b : byte) : 0 <= byte_val b < 256.
Proof.
  unfold byte_val. pose proof (Byte.to_N_bounded b). lia.
Qed.

Lemma uint8_of_byte_val (z : Z) (b : byte) :
  z mod 256 = byte_val b -> uint8_of_Z z = b.
Proof.
  intros Hz. unfold uint8_of_Z, byte_val in *. rewrite Hz, N2Z.id.
  now rewrite Byte.of_to_N.
Qed.

(** Bits that do not overlap add up. *)
Lemma lor_shiftl_low (x d k : Z) :
  0 <= x -> 0 <= k -> 0 <= d < 2 ^ k ->
  Z.lor (Z.shiftl x k) d = x * 2 ^ k + d.
Proof.
  intros Hx Hk Hd.
  assert (Hland : Z.land (Z.shiftl x k) d = 0).
  { rewrite <- (Z.mod_small d (2 ^ k)) by lia.
    rewrite <- Z.land_ones by lia.
    rewrite (Z.land_comm d), Z.land_assoc, Z.land_ones by lia.
    rewrite Z.shiftl_mul_pow2 by lia.
    rewrite Z.mod_mul by lia. apply Z.land_0_l. }
  rewrite <- Z.lxor_lor by exact Hland.
  rewrite <- Z.add_nocarry_lxor by exact Hland.
  now rewrite Z.shiftl_mul_pow2.
Qed.

Lemma land_63 (x : Z) : Z.land 63 x = x mod 64.
Proof.
  rewrite Z.land_comm. change 63 with (Z.ones 6). now rewrite Z.land_ones.
Qed.

Lemma land_63_range (x : Z) : 0 <= Z.land 63 x < 64.
Proof. rewrite land_63. apply Z.mod_pos_bound. lia. Qed.

Ltac div_mod := Z.div_mod_to_equations; lia.

(** The four indices of a group of three bytes, and those of the two
    short tails. *)
Lemma index_1 (a : Z) : 0 <= a < 256 -> Z.land 63 (Z.shiftr a 2) = a / 4.
Proof.
  intros Ha. rewrite Z.shiftr_div_pow2 by lia.
  rewrite land_63.
  change (2 ^ 2) with 4. div_mod.
Qed.

Lemma index_2 (a b : Z) :
  0 <= a < 256 -> 0 <= b < 256 ->
  Z.land 63 (Z.lor (Z.shiftl a 4) (Z.shiftr b 4)) = a mod 4 * 16 + b / 16.
Proof.
  intros Ha Hb. rewrite Z.shiftr_div_pow2 by lia.
  change (2 ^ 4) with 16.
  rewrite lor_shiftl_low by (try lia; change (2 ^ 4) with 16; div_mod).
  change (2 ^ 4) with 16.
  rewrite land_63. div_mod.
Qed.

Lemma index_3 (b c : Z) :
  0 <= b < 256 -> 0 <= c < 256 ->
  Z.land 63 (Z.lor (Z.shiftl b 2) (Z.shiftr c 6)) = b mod 16 * 4 + c / 64.
Proof.
  intros Hb Hc. rewrite Z.shiftr_div_pow2 by lia.
  change (2 ^ 6) with 64.
  rewrite lor_shiftl_low by (try lia; change (2 ^ 2) with 4; div_mod).
  change (2 ^ 2) with 4.
  rewrite land_63. div_mod.
Qed.

Lemma index_4 (c : Z) : 0 <= c < 256 -> Z.land 63 c = c mod 64.
Proof. intros Hc. apply land_63. Qed.

Lemma index_2_tail (a : Z) :
  0 <= a < 256 -> Z.land 63 (Z.shiftl a 4) = a mod 4 * 16.
Proof.
  intros Ha. rewrite Z.shiftl_mul_pow2 by lia. change (2 ^ 4) with 16.
  rewrite land_63. div_mod.
Qed.

Lemma index_3_tail (b : Z) :
  0 <= b < 256 -> Z.land 63 (Z.shiftl b 2) = b mod 16 * 4.
Proof.
  intros Hb. rewrite Z.shiftl_mul_pow2 by lia. change (2 ^ 2) with 4.
  rewrite land_63. div_mod.
Qed.


(** The alphabet, read back through the decoding table. *)
Lemma alphabet_check :
  forallb (fun n =>
             match base64_decode_table (nth n base64_encode_table "A"%char)
             with
             | TABLE_DATA d => d =? Z.of_nat n
             | _ => false
             end
             && plain (String (nth n base64_encode_table "A"%char)
                         EmptyString))
          (seq 0 64) = true.
Proof. vm_compute. reflexivity. Qed.

Lemma ENCODE_spec (x : Z) :
  base64_decode_table (ENCODE x) = TABLE_DATA (Z.land 63 x) /\
  plain (String (ENCODE x) EmptyString) = true.
Proof.
  pose proof (land_63_range x) as Hr.
  pose proof alphabet_check as Hall.
  rewrite forallb_forall in Hall.
  assert (Hin : In (Z.to_nat (Z.land 63 x)) (seq 0 64))
    by (apply in_seq; lia).
  specialize (Hall _ Hin). apply andb_prop in Hall as [Hd Hp].
  unfold ENCODE. destruct (base64_decode_table _); try discriminate.
  apply Z.eqb_eq in Hd. split; [f_equal; lia | exact Hp].
Qed.

(** One character of data, while no padding has been seen: with fewer
    than eight bits collected nothing is written, otherwise a byte is. *)
Lemma decode_single_data (w b x : Z) :
  0 <= w -> 0 <= b ->
  let w' := (w * 64 + Z.land 63 x) mod 65536 in
  base64_decode_single (ctx_at w b) (ENCODE x) =
    if 8 <=? b + 6
    then Some (ctx_at w' (b - 2), Some (uint8_of_Z (w' / 2 ^ (b - 2))))
    else Some (ctx_at w' (b + 6), None).
Proof.
  intros Hw Hb w'.
  pose proof (land_63_range x) as Hd.
  unfold base64_decode_single.
  destruct (ENCODE_spec x) as [-> _].
  change (padding (ctx_at w b)) with 0. change (word (ctx_at w b)) with w.
  change (bits (ctx_at w b)) with b. simpl negb. cbv iota.
  rewrite (lor_shiftl_low w _ 6) by (try lia; change (2 ^ 6) with 64; lia).
  change (2 ^ 6) with 64. change (2 ^ 16) with 65536. fold w'.
  destruct (8 <=? b + 6) eqn:Hb8; [| reflexivity].
  apply Z.leb_le in Hb8.
  replace (b + 6 - 8) with (b - 2) by lia.
  rewrite Z.shiftr_div_pow2 by lia. reflexivity.
Qed.

Lemma decode_from_cons (ctx : base64_decode_ctx) (c : ascii) (r : string) :
  decode_from ctx (String c r) =
    match base64_decode_single ctx c with
    | None => None
    | Some (ctx', out) =>
        match decode_from ctx' r with
        | None => None
        | Some l => Some (match out with Some b => b :: l | None => l end)
        end
    end.
Proof. reflexivity. Qed.

(** The first two characters of a group give its first byte. *)
Lemma decode_pair (w x1 x2 : Z) (a : byte) (r : string) :
  0 <= w ->
  (Z.land 63 x1 * 4 + Z.land 63 x2 / 16) mod 256 = byte_val a ->
  exists w', 0 <= w' /\ w' mod 64 = Z.land 63 x2 /\
    decode_from (ctx_at w 0) (String (ENCODE x1) (String (ENCODE x2) r)) =
      match decode_from (ctx_at w' 4) r with
      | Some l => Some (a :: l)
      | None => None
      end.
Proof.
  intros Hw Ha.
  pose proof (land_63_range x1) as H1. pose proof (land_63_range x2) as H2.
  rewrite decode_from_cons, (decode_single_data w 0) by lia.
  cbv zeta. change (8 <=? 0 + 6) with false. cbv iota.
  change (0 + 6) with 6.
  set (w1 := (w * 64 + Z.land 63 x1) mod 65536).
  assert (Hw1 : 0 <= w1 < 65536) by (apply Z.mod_pos_bound; lia).
  rewrite decode_from_cons, (decode_single_data w1 6) by lia.
  cbv zeta. change (8 <=? 6 + 6) with true. cbv iota.
  change (6 - 2) with 4. change (2 ^ 4) with 16.
  set (w2 := (w1 * 64 + Z.land 63 x2) mod 65536).
  exists w2. split; [apply Z.mod_pos_bound; lia |].
  split; [subst w2; div_mod |].
  rewrite (uint8_of_byte_val (w2 / 16) a);
    [now destruct (decode_from (ctx_at w2 4) r) |].
  rewrite <- Ha. subst w2 w1. div_mod.
Qed.

(** One more character, one more byte. *)
Lemma decode_next (w b x : Z) (c : byte) (r : string) :
  0 <= w -> 2 <= b <= 4 ->
  (w mod 2 ^ b * 2 ^ (8 - b) + Z.land 63 x / 2 ^ (b - 2)) mod 256
    = byte_val c ->
  exists w', 0 <= w' /\ w' mod 64 = Z.land 63 x /\
    decode_from (ctx_at w b) (String (ENCODE x) r) =
      match decode_from (ctx_at w' (b - 2)) r with
      | Some l => Some (c :: l)
      | None => None
      end.
Proof.
  intros Hw Hb Hc.
  pose proof (land_63_range x) as Hx.
  rewrite decode_from_cons, (decode_single_data w b) by lia.
  cbv zeta. assert (Hb8 : (8 <=? b + 6) = true) by (apply Z.leb_le; lia).
  rewrite Hb8.
  set (w' := (w * 64 + Z.land 63 x) mod 65536).
  exists w'. split; [apply Z.mod_pos_bound; lia |].
  split; [subst w'; div_mod |].
  rewrite (uint8_of_byte_val (w' / 2 ^ (b - 2)) c); [reflexivity |].
  rewrite <- Hc. subst w'.
  assert (Hcase : b = 2 \/ b = 3 \/ b = 4) by lia.
  destruct Hcase as [-> | [-> | ->]];
    change (2 ^ (2 - 2)) with 1; change (2 ^ (3 - 2)) with 2;
    change (2 ^ (4 - 2)) with 4; change (2 ^ (8 - 2)) with 64;
    change (2 ^ (8 - 3)) with 32; change (2 ^ (8 - 4)) with 16;
    change (2 ^ 2) with 4; change (2 ^ 3) with 8; change (2 ^ 4) with 16;
    div_mod.
Qed.


(** Padding: accepted when no bits are left over; the newline after it is
    white space. *)
Lemma decode_end (w b p : Z) (r : string) :
  0 <= w -> 2 <= b <= 4 -> 0 <= p <= 2 -> w mod 2 ^ b = 0 ->
  decode_from {| word := w; bits := b; padding := p |} (String "=" r) =
  decode_from {| word := w; bits := b - 2; padding := p + 1 |} r.
Proof.
  intros Hw Hb Hp Hrem. rewrite decode_from_cons.
  unfold base64_decode_single.
  change (base64_decode_table "=") with TABLE_END. simpl.
  assert (Hb0 : (b =? 0) = false) by (apply Z.eqb_neq; lia).
  assert (Hp2 : (2 <? p) = false) by (apply Z.ltb_ge; lia).
  rewrite Hb0, Hp2. simpl.
  rewrite Z.shiftl_1_l, Z.sub_1_r, <- Z.ones_equiv, Z.land_ones by lia.
  rewrite Hrem. simpl.
  now destruct (decode_from _ r).
Qed.

Lemma decode_nl (ctx : base64_decode_ctx) : decode_from ctx nl = Some [].
Proof. reflexivity. Qed.

(** Decoding what was encoded, with the newline of the record after it. *)
Lemma decode_encode (K : list byte) :
  forall w, 0 <= w ->
  decode_from (ctx_at w 0) (base64_encode_raw K +:+ nl) = Some K.
Proof.
  assert (Hlen : forall n K, (length K <= n)%nat ->
    forall w, 0 <= w ->
    decode_from (ctx_at w 0) (base64_encode_raw K +:+ nl) = Some K);
    [| now apply (Hlen (length K))].
  clear K. induction n as [|n IH]; intros K Hn w Hw.
  { destruct K; [reflexivity | simpl in Hn; lia]. }
  destruct K as [|a [|b [|c rest]]]; [reflexivity | | |].
  - (* one byte *)
    pose proof (byte_val_range a) as Ha.
    simpl base64_encode_raw. rewrite !append_cons, append_nil_l.
    match goal with
    | |- decode_from _ (String (ENCODE ?x1) (String (ENCODE ?x2) ?r)) = _ =>
        destruct (decode_pair w x1 x2 a r Hw) as (w2 & Hw2 & Hlow & ->)
    end.
    { rewrite index_1, index_2_tail by lia. div_mod. }
    rewrite index_2_tail in Hlow by lia.
    unfold ctx_at.
    rewrite (decode_end w2 4 0), (decode_end w2 (4 - 2) (0 + 1)), decode_nl;
      try lia; [reflexivity | |];
      change (2 ^ (4 - 2)) with 4 || change (2 ^ 4) with 16; div_mod.
  - (* two bytes *)
    pose proof (byte_val_range a) as Ha. pose proof (byte_val_range b) as Hb.
    simpl base64_encode_raw. rewrite !append_cons, append_nil_l.
    match goal with
    | |- decode_from _ (String (ENCODE ?x1) (String (ENCODE ?x2) ?r)) = _ =>
        destruct (decode_pair w x1 x2 a r Hw) as (w2 & Hw2 & Hlow2 & ->)
    end.
    { rewrite index_1, index_2 by lia. div_mod. }
    rewrite index_2 in Hlow2 by lia.
    match goal with
    | |- context [decode_from _ (String (ENCODE ?x) ?r)] =>
        destruct (decode_next w2 4 x b r Hw2) as (w3 & Hw3 & Hlow3 & ->)
    end; [lia | |].
    { rewrite index_3_tail by lia.
      change (2 ^ (8 - 4)) with 16. change (2 ^ (4 - 2)) with 4.
      change (2 ^ 4) with 16. div_mod. }
    rewrite index_3_tail in Hlow3 by lia.
    unfold ctx_at.
    rewrite (decode_end w3 (4 - 2) 0), decode_nl; try lia; [reflexivity |].
    change (2 ^ (4 - 2)) with 4. div_mod.
  - (* a group of three *)
    pose proof (byte_val_range a) as Ha. pose proof (byte_val_range b) as Hb.
    pose proof (byte_val_range c) as Hc.
    simpl base64_encode_raw. rewrite !append_cons.
    match goal with
    | |- decode_from _ (String (ENCODE ?x1) (String (ENCODE ?x2) ?r)) = _ =>
        destruct (decode_pair w x1 x2 a r Hw) as (w2 & Hw2 & Hlow2 & ->)
    end.
    { rewrite index_1, index_2 by lia. div_mod. }
    rewrite index_2 in Hlow2 by lia.
    match goal with
    | |- context [decode_from _ (String (ENCODE ?x) ?r)] =>
        destruct (decode_next w2 4 x b r Hw2) as (w3 & Hw3 & Hlow3 & ->)
    end; [lia | |].
    { rewrite index_3 by lia.
      change (2 ^ (8 - 4)) with 16. change (2 ^ (4 - 2)) with 4.
      change (2 ^ 4) with 16. div_mod. }
    rewrite index_3 in Hlow3 by lia.
    match goal with
    | |- context [decode_from _ (String (ENCODE ?x) ?r)] =>
        destruct (decode_next w3 (4 - 2) x c r Hw3) as (w4 & Hw4 & _ & ->)
    end; [lia | |].
    { rewrite index_4 by lia.
      change (2 ^ (8 - (4 - 2))) with 64. change (2 ^ (4 - 2 - 2)) with 1.
      change (2 ^ (4 - 2)) with 4. div_mod. }
    change (4 - 2 - 2) with 0.
    rewrite (IH rest) by (simpl in Hn; lia || exact Hw4). reflexivity.
Qed.

Lemma encode_plain (K : list byte) : plain (base64_encode_raw K) = true.
Proof.
  assert (Hlen : forall n K, (length K <= n)%nat ->
    plain (base64_encode_raw K) = true);
    [| now apply (Hlen (length K))].
  assert (Hc : forall x s, plain (String (ENCODE x) s) = plain s).
  { intros x s. destruct (ENCODE_spec x) as [_ Hp].
    change (String (ENCODE x) s) with (String (ENCODE x) EmptyString +:+ s).
    now rewrite plain_append, Hp. }
  clear K. induction n as [|n IH]; intros K Hn.
  { destruct K; [reflexivity | simpl in Hn; lia]. }
  destruct K as [|a [|b [|c rest]]]; [reflexivity | | |];
    simpl base64_encode_raw; rewrite !Hc; [reflexivity | reflexivity |].
  apply IH. simpl in Hn. lia.
Qed.

Lemma encode_length (K : list byte) :
  (3 * String.length (base64_encode_raw K) <= 4 * (length K + 2))%nat.
Proof.
  assert (Hlen : forall n K, (length K <= n)%nat ->
    (3 * String.length (base64_encode_raw K) <= 4 * (length K + 2))%nat);
    [| now apply (Hlen (length K))].
  clear K. induction n as [|n IH]; intros K Hn.
  { destruct K; [simpl; lia | simpl in Hn; lia]. }
  destruct K as [|a [|b [|c rest]]]; [simpl; lia | simpl; lia | simpl; lia |].
  simpl base64_encode_raw. simpl String.length. simpl length.
  specialize (IH rest). simpl in Hn. lia.
Qed.

End NettleFacts.

(** With the codec of nettle, every key of at most 3069 bytes can be held
    in a record. *)
Lemma nettle_storable (E : environment) (K : list byte) :
  base64_encode_raw E = Nettle.base64_encode_raw ->
  base64_decode_update E = Nettle.base64_decode_update ->
  (length K <= 3069)%nat ->
  storable E K = true.
Proof.
  intros Henc Hdec Hlen. unfold storable. rewrite Henc, Hdec.
  rewrite (c_str_plain _ (NettleFacts.encode_plain K)).
  rewrite NettleFacts.encode_plain.
  pose proof (NettleFacts.encode_length K) as Hl.
  assert (Hfit : (N.of_nat (String.length (Nettle.base64_encode_raw K))
                  <? 4095)%N = true) by (apply N.ltb_lt; lia).
  rewrite Hfit. unfold Nettle.base64_decode_update.
  change Nettle.base64_decode_init with (Nettle.ctx_at 0 0).
  rewrite NettleFacts.decode_encode by lia.
  now rewrite Nat.eqb_refl, memcmp_refl.
Qed.

(** ** The public-key store *)

Section TrustStore.

Variable E : environment.

Lemma storable_inv (K : list byte) :
  storable E K = true ->
  let line := c_str (base64_encode_raw E K) in
  plain line = true /\ (N.of_nat (String.length line) + 1 < 4096)%N /\
  base64_decode_update E (line +:+ nl) = Some K.
Proof.
  unfold storable. intros H.
  apply andb_prop in H as [H Hdec]. apply andb_prop in H as [Hp Hl].
  apply N.ltb_lt in Hl. repeat split; [exact Hp | lia |].
  destruct (base64_decode_update E _) as [decoded|]; [| discriminate].
  apply andb_prop in Hdec as [Hlen Hcmp].
  apply Nat.eqb_eq in Hlen. apply Z.eqb_eq in Hcmp.
  now rewrite (memcmp_eq _ _ Hlen Hcmp).
Qed.

(** Reading a record back: both lines are found, and the second one
    decodes to the key that was written. *)
Lemma read_trust_record (exp : Z) (K : list byte) :
  storable E K = true -> time_t_range exp ->
  exists first buf,
    fgets 4096 (trust_record E exp K) = Some (first, buf) /\
    fgets 4096 buf = Some (buf, EmptyString) /\
    base64_decode_update E (c_str buf) = Some K.
Proof.
  intros Hs Hexp. apply storable_inv in Hs as (Hp & Hl & Hdec).
  exists (print_ld exp +:+ nl), (c_str (base64_encode_raw E K) +:+ nl).
  unfold trust_record. repeat split.
  - apply fgets_plain; [apply print_ld_plain |].
    pose proof (print_ld_length exp Hexp). lia.
  - rewrite <- (append_nil_r nl) at 1. now rewrite fgets_plain.
  - now rewrite c_str_line.
Qed.

(** [cert_tdb_verify] on a stored record compares the keys and leaves
    everything as it was. *)
Lemma cert_tdb_verify_record (home X : string) (exp : Z) (K K' : list byte)
    (st : state) :
  files st !! record_file E home X = Some (trust_record E exp K) ->
  storable E K = true -> time_t_range exp ->
  cert_tdb_verify E (certcache_dir home) X K' st =
    (if decide (K' = K) then GNUTLS_E_SUCCESS
     else GNUTLS_E_CERTIFICATE_KEY_MISMATCH, st).
Proof.
  intros Hfile Hs Hexp.
  destruct (read_trust_record exp K Hs Hexp) as (first & buf & H1 & H2 & H3).
  unfold record_file in Hfile. unfold cert_tdb_verify.
  rewrite Hfile, H1, H2, H3.
  destruct (decide (K' = K)) as [-> | Hne].
  - rewrite Nat.eqb_refl, memcmp_refl. reflexivity.
  - destruct (length K' =? length K)%nat eqn:Hlen; [| reflexivity].
    destruct (memcmp K' K (length K') =? 0) eqn:Hcmp; [| reflexivity].
    apply Nat.eqb_eq in Hlen. apply Z.eqb_eq in Hcmp.
    now destruct Hne; apply memcmp_eq.
Qed.

(** A clean store succeeds and writes the record of the key. *)
Lemma cert_tdb_store_clean (home X : string) (exp : Z) (K : list byte)
    (st : state) :
  clean_store E home X K ->
  cert_tdb_store E (certcache_dir home) X exp K st =
    (Return GNUTLS_E_SUCCESS,
     set_files (<[record_file E home X := trust_record E exp K]> (files st))
       st).
Proof.
  intros Hclean. destruct (Hclean (trace st)) as [Hopen Hprint].
  unfold cert_tdb_store. unfold record_file in Hopen. rewrite Hopen, Hprint.
  unfold printed_b64 in Hprint.
  destruct (BASE64_ENCODE_RAW_LENGTH 4096 <? _)%N; [discriminate |].
  reflexivity.
Qed.

(** What a clean [cert_tdb_store] leaves behind. *)
Lemma cert_tdb_store_record (home X : string) (exp : Z) (K : list byte)
    (st : state) :
  clean_store E home X K ->
  let st' := (cert_tdb_store E (certcache_dir home) X exp K st).2 in
  files st' !! record_file E home X = Some (trust_record E exp K) /\
  trace st' = trace st.
Proof.
  intros Hclean. rewrite (cert_tdb_store_clean home X exp K st Hclean).
  split; [apply lookup_insert_eq | reflexivity].
Qed.

(** With HOME set, the cache root in place and an identity in the
    certificate, [check_cert] is [check_name]. *)
Lemma check_cert_identity (home X : string) (sess : session) (cert : x509_crt)
    (st : state) :
  getenv_HOME E = Some home ->
  cache_root_is_dir E home ->
  peer_identity sess = Some (cert, X) ->
  check_cert E sess st = check_name E (certcache_dir home) X cert st.
Proof.
  intros Hhome Hdir Hid. unfold check_cert, certcache_check.
  rewrite Hhome, Hdir. simpl negb. cbv iota.
  unfold peer_identity in Hid. unfold check_peer.
  destruct (certificate_type sess =? GNUTLS_CRT_X509); [| discriminate].
  destruct (certificate_peers sess) as [|c ?]; [discriminate |].
  destruct (0 <? crt_dn_size c); [| discriminate].
  destruct (strstr _ _) as [found|]; [| discriminate].
  destruct (strlen _ =? 0)%nat; [discriminate |].
  injection Hid as ? ?. now subst.
Qed.

(** A known identity presenting the stored key is trusted: no prompt, and
    nothing changes. *)
Lemma check_name_trusted (home X : string) (cert : x509_crt) (exp : Z)
    (K : list byte) (st : state) :
  crt_raw_pubkey cert = Some K ->
  files st !! record_file E home X = Some (trust_record E exp K) ->
  storable E K = true -> time_t_range exp ->
  check_name E (certcache_dir home) X cert st = (Return 0, st).
Proof.
  intros Hk Hfile Hs Hexp.
  unfold check_name, gnutls_verify_stored_pubkey. rewrite Hk.
  rewrite (cert_tdb_verify_record home X exp K K st Hfile Hs Hexp).
  rewrite decide_True by reflexivity. reflexivity.
Qed.

(** A known identity presenting another key: the user is asked, once, and
    the answer decides. *)
Lemma check_name_mismatch (home X : string) (cert : x509_crt) (exp : Z)
    (K K2 : list byte) (st : state) :
  crt_raw_pubkey cert = Some K2 -> K2 <> K ->
  files st !! record_file E home X = Some (trust_record E exp K) ->
  storable E K = true -> time_t_range exp ->
  message_fits (mismatch_message X cert) = true ->
  let message := mismatch_message X cert in
  let response := util_dialog_choice E (trace st) message in
  let asked := emit (EvDialog message response) st in
  check_name E (certcache_dir home) X cert st =
    match response with
    | None => (Fault, asked)
    | Some r =>
        if strcmp0 r "no" then (Return 1, asked)
        else stored (cert_tdb_store E (certcache_dir home) X
                       (crt_expiration_time cert) K2 asked)
    end.
Proof.
  intros Hk Hne Hfile Hs Hexp Hfits.
  unfold check_name, gnutls_verify_stored_pubkey. rewrite Hk.
  rewrite (cert_tdb_verify_record home X exp K K2 st Hfile Hs Hexp).
  rewrite decide_False by assumption.
  change (GNUTLS_E_CERTIFICATE_KEY_MISMATCH <? 0) with true.
  change (GNUTLS_E_CERTIFICATE_KEY_MISMATCH =? GNUTLS_E_CERTIFICATE_KEY_MISMATCH)
    with true.
  change (GNUTLS_E_CERTIFICATE_KEY_MISMATCH =? GNUTLS_E_NO_CERTIFICATE_FOUND)
    with false.
  cbv beta iota zeta. simpl negb. simpl andb. cbv iota.
  change (GNUTLS_E_CERTIFICATE_KEY_MISMATCH =? GNUTLS_E_NO_CERTIFICATE_FOUND)
    with false.
  change (GNUTLS_E_CERTIFICATE_KEY_MISMATCH =? GNUTLS_E_CERTIFICATE_KEY_MISMATCH)
    with true.
  cbv iota. rewrite Hfits. simpl negb. cbv iota.
  destruct (util_dialog_choice E (trace st) (mismatch_message X cert))
    as [r|]; [| reflexivity].
  destruct (strcmp0 r "no"); [reflexivity |].
  unfold gnutls_store_pubkey. rewrite Hk. reflexivity.
Qed.

(** An identity without a record: the key is stored, without a prompt. *)
Lemma check_name_unknown (home X : string) (cert : x509_crt) (K : list byte)
    (st : state) :
  crt_raw_pubkey cert = Some K ->
  files st !! record_file E home X = None ->
  check_name E (certcache_dir home) X cert st =
    stored (cert_tdb_store E (certcache_dir home) X (crt_expiration_time cert)
              K (unlink (record_file E home X) st)).
Proof.
  intros Hk Hfile.
  unfold check_name, gnutls_verify_stored_pubkey. rewrite Hk.
  unfold record_file in *. unfold cert_tdb_verify. rewrite Hfile.
  unfold gnutls_store_pubkey. rewrite Hk. reflexivity.
Qed.

End TrustStore.

(** The round trip of trust on first use, for stores that go well.  Once
    a record for identity [X] with key [K] is stored, a session that
    presents [K] for [X] is trusted without a prompt and without any
    change.  A session that presents another key [K2] for [X] is a
    mismatch and the user is asked exactly once.  On the answer "yes" the
    record is overwritten with [K2], so that the same session is trusted
    afterwards; on the answer "no" the files stay as they were, [K] is
    still the trusted key, and [check_cert] returns 1. *)
Lemma round_trip_of_clean_stores (E : environment) (home X : string)
    (sess sess2 : session) (cert cert2 : x509_crt) (K K2 : list byte)
    (exp : Z) (st : state) :
  getenv_HOME E = Some home ->
  cache_root_is_dir E home ->
  peer_identity sess = Some (cert, X) -> crt_raw_pubkey cert = Some K ->
  peer_identity sess2 = Some (cert2, X) -> crt_raw_pubkey cert2 = Some K2 ->
  K2 <> K ->
  storable E K = true -> storable E K2 = true ->
  clean_store E home X K -> clean_store E home X K2 ->
  message_fits (mismatch_message X cert2) = true ->
  time_t_range exp -> time_t_range (crt_expiration_time cert2) ->
  let st1 := (cert_tdb_store E (certcache_dir home) X exp K st).2 in
  let message := mismatch_message X cert2 in
  let response := util_dialog_choice E (trace st1) message in
  let r2 := (check_cert E sess2 st1).1 in
  let st2 := (check_cert E sess2 st1).2 in
  check_cert E sess st1 = (Return 0, st1) /\
  cert_tdb_verify E (certcache_dir home) X K2 st1 =
    (GNUTLS_E_CERTIFICATE_KEY_MISMATCH, st1) /\
  trace st2 = EvDialog message response :: trace st1 /\
  prompts (trace st2) = S (prompts (trace st1)) /\
  (response = Some "yes" ->
     r2 = Return 0 /\ check_cert E sess2 st2 = (Return 0, st2)) /\
  (response = Some "no" ->
     r2 = Return 1 /\ files st2 = files st1 /\
     check_cert E sess st2 = (Return 0, st2)).
Proof.
  intros Hhome Hdir Hid Hk Hid2 Hk2 Hne HsK HsK2 HcK HcK2 Hfits Hexp Hexp2
         st1 message response r2 st2.
  destruct (cert_tdb_store_record E home X exp K st HcK) as [Hfile Htrace].
  fold st1 in Hfile, Htrace.
  assert (Hsame : check_cert E sess st1 = (Return 0, st1)).
  { rewrite (check_cert_identity E home X sess cert) by assumption.
    now apply (check_name_trusted E home X cert exp K). }
  assert (Hverify : cert_tdb_verify E (certcache_dir home) X K2 st1 =
                    (GNUTLS_E_CERTIFICATE_KEY_MISMATCH, st1)).
  { rewrite (cert_tdb_verify_record E home X exp K K2 st1) by assumption.
    now rewrite decide_False. }
  assert (Hother : check_cert E sess2 st1 =
            match response with
            | None => (Fault, emit (EvDialog message response) st1)
            | Some r =>
                if strcmp0 r "no"
                then (Return 1, emit (EvDialog message response) st1)
                else (Return 0,
                      (cert_tdb_store E (certcache_dir home) X
                         (crt_expiration_time cert2) K2
                         (emit (EvDialog message response) st1)).2)
            end).
  { rewrite (check_cert_identity E home X sess2 cert2) by assumption.
    rewrite (check_name_mismatch E home X cert2 exp K K2) by assumption.
    fold message. fold response.
    destruct response as [r|]; [| reflexivity].
    destruct (strcmp0 r "no"); [reflexivity |].
    now rewrite (cert_tdb_store_clean E home X _ K2 _ HcK2). }
  assert (Htr2 : trace st2 = EvDialog message response :: trace st1).
  { unfold st2. rewrite Hother.
    destruct response as [r|]; [destruct (strcmp0 r "no") |];
      try reflexivity.
    now rewrite (cert_tdb_store_clean E home X _ K2 _ HcK2). }
  split; [exact Hsame |]. split; [exact Hverify |]. split; [exact Htr2 |].
  split; [now rewrite Htr2 |]. split; intros H.
  - split; [unfold r2; rewrite Hother, H; reflexivity |].
    unfold st2. rewrite Hother, H.
    change (strcmp0 "yes" "no") with false. cbv iota.
    rewrite (check_cert_identity E home X sess2 cert2) by assumption.
    apply (check_name_trusted E home X cert2 (crt_expiration_time cert2) K2);
      try assumption.
    now apply cert_tdb_store_record.
  - split; [unfold r2; rewrite Hother, H; reflexivity |].
    split; [unfold st2; rewrite Hother, H; reflexivity |].
    unfold st2. rewrite Hother, H.
    change (strcmp0 "no" "no") with true. cbv iota.
    rewrite (check_cert_identity E home X sess cert) by assumption.
    now apply (check_name_trusted E home X cert exp K).
Qed.

(** C1.  Trust on first use, round trip: what the code does where the
    claim fails.  [cert_tdb_store] prints [b64] with ["%s"], and
    [base64_encode_raw] has written no NUL behind the encoding.  Here the
    record of identity [X] holds the six-byte key [K], whose encoding
    ["QUFBQUFB"] the stack still holds where [b64] is.  The session that
    presents [K] is trusted without a prompt.  The session that presents
    the three-byte key [K2] is a mismatch, the user is asked once and
    answers "yes", and [check_cert] returns 0.  The record then written
    holds the encoding of [K2] and, behind it, the rest of the encoding of
    [K]: verifying [X] with [K2] afterwards is a mismatch again, not
    trusted, and the user is asked a second time. *)
Theorem stale_buffer_breaks_the_round_trip :
  let K := [x41; x41; x41; x41; x41; x41] in
  let K2 := [x45; x46; x47] in
  let X := "server.example.com" in
  let dir := certcache_dir "/home/user" in
  let sess := x509_peer X K 1700000000 in
  let sess2 := x509_peer X K2 1800000000 in
  let E := store_env (StatMode true) true true (left_behind "QUFBQUFB")
             (Some "yes") sess2 in
  let st1 := (cert_tdb_store E dir X 1700000000 K initial_state).2 in
  let st2 := (check_cert E sess2 st1).2 in
  files st1 !! record_file E "/home/user" X =
    Some (trust_record E 1700000000 K) /\
  check_cert E sess st1 = (Return 0, st1) /\
  (check_cert E sess2 st1).1 = Return 0 /\
  prompts (trace st2) = 1%nat /\
  files st2 !! record_file E "/home/user" X =
    Some ("1800000000" +:+ nl +:+ "RUZHQUFB" +:+ nl) /\
  files st2 !! record_file E "/home/user" X <>
    Some (trust_record E 1800000000 K2) /\
  cert_tdb_verify E dir X K2 st2 = (GNUTLS_E_CERTIFICATE_KEY_MISMATCH, st2) /\
  check_cert E sess2 st2 <> (Return 0, st2) /\
  prompts (trace (check_cert E sess2 st2).2) = 2%nat.
Proof.
  cbv zeta.
  split; [vm_compute; reflexivity |]. split; [vm_compute; reflexivity |].
  split; [vm_compute; reflexivity |]. split; [vm_compute; reflexivity |].
  split; [vm_compute; reflexivity |]. split; [vm_compute; discriminate |].
  split; [vm_compute; reflexivity |]. split; [vm_compute; discriminate |].
  vm_compute; reflexivity.
Qed.

(** *** Records that cannot be read *)

Section CorruptRecords.

Variable E : environment.

(** No file, an empty file, a file of one line: "no certificate found",
    and the file is gone afterwards. *)
Lemma cert_tdb_verify_missing (db X : string) (K : list byte) (st : state) :
  let file := cert_store_cache_filename E db X 4096 in
  files st !! file = None ->
  cert_tdb_verify E db X K st = (GNUTLS_E_NO_CERTIFICATE_FOUND, unlink file st).
Proof.
  intros file Hfile. subst file. unfold cert_tdb_verify.
  rewrite Hfile. reflexivity.
Qed.

Lemma cert_tdb_verify_no_expiration_line (db X : string) (K : list byte)
    (st : state) :
  let file := cert_store_cache_filename E db X 4096 in
  files st !! file = Some EmptyString ->
  cert_tdb_verify E db X K st = (GNUTLS_E_NO_CERTIFICATE_FOUND, unlink file st).
Proof.
  intros file Hfile. subst file. unfold cert_tdb_verify.
  rewrite Hfile. reflexivity.
Qed.

Lemma cert_tdb_verify_no_key_line (db X : string) (K : list byte)
    (first : string) (st : state) :
  let file := cert_store_cache_filename E db X 4096 in
  plain first = true -> (N.of_nat (String.length first) + 1 < 4096)%N ->
  files st !! file = Some (first +:+ nl) ->
  cert_tdb_verify E db X K st = (GNUTLS_E_NO_CERTIFICATE_FOUND, unlink file st).
Proof.
  intros file Hp Hl Hfile. subst file. unfold cert_tdb_verify. rewrite Hfile.
  rewrite <- (append_nil_r nl). now rewrite fgets_plain.
Qed.

(** A key line that does not decode: the file is removed as well, but the
    answer is "key mismatch". *)
Lemma cert_tdb_verify_undecodable (db X : string) (K : list byte)
    (first line : string) (st : state) :
  let file := cert_store_cache_filename E db X 4096 in
  plain first = true -> (N.of_nat (String.length first) + 1 < 4096)%N ->
  plain line = true -> (N.of_nat (String.length line) + 1 < 4096)%N ->
  base64_decode_update E (line +:+ nl) = None ->
  files st !! file = Some (first +:+ nl +:+ line +:+ nl) ->
  cert_tdb_verify E db X K st =
    (GNUTLS_E_CERTIFICATE_KEY_MISMATCH, unlink file st).
Proof.
  intros file Hp Hl Hp2 Hl2 Hdec Hfile. subst file. unfold cert_tdb_verify.
  rewrite Hfile, fgets_plain by assumption.
  rewrite <- (append_nil_r nl) at 1. rewrite fgets_plain by assumption.
  now rewrite c_str_line, Hdec.
Qed.

End CorruptRecords.

(** C2.  A record whose key line does not decode is not treated like a
    missing file: [cert_tdb_verify] removes the file, as it does for a
    missing or truncated one, but answers "key mismatch" where those answer
    "no certificate found", and [check_cert] goes on to ask the user. *)
Theorem undecodable_key_line_is_mismatch :
  let K := [x41; x42; x43; x44] in
  let X := "server.example.com" in
  let E := scripted_env true (StatMode true) (Some "no")
             (x509_peer X K 1700000000) send_all recv_nothing 0 in
  let db := certcache_dir "/home/user" in
  let file := record_file E "/home/user" X in
  let corrupt :=
    set_files {[ file := "1700000000" +:+ nl +:+ "!!!!" +:+ nl ]}
      initial_state in
  let truncated :=
    set_files {[ file := "1700000000" +:+ nl ]} initial_state in
  cert_tdb_verify E db X K initial_state =
    (GNUTLS_E_NO_CERTIFICATE_FOUND, unlink file initial_state) /\
  cert_tdb_verify E db X K truncated =
    (GNUTLS_E_NO_CERTIFICATE_FOUND, unlink file truncated) /\
  cert_tdb_verify E db X K corrupt =
    (GNUTLS_E_CERTIFICATE_KEY_MISMATCH, unlink file corrupt) /\
  files (unlink file corrupt) !! file = None /\
  prompts (trace (check_cert E (gnutls_session E) corrupt).2) = 1%nat.
Proof.
  intros K X E db file corrupt truncated.
  split; [apply cert_tdb_verify_missing; reflexivity |].
  split.
  { apply (cert_tdb_verify_no_key_line E db X K "1700000000");
      [reflexivity | simpl; lia | apply lookup_singleton_eq]. }
  assert (Hc : cert_tdb_verify E db X K corrupt =
               (GNUTLS_E_CERTIFICATE_KEY_MISMATCH, unlink file corrupt)).
  { apply (cert_tdb_verify_undecodable E db X K "1700000000" "!!!!");
      [reflexivity | simpl; lia | reflexivity | simpl; lia | reflexivity
      | apply lookup_singleton_eq]. }
  split; [exact Hc |].
  split; [apply lookup_delete_eq |].
  rewrite (check_cert_identity E "/home/user" X (gnutls_session E)
             (x509_peer_cert X K 1700000000) corrupt);
    [| reflexivity | intros t; reflexivity | reflexivity].
  unfold check_name, gnutls_verify_stored_pubkey.
  change (crt_raw_pubkey (x509_peer_cert X K 1700000000)) with (Some K).
  cbv iota. subst db. rewrite Hc. reflexivity.
Qed.

(** C8.  The answer "no" ends [check_cert] with 1 and leaves the record
    alone.  No answer (NULL) does not get that far: [strcmp] reads the
    answer before [response == NULL] is tested. *)
Theorem no_answer_is_read_before_tested :
  let K := [x41; x42; x43; x44] in
  let K2 := [x45; x46; x47; x48] in
  let X := "server.example.com" in
  let sess2 := x509_peer X K2 1800000000 in
  let E answer :=
    scripted_env true (StatMode true) answer sess2 send_all recv_nothing 0 in
  let st1 :=
    (cert_tdb_store (E None) (certcache_dir "/home/user") X 1700000000 K
       initial_state).2 in
  check_cert (E (Some "no")) sess2 st1 =
    (Return 1,
     emit (EvDialog (mismatch_message X (x509_peer_cert X K2 1800000000))
             (Some "no")) st1) /\
  check_cert (E None) sess2 st1 =
    (Fault,
     emit (EvDialog (mismatch_message X (x509_peer_cert X K2 1800000000))
             None) st1).
Proof.
  intros K K2 X sess2 E st1.
  assert (Hrun : forall answer,
    check_cert (E answer) sess2 st1 =
    check_name (E answer) (certcache_dir "/home/user") X
      (x509_peer_cert X K2 1800000000) st1).
  { intros answer. apply check_cert_identity;
      [reflexivity | intros t; reflexivity | reflexivity]. }
  assert (Hfile : forall answer,
    files st1 !! record_file (E answer) "/home/user" X =
    Some (trust_record (E answer) 1700000000 K)).
  { intros answer.
    apply (cert_tdb_store_record (E None) "/home/user" X 1700000000 K).
    intros t. split; [reflexivity | vm_compute; reflexivity]. }
  split; rewrite Hrun;
    rewrite (check_name_mismatch _ "/home/user" X _ 1700000000 K K2 st1);
    try reflexivity; try apply Hfile; try discriminate;
    try (vm_compute; reflexivity);
    unfold time_t_range; lia.
Qed.

(** *** What [check_cert] leaves alone *)

Ltac case_split :=
  repeat match goal with
         | |- context [match ?x with _ => _ end] => destruct x eqn:?
         end.

Lemma cert_tdb_verify_frame (E : environment) (db X : string)
    (K : list byte) (st : state) :
  let st' := (cert_tdb_verify E db X K st).2 in
  g_ssl_initialized st' = g_ssl_initialized st /\
  g_network_error st' = g_network_error st /\
  trace st' = trace st.
Proof. unfold cert_tdb_verify. case_split; simpl; auto. Qed.

Lemma check_name_frame (E : environment) (db X : string) (cert : x509_crt)
    (st : state) :
  let st' := (check_name E db X cert st).2 in
  g_ssl_initialized st' = g_ssl_initialized st /\
  g_network_error st' = g_network_error st /\
  teardowns (trace st') = teardowns (trace st).
Proof.
  unfold check_name, gnutls_verify_stored_pubkey, gnutls_store_pubkey,
    cert_tdb_store.
  destruct (crt_raw_pubkey cert) as [K|].
  - pose proof (cert_tdb_verify_frame E db X K st) as (H1 & H2 & H3).
    destruct (cert_tdb_verify E db X K st) as [rv st1]. simpl in H1, H2, H3.
    case_split; simpl; rewrite ?H3; auto.
  - case_split; simpl; auto.
Qed.

Lemma check_cert_frame (E : environment) (sess : session) (st : state) :
  let st' := (check_cert E sess st).2 in
  g_ssl_initialized st' = g_ssl_initialized st /\
  g_network_error st' = g_network_error st /\
  teardowns (trace st') = teardowns (trace st).
Proof.
  unfold check_cert, certcache_check, check_peer.
  destruct (getenv_HOME E) as [home|]; [| simpl; auto].
  destruct (os_stat E (trace st) (certcache_dir home)) as [| |is_dir];
    cbv beta iota zeta;
    repeat match goal with
           | |- context [if ?b then _ else _] =>
               destruct b; cbv beta iota zeta
           | |- context [match certificate_peers sess with _ => _ end] =>
               destruct (certificate_peers sess); cbv beta iota zeta
           | |- context [match strstr ?a ?b with _ => _ end] =>
               destruct (strstr a b); cbv beta iota zeta
           end;
    first [ apply (check_name_frame E _ _ _ st)
          | apply (check_name_frame E _ _ _ (emit EvMkdirCertcache st))
          | simpl; auto ].
Qed.

(** C9 does not hold as stated.  A peer whose certificate type is not
    X.509 and whose certificate list is empty fails the check all the same
    when the cache root is in the way: here it is not there ([stat] fails
    with ENOENT) and cannot be made ([rd_certcache_mkdir] returns False),
    and [check_cert] returns 1. *)
Lemma nonx509_peer_bails_on_cache_root :
  let sess := {| certificate_type := 2; certificate_peers := [] |} in
  let E := store_env StatENOENT false true (fun _ => Some EmptyString) None
             sess in
  (check_cert E sess initial_state).1 = Return 1 /\
  os_stat E [] (certcache_dir "/home/user") = StatENOENT /\
  rd_certcache_mkdir E = false.
Proof. split; [reflexivity | split; reflexivity]. Qed.

(** C9, amended.  When the cache root does not end the check, a peer whose
    certificate type is not X.509, or whose certificate list is empty,
    passes it with 0: whatever the files of the store hold, they are left
    as they are and the user is not asked. *)
Theorem check_cert_without_chain (E : environment) (sess : session)
    (st : state) :
  certificate_type sess <> GNUTLS_CRT_X509 \/ certificate_peers sess = [] ->
  cache_root_passes E st = true ->
  (forall f, (check_cert E sess (set_files f st)).1 = Return 0) /\
  (check_cert E sess st).1 = Return 0 /\
  files (check_cert E sess st).2 = files st /\
  prompts (trace (check_cert E sess st).2) = prompts (trace st).
Proof.
  intros Hpeer Hroot.
  assert (Hgen : forall f,
    (check_cert E sess (set_files f st)).1 = Return 0 /\
    files (check_cert E sess (set_files f st)).2 = f /\
    prompts (trace (check_cert E sess (set_files f st)).2) =
      prompts (trace st)).
  { intros f. unfold cache_root_passes in Hroot.
    unfold check_cert, certcache_check in *.
    destruct (getenv_HOME E) as [home|]; [| simpl; auto].
    change (trace (set_files f st)) with (trace st).
    destruct (os_stat E (trace st) (certcache_dir home)) as [| |is_dir];
      simpl in Hroot; try rewrite Hroot; cbv beta iota zeta; simpl negb;
      cbv iota;
      (destruct Hpeer as [Hty | Hnil];
       [apply Z.eqb_neq in Hty; rewrite Hty; simpl; auto
       | rewrite Hnil; destruct (_ =? _); simpl; auto]). }
  split; [intros f; apply Hgen |].
  destruct (Hgen (files st)) as (H1 & H2 & H3).
  assert (Hst : set_files (files st) st = st) by (destruct st; reflexivity).
  rewrite Hst in H1, H2, H3. auto.
Qed.

Lemma check_cert_without_chain_witness :
  let sess := {| certificate_type := 2; certificate_peers := [] |} in
  let E := scripted_env true StatENOENT None sess send_all recv_nothing 0 in
  (check_cert E sess initial_state).1 = Return 0.
Proof.
  intros sess E.
  apply (check_cert_without_chain E sess initial_state).
  - left. discriminate.
  - reflexivity.
Defined.

(** ** The TLS upgrade *)

Lemma tls_setup_frame (E : environment) (st st0 : state) :
  tls_setup E st = Some st0 ->
  g_ssl_initialized st0 = true /\
  g_network_error st0 = g_network_error st /\
  teardowns (trace st0) = teardowns (trace st).
Proof.
  unfold tls_setup. destruct (g_ssl_initialized st) eqn:Hinit.
  - destruct (_ || _); [discriminate |]. intros [= <-]. auto.
  - destruct (gnutls_init E <? 0); [discriminate |].
    destruct (_ || _); [discriminate |]. intros [= <-]. auto.
Qed.

Lemma handshake_loop_frame (fuel : nat) (E : environment) (st st1 : state)
    (err : Z) :
  handshake_loop fuel E st = Some (err, st1) ->
  g_ssl_initialized st1 = g_ssl_initialized st /\
  g_network_error st1 = g_network_error st /\
  teardowns (trace st1) = teardowns (trace st).
Proof.
  revert st. induction fuel as [|fuel IH]; intros st; [discriminate |].
  simpl. destruct (_ && _).
  - intros H. apply IH in H as (H1 & H2 & H3). auto.
  - intros [= <- <-]. auto.
Qed.

(** C3 does not hold as stated.  The handshake succeeds and the trust
    check fails (the distinguished name of the certificate has no
    ["CN="]): [tcp_tls_connect] does not return [False] after tearing the
    session down; it calls [exit(1)] with the session still initialised. *)
Lemma failed_trust_check_does_not_return :
  let cert :=
    {| crt_dn_size := 5; crt_dn := "O=Org"; crt_raw_pubkey := Some [x41];
       crt_expiration_time := 1700000000; crt_print_rv := 0;
       crt_print_info := "subject `O=Org', RSA key" |} in
  let sess :=
    {| certificate_type := GNUTLS_CRT_X509; certificate_peers := [cert] |} in
  let E := scripted_env true (StatMode true) None sess
             send_all recv_nothing 0 in
  (check_cert E sess initial_state).1 = Return 1 /\
  exists st',
    tcp_tls_connect 1 E initial_state = Some (Exit 1, st') /\
    g_ssl_initialized st' = true /\
    teardowns (trace st') = 0%nat.
Proof.
  split; [reflexivity |]. eexists.
  split; [reflexivity | split; reflexivity].
Qed.

(** C3, amended.  After a successful handshake, a failure of the trust
    check ends the whole process with [exit(1)]: [tcp_tls_connect] does not
    return to its caller, and the session is not torn down. *)
Theorem failed_trust_check_exits (fuel : nat) (E : environment)
    (st st0 st1 : state) (err rv : Z) :
  tls_setup E st = Some st0 ->
  handshake_loop fuel E st0 = Some (err, st1) ->
  0 <= err ->
  (check_cert E (gnutls_session E) st1).1 = Return rv ->
  rv <> 0 ->
  let st2 := (check_cert E (gnutls_session E) st1).2 in
  tcp_tls_connect fuel E st = Some (Exit 1, st2) /\
  g_ssl_initialized st2 = true /\
  teardowns (trace st2) = teardowns (trace st).
Proof.
  intros Hsetup Hloop Herr Hcheck Hrv st2.
  apply tls_setup_frame in Hsetup as Hs.
  apply handshake_loop_frame in Hloop as Hh.
  destruct (check_cert_frame E (gnutls_session E) st1) as (Hc1 & _ & Hc3).
  fold st2 in Hc1, Hc3.
  split; [| split].
  - unfold tcp_tls_connect. rewrite Hsetup, Hloop.
    apply Z.ltb_ge in Herr. rewrite Herr.
    subst st2. destruct (check_cert E (gnutls_session E) st1) as [r s2].
    simpl in Hcheck. subst r. apply Z.eqb_neq in Hrv. now rewrite Hrv.
  - destruct Hs as (Hs1 & _), Hh as (Hh1 & _). congruence.
  - destruct Hs as (_ & _ & Hs3), Hh as (_ & _ & Hh3). congruence.
Qed.

Lemma failed_trust_check_exits_witness :
  let cert :=
    {| crt_dn_size := 5; crt_dn := "O=Org"; crt_raw_pubkey := Some [x41];
       crt_expiration_time := 1700000000; crt_print_rv := 0;
       crt_print_info := "subject `O=Org', RSA key" |} in
  let sess :=
    {| certificate_type := GNUTLS_CRT_X509; certificate_peers := [cert] |} in
  let E := scripted_env true (StatMode true) None sess
             send_all recv_nothing 0 in
  exists st2, tcp_tls_connect 1 E initial_state = Some (Exit 1, st2).
Proof.
  intros cert sess E. eexists.
  apply (failed_trust_check_exits 1 E initial_state
           (set_ssl_initialized true (emit EvTlsInit initial_state))
           (emit (EvHandshake 0)
              (set_ssl_initialized true (emit EvTlsInit initial_state)))
           0 1).
  - reflexivity.
  - reflexivity.
  - lia.
  - reflexivity.
  - discriminate.
Defined.

(** ** The connectivity query *)

(** C10.  [tcp_is_connected] answers [True] exactly when [getpeername]
    fails (returns nonzero) and [False] when it succeeds: the negation of
    "the socket has a connected peer". *)
Theorem tcp_is_connected_negates_getpeername (E : environment) (st : state) :
  ((tcp_is_connected E st).1 = true <-> os_getpeername E (trace st) <> 0) /\
  ((tcp_is_connected E st).1 = false <-> os_getpeername E (trace st) = 0).
Proof.
  unfold tcp_is_connected.
  destruct (os_getpeername E (trace st) =? 0) eqn:Hrv; simpl.
  - apply Z.eqb_eq in Hrv. split; split; intros; try congruence; try lia.
  - apply Z.eqb_neq in Hrv. split; split; intros; try congruence; try lia.
Qed.

(** ** The send loop *)

Section Send.

Variable E : environment.
Variable data : list byte.

Local Abbreviation len := (Z.of_nat (length data)).

Lemma transmitted_app (new old : list event) :
  transmitted (new ++ old) = transmitted old ++ transmitted new.
Proof.
  induction new as [|e new IH]; simpl; [now rewrite app_nil_r |].
  destruct e; rewrite ?IH, ?app_assoc; reflexivity.
Qed.

Lemma send_window_drop (total : Z) :
  0 <= total -> send_window data len total = drop (Z.to_nat total) data.
Proof.
  intros Ht. unfold send_window.
  apply take_ge. rewrite length_drop. lia.
Qed.





End Send.




(** ** The receive loop *)

Section Recv.

Variable E : environment.

Lemma assign_frame (p : stream_ptr) (v : stream) (st : state) :
  let st' := (assign p v st).2 in
  g_network_error st' = g_network_error st /\
  g_exit_mainloop st' = g_exit_mainloop st /\
  g_ssl_initialized st' = g_ssl_initialized st /\
  g_run_ui st' = g_run_ui st /\
  trace st' = trace st.
Proof. destruct p; simpl; auto. Qed.

Lemma recv_prepare_frame (s : option stream_ptr) (length : Z) (st : state) :
  let st' := (recv_prepare s length st).2 in
  g_network_error st' = g_network_error st /\
  g_exit_mainloop st' = g_exit_mainloop st /\
  g_ssl_initialized st' = g_ssl_initialized st /\
  g_run_ui st' = g_run_ui st /\
  trace st' = trace st.
Proof.
  destruct s as [p|]; simpl; [| auto 6].
  destruct (_ <? _); [apply assign_frame | simpl; auto 6].
Qed.

Lemma recv_wait_frame (st : state) :
  let st' := (recv_wait E st).2 in
  g_network_error st' = g_network_error st /\
  g_ssl_initialized st' = g_ssl_initialized st /\
  ((recv_wait E st).1 = true -> g_exit_mainloop st' = true).
Proof.
  unfold recv_wait.
  destruct (g_ssl_initialized st) eqn:Hssl; simpl;
    destruct (_ && g_run_ui st) || destruct (g_run_ui st); simpl;
    rewrite ?Hssl; (split; [reflexivity | split; [reflexivity |]]);
    solve [trivial | discriminate].
Qed.

(** The read of a round ends [tcp_recv] with the flag set, or with the
    flag as it was after a read of no bytes from the socket; when the loop
    goes on, the flag is as it was. *)
Lemma recv_read_spec (s : stream_ptr) (length : Z) (st : state) :
  match recv_read E s length st with
  | RecvReturn st' =>
      g_network_error st' = true \/
      g_network_error st' = g_network_error st /\ zero_read (trace st')
  | RecvContinue _ _ st' => g_network_error st' = g_network_error st
  end.
Proof.
  unfold recv_read. destruct (g_ssl_initialized st).
  - destruct (gnutls_record_recv E (trace st) length) as [rcvd bytes].
    destruct (rcvd <? 0); [destruct (gnutls_error_is_fatal E rcvd) |];
      simpl; auto.
    match goal with
    | |- context [assign ?p ?v ?s0] =>
        pose proof (assign_frame p v s0) as (Hf & _);
        destruct (assign p v s0) as [p1 s1]
    end.
    exact Hf.
  - destruct (os_recv E (trace st) length) as [[rcvd blocks] bytes].
    destruct (rcvd <? 0); [destruct ((rcvd =? -1) && blocks) |];
      simpl; auto.
    destruct (rcvd =? 0) eqn:Hz.
    + apply Z.eqb_eq in Hz as ->. right. split; [reflexivity |].
      now exists length, (trace st).
    + match goal with
      | |- context [assign ?p ?v ?s0] =>
          pose proof (assign_frame p v s0) as (Hf & _);
          destruct (assign p v s0) as [p1 s1]
      end.
      exact Hf.
Qed.

Lemma tcp_recv_step_spec (s : stream_ptr) (length : Z) (st : state) :
  match tcp_recv_step E s length st with
  | RecvReturn st' =>
      g_network_error st' = true \/
      g_network_error st' = g_network_error st /\
      (zero_read (trace st') \/ g_exit_mainloop st' = true)
  | RecvContinue _ _ st' => g_network_error st' = g_network_error st
  end.
Proof.
  unfold tcp_recv_step.
  pose proof (recv_wait_frame st) as (Hflag & _ & Hquit).
  destruct (recv_wait E st) as [cancelled st1]. simpl in Hflag, Hquit.
  destruct cancelled; [right; auto |].
  pose proof (recv_read_spec s length st1) as Hread.
  destruct (recv_read E s length st1) as [s' length' st' | st'].
  - congruence.
  - destruct Hread as [Hset | [Hsame Hzero]]; [now left | right].
    split; [congruence | now left].
Qed.

(** A NULL from the loop: the flag is set, or the peer closed the plain
    socket, or leaving the main loop was requested. *)
Lemma tcp_recv_loop_null (fuel : nat) (s : stream_ptr) (length : Z)
    (st st' : state) :
  tcp_recv_loop fuel E s length st = Some (None, st') ->
  g_network_error st' = true \/
  g_network_error st' = g_network_error st /\
  (zero_read (trace st') \/ g_exit_mainloop st' = true).
Proof.
  revert s length st. induction fuel as [|fuel IH]; intros s length st;
    simpl; destruct (0 <? length); simpl; try discriminate.
  pose proof (tcp_recv_step_spec s length st) as Hstep.
  destruct (tcp_recv_step E s length st) as [s1 length1 st1 | st1].
  - intros Hloop. apply IH in Hloop as [Hset | [Hsame Hwhy]];
      [now left | right]. split; [congruence | exact Hwhy].
  - intros [= Heq]; subst st'. exact Hstep.
Qed.




End Recv.




(** ** The connection manager *)

Section Connect.

Variable E : environment.

Lemma c_str_idemp (s : string) : c_str (c_str s) = c_str s.
Proof.
  induction s as [|c s IH]; [reflexivity |].
  simpl. destruct (Ascii.eqb c NUL) eqn:Hc; [reflexivity |].
  simpl. now rewrite Hc, IH.
Qed.

(** The candidates loop touches the socket and the trace only, and does
    not resolve anything. *)
Lemma try_candidates_spec (addrs : list addrinfo) (st : state) :
  match try_candidates E addrs st with
  | CandidateConnected addr st' => In addr addrs /\ candidates_frame st st'
  | CandidatesExhausted st' => candidates_frame st st'
  | CandidateGetnameinfoFailed st' => candidates_frame st st'
  end.
Proof.
  revert st. induction addrs as [|addr rest IH]; intros st;
    [simpl; unfold candidates_frame; auto |].
  simpl. destruct (os_socket E (trace st) <? 0).
  - specialize (IH (set_sock (os_socket E (trace st))
                      (emit (EvSocket (os_socket E (trace st))) st))).
    unfold candidates_frame in *. simpl in IH.
    destruct (try_candidates E rest _); intuition.
  - destruct (negb _); [unfold candidates_frame; simpl; auto |].
    destruct (_ =? 0); [unfold candidates_frame; simpl; auto |].
    match goal with
    | |- context [try_candidates E rest ?s0] => specialize (IH s0)
    end.
    unfold candidates_frame in *. simpl in IH.
    destruct (try_candidates E rest _); intuition.
Qed.

Lemma tcp_connect_finish_spec (server : string) (st : state) :
  let r := tcp_connect_finish E server st in
  r.1 = Return true /\
  g_network_error r.2 = g_network_error st /\
  g_server_address r.2 = g_server_address st /\
  g_last_server_name r.2 = Some (c_str server) /\
  resolutions (trace r.2) = resolutions (trace st).
Proof.
  unfold tcp_connect_finish.
  destruct (os_getsockopt_rcvbuf E _) as [rv value].
  destruct (_ && _); simpl; auto 6.
Qed.

(** What a call of [tcp_connect] does to the flag, to the cache and to
    the count of resolutions. *)
Ltac cg := unfold resolutions in *; simpl in *; congruence.

Lemma tcp_connect_spec (server : string) (st : state) :
  let r := tcp_connect E server st in
  let resolve := tcp_connect_resolve_hostname server st in
  g_network_error r.2 = g_network_error st /\
  resolutions (trace r.2) =
    ((if resolve then 1 else 0) + resolutions (trace st))%nat /\
  (resolve = false -> g_server_address r.2 = g_server_address st) /\
  (r.1 = Return true ->
   g_last_server_name r.2 = Some (c_str server) /\
   exists a, g_server_address r.2 = Some a /\
     (resolve = true ->
      In a (resolved_candidates E (trace st) server (g_tcp_port_rdp st)))).
Proof.
  assert (Hfail : forall (b : bool) (P : Prop) (o : outcome bool) (st' : state),
    o <> Return true ->
    g_network_error st' = g_network_error st ->
    resolutions (trace st') =
      ((if b then 1 else 0) + resolutions (trace st))%nat ->
    (b = false -> g_server_address st' = g_server_address st) ->
    g_network_error (o, st').2 = g_network_error st /\
    resolutions (trace (o, st').2) =
      ((if b then 1 else 0) + resolutions (trace st))%nat /\
    (b = false -> g_server_address (o, st').2 = g_server_address st) /\
    ((o, st').1 = Return true -> P)).
  { intros b P o st' Ho H1 H2 H3. simpl. intuition. }
  unfold tcp_connect, resolved_candidates.
  destruct (IPv6 (env_build E)).
  - (* IPv6 *)
    unfold tcp_connect_ipv6.
    destruct (tcp_connect_resolve_hostname server st) eqn:Hres.
    + destruct (os_getaddrinfo E (trace st) server (g_tcp_port_rdp st))
        as [n res]. simpl fst; simpl snd; cbv beta iota zeta.
      destruct (n =? 0); cbv beta iota zeta; simpl negb; cbv iota;
        [| apply (Hfail true); [discriminate | reflexivity | reflexivity
                        | discriminate]].
      pose proof (try_candidates_spec res
                    (set_sock (-1) (emit (EvResolve server) st))) as Hc.
      destruct (try_candidates E res _) as [addr st1 | st1 | st1];
        unfold candidates_frame, resolutions in Hc; simpl in Hc.
      * destruct Hc as (Hin & H1 & H2 & H3 & H4).
        pose proof (tcp_connect_finish_spec server
                      (set_server_address
                         (Some (ServerAddrinfo (cached_addrinfo addr))) st1))
          as (F1 & F2 & F3 & F4 & F5).
        destruct (tcp_connect_finish E server _) as [r st2].
        unfold resolutions in *; simpl in *.
        split; [congruence |]. split; [congruence |].
        split; [discriminate |]. intros _. split; [exact F4 |].
        exists (ServerAddrinfo (cached_addrinfo addr)).
        split; [congruence |]. intros _.
        now apply (in_map (fun a => ServerAddrinfo (cached_addrinfo a))).
      * destruct Hc as (H1 & H2 & H3 & H4).
        destruct (g_sock st1 =? -1);
          (apply (Hfail true); [discriminate | cg | cg
                        | discriminate]).
      * destruct Hc as (H1 & H2 & H3 & H4).
        apply (Hfail true); [discriminate | cg | cg | discriminate].
    + assert (Hsome : exists a0, g_server_address st = Some a0).
      { unfold tcp_connect_resolve_hostname in Hres.
        destruct (g_server_address st); [eauto | discriminate]. }
      destruct Hsome as (a0 & Ha0). rewrite Ha0.
      destruct a0 as [a0' | a0']; cbv beta iota zeta;
        match goal with
        | |- context [try_candidates E ?l ?s0] =>
            pose proof (try_candidates_spec l s0) as Hc;
            destruct (try_candidates E l s0) as [addr st1 | st1 | st1]
        end; unfold candidates_frame, resolutions in Hc; simpl in Hc;
        try (destruct Hc as (H1 & H2 & H3 & H4);
             try destruct (g_sock st1 =? -1);
             rewrite <- Ha0;
             (apply (Hfail false); [discriminate | cg | cg | cg])).
      * destruct Hc as (Hin & H1 & H2 & H3 & H4).
        pose proof (tcp_connect_finish_spec server st1)
          as (F1 & F2 & F3 & F4 & F5).
        destruct (tcp_connect_finish E server st1) as [r st2].
        unfold resolutions in *; simpl in *.
        split; [congruence |]. split; [congruence |].
        split; [congruence |]. intros _. split; [exact F4 |].
        rewrite F3, H2, Ha0. eexists. split; [reflexivity | discriminate].
      * destruct Hc as ([] & _).
  - (* without IPv6 *)
    unfold tcp_connect_ipv4.
    destruct (tcp_connect_resolve_hostname server st) eqn:Hres.
    + set (a := resolved_sockaddr (g_tcp_port_rdp st)
                  match os_gethostbyname E (trace st) server with
                  | Some h_addr => h_addr
                  | None => inet_addr E server
                  end).
      assert (Htail : forall st0 : state,
        g_network_error st0 = g_network_error st ->
        g_server_address st0 = Some (ServerSockaddr a) ->
        resolutions (trace st0) = S (resolutions (trace st)) ->
        let r :=
          let fd := os_socket E (trace st0) in
          let st1 := set_sock fd (emit (EvSocket fd) st0) in
          if fd <? 0 then (Return false, st1)
          else
            let rv := os_connect_sockaddr E (trace st1) a in
            let st2 := emit (EvConnect rv) st1 in
            if rv <? 0 then (Return false, set_sock (-1) (TCP_CLOSE st2))
            else tcp_connect_finish E server st2 in
        g_network_error r.2 = g_network_error st /\
        resolutions (trace r.2) = (1 + resolutions (trace st))%nat /\
        (true = false -> g_server_address r.2 = g_server_address st) /\
        (r.1 = Return true ->
         g_last_server_name r.2 = Some (c_str server) /\
         exists a', g_server_address r.2 = Some a' /\
           (true = true -> In a' [ServerSockaddr a]))).
      { intros st0 H1 H2 H3. cbv zeta.
        destruct (os_socket E (trace st0) <? 0);
          [apply (Hfail true); [discriminate | exact H1 | exact H3
                               | discriminate] |].
        destruct (os_connect_sockaddr E _ a <? 0);
          [apply (Hfail true); [discriminate | exact H1 | exact H3
                               | discriminate] |].
        match goal with
        | |- context [tcp_connect_finish E server ?s0] =>
            pose proof (tcp_connect_finish_spec server s0)
              as (F1 & F2 & F3 & F4 & F5);
            destruct (tcp_connect_finish E server s0) as [r st2]
        end.
        unfold resolutions in *; simpl in *.
        split; [congruence |]. split; [congruence |].
        split; [discriminate |]. intros _. split; [exact F4 |].
        exists (ServerSockaddr a). split; [congruence |]. intros _. now left. }
      subst a.
      destruct (os_gethostbyname E (trace st) server) as [h_addr|].
      * apply Htail; reflexivity.
      * cbv beta iota zeta.
        change (sin_addr (resolved_sockaddr ?p ?x)) with x.
        destruct (inet_addr E server =? INADDR_NONE)%N;
          [apply (Hfail true); [discriminate | reflexivity | reflexivity
                               | discriminate] |].
        apply Htail; reflexivity.
    + destruct (g_server_address st) as [[a|a]|] eqn:Ha in |- *;
        cbv beta iota zeta; rewrite <- Ha;
        try (apply (Hfail false); [discriminate | reflexivity | reflexivity
                                  | reflexivity]).
      destruct (os_socket E (trace st) <? 0);
        [apply (Hfail false); [discriminate | reflexivity | reflexivity
                              | reflexivity] |].
      destruct (os_connect_sockaddr E _ a <? 0);
        [apply (Hfail false); [discriminate | reflexivity | reflexivity
                              | reflexivity] |].
      match goal with
      | |- context [tcp_connect_finish E server ?s0] =>
          pose proof (tcp_connect_finish_spec server s0)
            as (F1 & F2 & F3 & F4 & F5);
          destruct (tcp_connect_finish E server s0) as [r st2]
      end.
      unfold resolutions in *; simpl in *.
      split; [congruence |]. split; [congruence |].
      split; [congruence |]. intros _. split; [exact F4 |].
      exists (ServerSockaddr a). split; [congruence | discriminate].
Qed.

End Connect.




(** ** The network-error flag *)

Lemma tcp_tls_connect_flag (fuel : nat) (E : environment) (st st' : state)
    (r : outcome bool) :
  tcp_tls_connect fuel E st = Some (r, st') ->
  g_network_error st' = g_network_error st.
Proof.
  unfold tcp_tls_connect.
  destruct (tls_setup E st) as [st0|] eqn:Hsetup;
    [| now intros [= _ Heq]; subst st'].
  apply tls_setup_frame in Hsetup as (_ & Hs & _).
  destruct (handshake_loop fuel E st0) as [[err st1]|] eqn:Hloop;
    [| discriminate].
  apply handshake_loop_frame in Hloop as (_ & Hh & _).
  destruct (err <? 0).
  - unfold tls_fail.
    destruct (_ && _); [destruct (_ <? 0) |];
      destruct (g_ssl_initialized _) || idtac;
      intros [= _ Heq]; subst st'; simpl; congruence.
  - pose proof (check_cert_frame E (gnutls_session E) st1) as (_ & Hc & _).
    destruct (check_cert E (gnutls_session E) st1) as [[rv| | |] st2];
      simpl in Hc; [destruct (negb _) | | |];
      intros [= _ Heq]; subst st'; congruence.
Qed.

Lemma run_call_flag (fuel : nat) (E : environment) (c : tcp_call)
    (st st' : state) (r : outcome unit) :
  g_network_error st = true ->
  run_call fuel E c st = Some (r, st') ->
  g_network_error st' = true.
Proof.
  intros Hflag. destruct c as [server | | | s | s length | | run]; simpl.
  - pose proof (tcp_connect_spec E server st) as (Hc & _).
    destruct (tcp_connect E server st) as [[b| | |] st1]; simpl in Hc;
      intros [= _ Heq]; subst st'; congruence.
  - intros [= _ Heq]; subst st'. unfold tcp_disconnect.
    destruct (g_ssl_initialized st); exact Hflag.
  - destruct (tcp_tls_connect fuel E st) as [[o st1]|] eqn:Htls;
      [| discriminate].
    apply tcp_tls_connect_flag in Htls.
    destruct o; intros [= _ Heq]; subst st'; congruence.
  - unfold tcp_send. rewrite Hflag. intros [= _ Heq]; subst st'. exact Hflag.
  - unfold tcp_recv. rewrite Hflag. intros [= _ Heq]; subst st'. exact Hflag.
  - intros [= _ Heq]; subst st'. unfold tcp_is_connected.
    destruct (negb _); exact Hflag.
  - intros [= _ Heq]; subst st'. exact Hflag.
Qed.

(** C6 does not hold as stated.  A reconnect does not clear the flag:
    [tcp_connect] succeeds, the flag is still set, and [tcp_send] and
    [tcp_recv] still return at once. *)
Lemma reconnect_keeps_network_error :
  let E := scripted_env true (StatMode true) None
             {| certificate_type := 2; certificate_peers := [] |}
             send_all recv_nothing 0 in
  let s := {| s_size := 4096; s_p := 0; s_data := [x03; x00; x00; x04] |} in
  let failed := set_network_error true initial_state in
  let st1 := (tcp_connect E "server" failed).2 in
  (tcp_connect E "server" failed).1 = Return true /\
  g_network_error st1 = true /\
  tcp_send 4 E s st1 = Some st1 /\
  tcp_recv 4 E None 4 st1 = Some (None, st1).
Proof.
  split; [| split; [| split]]; vm_compute; reflexivity.
Qed.

(** C6, amended.  Once the network-error flag is set, [tcp_send] and
    [tcp_recv] return at once, [tcp_recv] with NULL, without any call to
    the transport: the state, trace included, is as before.  This lasts
    through every sequence of calls into the layer, [tcp_connect] and
    [tcp_disconnect] included: nothing in the layer clears the flag. *)
Theorem network_error_short_circuits (E : environment) (st : state) :
  g_network_error st = true ->
  (forall fuel s, tcp_send fuel E s st = Some st) /\
  (forall fuel s length, tcp_recv fuel E s length st = Some (None, st)) /\
  (forall fuel calls r st',
     run_calls fuel E calls st = Some (r, st') ->
     g_network_error st' = true).
Proof.
  intros Hflag. split; [| split].
  - intros fuel s. unfold tcp_send. now rewrite Hflag.
  - intros fuel s length. unfold tcp_recv. now rewrite Hflag.
  - intros fuel calls. revert st Hflag.
    induction calls as [|c calls IH]; intros st Hflag r st'; simpl.
    + intros [= _ Heq]; subst st'. exact Hflag.
    + destruct (run_call fuel E c st) as [[o st1]|] eqn:Hcall;
        [| discriminate].
      apply (run_call_flag fuel E c st st1 o Hflag) in Hcall.
      destruct o; try (intros [= _ Heq]; subst st'; exact Hcall).
      now apply IH.
Qed.

Lemma network_error_short_circuits_witness :
  let E := scripted_env true (StatMode true) None
             {| certificate_type := 2; certificate_peers := [] |}
             send_all recv_nothing 0 in
  let s := {| s_size := 4096; s_p := 0; s_data := [x03; x00; x00; x04] |} in
  let failed := set_network_error true initial_state in
  tcp_send 4 E s failed = Some failed /\
  tcp_recv 4 E None 4 failed = Some (None, failed).
Proof.
  intros E s failed.
  destruct (network_error_short_circuits E failed) as (Hsend & Hrecv & _).
  - reflexivity.
  - split; [apply Hsend | apply Hrecv].
Defined.

(** * Further properties of the layer *)

(** ** The name of a record file *)

Section RecordFileName.

Lemma print_radix_step (fuel : nat) (radix : N) (digit : N -> ascii) (n : N)
    (acc : string) :
  print_radix (S fuel) radix digit n acc =
    if (n / radix =? 0)%N then String (digit (n mod radix)%N) acc
    else print_radix fuel radix digit (n / radix)%N
           (String (digit (n mod radix)%N) acc).
Proof. reflexivity. Qed.

Lemma hex_digit_value_hex_digit (d : N) :
  (d < 16)%N -> hex_digit_value (hex_digit d) = Some d.
Proof.
  intros Hd.
  destruct d as [|[[[[?|?|]|[?|?|]|]|[[?|?|]|[?|?|]|]|]
                  |[[[?|?|]|[?|?|]|]|[[?|?|]|[?|?|]|]|]|]];
    try lia; reflexivity.
Qed.

(** Reading back what [print_radix] wrote in base 16. *)
Lemma hex_value_print_radix (fuel : nat) (n : N) (acc : string) :
  (n < 16 ^ N.of_nat fuel)%N ->
  exists k : N,
    forall v, hex_value_from v (print_radix fuel 16 hex_digit n acc) =
              hex_value_from (v * 16 ^ k + n)%N acc.
Proof.
  revert n acc. induction fuel as [|fuel IH]; intros n acc Hn.
  - exists 0%N. intros v. change (print_radix 0 16 hex_digit n acc) with acc.
    f_equal. simpl in Hn. lia.
  - rewrite print_radix_step.
    assert (Hd : (n mod 16 < 16)%N) by (apply N.mod_lt; lia).
    destruct (n / 16 =? 0)%N eqn:Hq.
    + exists 1%N. intros v. simpl hex_value_from.
      rewrite (hex_digit_value_hex_digit _ Hd).
      apply N.eqb_eq in Hq. f_equal.
      pose proof (N.div_mod n 16). lia.
    + destruct (IH (n / 16)%N (String (hex_digit (n mod 16)) acc)) as (k & Hk).
      { rewrite Nat2N.inj_succ, N.pow_succ_r' in Hn.
        apply N.Div0.div_lt_upper_bound. exact Hn. }
      exists (N.succ k). intros v. rewrite Hk. simpl hex_value_from.
      rewrite (hex_digit_value_hex_digit _ Hd). f_equal.
      rewrite N.pow_succ_r'. pose proof (N.div_mod n 16). lia.
Qed.

Lemma print_radix_digits (fuel j : nat) (radix : N) (digit : N -> ascii)
    (n : N) (acc : string) :
  (1 < radix)%N -> (1 <= j)%nat -> (n < radix ^ N.of_nat j)%N ->
  (String.length (print_radix fuel radix digit n acc)
   <= j + String.length acc)%nat.
Proof.
  intros Hr. revert j n acc.
  induction fuel as [|fuel IH]; intros j n acc Hj Hn;
    [change (print_radix 0 radix digit n acc) with acc; lia |].
  rewrite print_radix_step.
  destruct (n / radix =? 0)%N eqn:Hq;
    [change (String.length (String ?c ?s)) with (S (String.length s)); lia |].
  apply N.eqb_neq in Hq.
  destruct j as [|[|j]]; [lia | |].
  - exfalso. apply Hq. apply N.div_small.
    change (N.of_nat 1) with 1%N in Hn. rewrite N.pow_1_r in Hn. exact Hn.
  - etransitivity; [apply (IH (S j)); [lia |] |];
      [| change (String.length (String ?c ?s)) with (S (String.length s)); lia].
    rewrite Nat2N.inj_succ, N.pow_succ_r' in Hn.
    apply N.Div0.div_lt_upper_bound. exact Hn.
Qed.

Lemma print_radix_nonempty (fuel : nat) (radix : N) (digit : N -> ascii)
    (n : N) (acc : string) :
  (1 + String.length acc
   <= String.length (print_radix (S fuel) radix digit n acc))%nat.
Proof.
  assert (Hcons : forall c s, String.length (String c s) = S (String.length s))
    by reflexivity.
  revert n acc. induction fuel as [|fuel IH]; intros n acc;
    rewrite print_radix_step; destruct (n / radix =? 0)%N;
    rewrite ?Hcons; try lia.
  - change (print_radix 0 radix digit ?a ?b) with b. rewrite Hcons. lia.
  - etransitivity; [| apply IH]. rewrite Hcons. lia.
Qed.

(** With enough fuel for the digits of [n], more fuel changes nothing. *)
Lemma print_radix_fuel (f1 f2 : nat) (radix : N) (digit : N -> ascii)
    (n : N) (acc : string) :
  (1 < radix)%N ->
  (n < radix ^ N.of_nat (S f1))%N -> (n < radix ^ N.of_nat (S f2))%N ->
  print_radix (S f1) radix digit n acc = print_radix (S f2) radix digit n acc.
Proof.
  intros Hr. revert f2 n acc.
  induction f1 as [|f1 IH]; intros f2 n acc H1 H2; rewrite !print_radix_step;
    destruct (n / radix =? 0)%N eqn:Hq; try reflexivity;
    apply N.eqb_neq in Hq.
  - exfalso. apply Hq. apply N.div_small.
    change (N.of_nat 1) with 1%N in H1. rewrite N.pow_1_r in H1. exact H1.
  - destruct f2 as [|f2].
    + exfalso. apply Hq. apply N.div_small.
      change (N.of_nat 1) with 1%N in H2. rewrite N.pow_1_r in H2. exact H2.
    + apply IH.
      * rewrite (Nat2N.inj_succ (S f1)), N.pow_succ_r' in H1.
        apply N.Div0.div_lt_upper_bound. exact H1.
      * rewrite (Nat2N.inj_succ (S f2)), N.pow_succ_r' in H2.
        apply N.Div0.div_lt_upper_bound. exact H2.
Qed.

Lemma digit_fuel_enough (n m : N) :
  (m <= n)%N -> (m < 16 ^ N.of_nat (digit_fuel n))%N.
Proof.
  intros Hm. unfold digit_fuel.
  rewrite Nat2N.inj_succ, N2Nat.id.
  apply N.le_lt_trans with n; [exact Hm |].
  destruct (N.eq_dec n 0%N) as [-> | Hn0]; [reflexivity |].
  apply N.lt_le_trans with (2 ^ N.succ (N.log2 n))%N.
  - apply N.log2_spec. lia.
  - apply N.pow_le_mono_l. lia.
Qed.

Lemma print_x_mod (h : N) : print_x h = print_x (h mod 2 ^ 32).
Proof.
  unfold print_x. rewrite N.Div0.mod_mod.
  assert (Hle : (h mod 2 ^ 32 <= h)%N) by (apply N.Div0.mod_le).
  pose proof (digit_fuel_enough h _ Hle) as H1.
  pose proof (digit_fuel_enough (h mod 2 ^ 32) _ (N.le_refl _)) as H2.
  unfold digit_fuel in *. apply print_radix_fuel; [lia | exact H1 | exact H2].
Qed.

Lemma print_x_value (h : N) : hex_value (print_x h) = Some (h mod 2 ^ 32)%N.
Proof.
  unfold hex_value, print_x.
  destruct (hex_value_print_radix (digit_fuel h) (h mod 2 ^ 32) EmptyString)
    as (k & Hk).
  { apply digit_fuel_enough. apply N.Div0.mod_le. }
  rewrite Hk. reflexivity.
Qed.

Lemma print_x_length (h : N) :
  (1 <= String.length (print_x h) <= 8)%nat.
Proof.
  unfold print_x, digit_fuel. split.
  - pose proof (print_radix_nonempty (N.to_nat (N.log2 h)) 16 hex_digit
                  (h mod 2 ^ 32) EmptyString) as H. simpl in H. exact H.
  - pose proof (print_radix_digits (S (N.to_nat (N.log2 h))) 8 16 hex_digit
                  (h mod 2 ^ 32) EmptyString) as H.
    simpl String.length in H. rewrite Nat.add_0_r in H. apply H; [lia | lia |].
    change (16 ^ N.of_nat 8)%N with (2 ^ 32)%N. apply N.mod_lt. lia.
Qed.

Lemma str_take_all (n : nat) (s : string) :
  (String.length s <= n)%nat -> str_take n s = s.
Proof.
  revert n. induction s as [|c s IH]; intros [|n] Hn; try reflexivity;
    [simpl in Hn; lia |].
  change (str_take (S n) (String c s)) with (String c (str_take n s)).
  rewrite IH; [reflexivity | simpl in Hn; lia].
Qed.

Lemma append_inj_l (a b c : string) : a +:+ b = a +:+ c -> b = c.
Proof.
  induction a as [|x a IH]; [trivial |].
  rewrite !append_cons. intros [= H]. now apply IH.
Qed.

End RecordFileName.

(** X1.  The file of a record is named by the hash of the identity alone:
    the cache directory, a slash, and between one and eight lower-case
    hexadecimal digits that read back as the hash taken as a [uint32]
    (cut by [snprintf] to the size of the buffer).  No character of the
    identity reaches the path. *)
Theorem record_file_is_named_by_hash (E : environment) (db X : string) :
  exists h,
    cert_store_cache_filename E db X 4096 = snprintf 4096 (db +:+ "/" +:+ h) /\
    hex_value h = Some (utils_djb2_hash E X mod 2 ^ 32)%N /\
    (1 <= String.length h <= 8)%nat.
Proof.
  exists (print_x (utils_djb2_hash E X)).
  split; [reflexivity | split; [apply print_x_value | apply print_x_length]].
Qed.

Lemma str_take_length (n : nat) (s : string) :
  (String.length (str_take n s) <= String.length s)%nat.
Proof.
  revert n. induction s as [|c s IH]; intros [|n];
    try (change (str_take _ _) with EmptyString; simpl; lia).
  change (str_take (S n) (String c s)) with (String c (str_take n s)).
  change (String.length (String ?a ?b)) with (S (String.length b)).
  specialize (IH n). lia.
Qed.

Lemma same_hash_same_file (E : environment) (db X Y : string) :
  (utils_djb2_hash E X mod 2 ^ 32 = utils_djb2_hash E Y mod 2 ^ 32)%N ->
  cert_store_cache_filename E db X 4096 = cert_store_cache_filename E db Y 4096.
Proof.
  intros Hh. unfold cert_store_cache_filename.
  now rewrite (print_x_mod (utils_djb2_hash E X)), Hh, <- print_x_mod.
Qed.

Lemma same_file_same_hash (E : environment) (db X Y : string) :
  (String.length db + 9 < 4096)%nat ->
  cert_store_cache_filename E db X 4096 = cert_store_cache_filename E db Y 4096 ->
  (utils_djb2_hash E X mod 2 ^ 32 = utils_djb2_hash E Y mod 2 ^ 32)%N.
Proof.
  intros Hdb. unfold cert_store_cache_filename, snprintf.
  assert (Hfit : forall h,
    (String.length (db +:+ "/" +:+ print_x h) <= N.to_nat (4096 - 1))%nat).
  { intros h. rewrite !length_append. pose proof (print_x_length h).
    change (String.length "/") with 1%nat.
    change (N.to_nat (4096 - 1)) with 4095%nat. lia. }
  rewrite !str_take_all by apply Hfit.
  intros Heq. apply append_inj_l in Heq. apply append_inj_l in Heq.
  apply (f_equal hex_value) in Heq. rewrite !print_x_value in Heq.
  now injection Heq.
Qed.

(** X2.  Identities whose hashes agree as [uint32] share one record file,
    and no other identities do (as long as the path of the cache directory
    leaves room for the file name).  The store does not tell colliding
    identities apart: [cert_tdb_verify] and [cert_tdb_store] do for the
    one what they do for the other, in every state and for every key; so
    a key that a store that goes well has written for one of them is
    trusted for the other. *)
Theorem colliding_identities_share_a_record (E : environment)
    (home X Y : string) (K : list byte) (exp : Z) (st : state) :
  storable E K = true -> time_t_range exp ->
  let same_hash :=
    (utils_djb2_hash E X mod 2 ^ 32 = utils_djb2_hash E Y mod 2 ^ 32)%N in
  let db := certcache_dir home in
  (same_hash -> record_file E home X = record_file E home Y) /\
  ((String.length home <= 4000)%nat ->
   record_file E home X = record_file E home Y -> same_hash) /\
  (same_hash ->
   forall (K' : list byte) (exp' : Z) (st' : state),
     cert_tdb_verify E db Y K' st' = cert_tdb_verify E db X K' st' /\
     cert_tdb_store E db Y exp' K' st' = cert_tdb_store E db X exp' K' st') /\
  (same_hash -> clean_store E home X K ->
   let st1 := (cert_tdb_store E db X exp K st).2 in
   cert_tdb_verify E db Y K st1 = (GNUTLS_E_SUCCESS, st1)).
Proof.
  intros Hs Hexp same_hash db. split; [| split; [| split]].
  - apply same_hash_same_file.
  - intros Hhome. apply same_file_same_hash.
    pose proof (str_take_length (N.to_nat (PATH_MAX - 1 - 1))
                  (home +:+ "/" +:+ ".local/share/rdesktop/certs/")) as Hl.
    rewrite !length_append in Hl.
    change (String.length "/") with 1%nat in Hl.
    change (String.length ".local/share/rdesktop/certs/") with 28%nat in Hl.
    unfold certcache_dir, snprintf. lia.
  - intros Hsame K' exp' st'.
    unfold cert_tdb_verify, cert_tdb_store.
    rewrite (same_hash_same_file E db X Y Hsame). split; reflexivity.
  - intros Hsame Hclean st1. subst db.
    rewrite (cert_tdb_verify_record E home Y exp K K st1); try assumption.
    + now rewrite decide_True.
    + unfold record_file.
      rewrite <- (same_hash_same_file E (certcache_dir home) X Y Hsame).
      now apply cert_tdb_store_record.
Qed.

Lemma colliding_identities_share_a_record_witness :
  let E := scripted_env true (StatMode true) None
             {| certificate_type := 2; certificate_peers := [] |}
             send_all recv_nothing 0 in
  let K := [x41; x42; x43; x44] in
  let st1 :=
    (cert_tdb_store E (certcache_dir "/home/user") "az" 1700000000 K
       initial_state).2 in
  "az" <> "bY" /\
  cert_tdb_verify E (certcache_dir "/home/user") "bY" K st1 =
    (GNUTLS_E_SUCCESS, st1).
Proof.
  intros E K st1. split; [discriminate |].
  apply (colliding_identities_share_a_record E "/home/user" "az" "bY" K
           1700000000 initial_state).
  - vm_compute. reflexivity.
  - unfold time_t_range. lia.
  - vm_compute. reflexivity.
  - intros t. split; [reflexivity | vm_compute; reflexivity].
Defined.

(** ** Reading and writing records *)

(** X3.  The first line of a record is skipped, whatever it holds: the
    expiration time [cert_tdb_store] writes is never read back, and the
    outcome of [cert_tdb_verify] is decided by the key line alone.  A
    record whose certificate has expired is trusted like any other. *)
Theorem expiration_line_is_skipped (E : environment) (db X first : string)
    (K K' : list byte) (st : state) :
  plain first = true -> (N.of_nat (String.length first) + 1 < 4096)%N ->
  storable E K = true ->
  files st !! cert_store_cache_filename E db X 4096 =
    Some (first +:+ nl +:+ c_str (base64_encode_raw E K) +:+ nl) ->
  cert_tdb_verify E db X K' st =
    (if decide (K' = K) then GNUTLS_E_SUCCESS
     else GNUTLS_E_CERTIFICATE_KEY_MISMATCH, st).
Proof.
  intros Hp Hl Hs Hfile. apply storable_inv in Hs as (Hkp & Hkl & Hdec).
  unfold cert_tdb_verify. rewrite Hfile.
  rewrite (fgets_plain first _ 4096 Hp Hl).
  rewrite <- (append_nil_r nl) at 1.
  rewrite (fgets_plain _ EmptyString 4096 Hkp Hkl).
  rewrite (c_str_line _ Hkp), Hdec.
  destruct (decide (K' = K)) as [-> | Hne].
  - rewrite Nat.eqb_refl, memcmp_refl. reflexivity.
  - destruct (length K' =? length K)%nat eqn:Hlen; [| reflexivity].
    destruct (memcmp K' K (length K') =? 0) eqn:Hcmp; [| reflexivity].
    apply Nat.eqb_eq in Hlen. apply Z.eqb_eq in Hcmp.
    now destruct Hne; apply memcmp_eq.
Qed.

Lemma expiration_line_is_skipped_witness :
  let E := scripted_env true (StatMode true) None
             {| certificate_type := 2; certificate_peers := [] |}
             send_all recv_nothing 0 in
  let file := cert_store_cache_filename E "/certs" "host" 4096 in
  let st :=
    set_files {[ file := "expired long ago" +:+ nl +:+ "QUJDRA==" +:+ nl ]}
      initial_state in
  cert_tdb_verify E "/certs" "host" [x41; x42; x43; x44] st =
    (GNUTLS_E_SUCCESS, st).
Proof.
  intros E file st.
  apply (expiration_line_is_skipped E "/certs" "host" "expired long ago"
           [x41; x42; x43; x44] [x41; x42; x43; x44] st).
  - reflexivity.
  - reflexivity.
  - vm_compute. reflexivity.
  - vm_compute. reflexivity.
Defined.

Lemma cert_tdb_verify_other (E : environment) (db X : string) (K : list byte)
    (st : state) (p : string) :
  p <> cert_store_cache_filename E db X 4096 ->
  files (cert_tdb_verify E db X K st).2 !! p = files st !! p.
Proof.
  intros Hp. unfold cert_tdb_verify, unlink.
  case_split; simpl; try reflexivity; now apply lookup_delete_ne.
Qed.

Lemma cert_tdb_store_other (E : environment) (db X : string) (exp : Z)
    (K : list byte) (st : state) (p : string) :
  p <> cert_store_cache_filename E db X 4096 ->
  files (cert_tdb_store E db X exp K st).2 !! p = files st !! p.
Proof.
  intros Hp. unfold cert_tdb_store.
  destruct (BASE64_ENCODE_RAW_LENGTH 4096 <? _)%N; [reflexivity |].
  destruct (negb (os_fopen_write E _ _)); [reflexivity |].
  destruct (printed_b64 E _ K); [| reflexivity].
  cbn. now apply lookup_insert_ne.
Qed.

Lemma stored_files (r : outcome Z * state) : files (stored r).2 = files r.2.
Proof.
  destruct r as [[rv | status | |] st]; cbn; try reflexivity.
  now destruct (negb (rv =? GNUTLS_E_SUCCESS)).
Qed.

Lemma gnutls_store_pubkey_other (E : environment) (db X : string)
    (cert : x509_crt) (exp : Z) (st : state) (p : string) :
  p <> cert_store_cache_filename E db X 4096 ->
  files (stored (gnutls_store_pubkey E db X cert exp st)).2 !! p =
    files st !! p.
Proof.
  intros Hp. rewrite stored_files. unfold gnutls_store_pubkey.
  destruct (crt_raw_pubkey cert); [| reflexivity].
  now apply cert_tdb_store_other.
Qed.

Lemma check_name_other (E : environment) (db X : string) (cert : x509_crt)
    (st : state) (p : string) :
  p <> cert_store_cache_filename E db X 4096 ->
  files (check_name E db X cert st).2 !! p = files st !! p.
Proof.
  intros Hp.
  assert (Hv : files (gnutls_verify_stored_pubkey E db X cert st).2 !! p =
               files st !! p).
  { unfold gnutls_verify_stored_pubkey.
    destruct (crt_raw_pubkey cert) as [K|]; [| reflexivity].
    pose proof (cert_tdb_verify_other E db X K st p Hp) as Hv.
    now destruct (cert_tdb_verify E db X K st). }
  unfold check_name.
  destruct (gnutls_verify_stored_pubkey E db X cert st) as [rv st1].
  cbn [snd] in Hv. rewrite <- Hv.
  destruct (rv =? GNUTLS_E_NO_CERTIFICATE_FOUND);
    [now apply gnutls_store_pubkey_other |].
  destruct (rv =? GNUTLS_E_CERTIFICATE_KEY_MISMATCH);
    [| now destruct (rv <? 0)].
  destruct (negb (message_fits _)); [reflexivity |].
  destruct (util_dialog_choice E (trace st1) _) as [r|]; [| reflexivity].
  destruct (strcmp0 r "no"); [reflexivity |].
  now rewrite gnutls_store_pubkey_other.
Qed.

(** What [cert_tdb_verify], [cert_tdb_store] and [check_name] do depends
    on the past and on the file under the name of the record, and on
    nothing else that the store holds. *)
Lemma cert_tdb_verify_agree (E : environment) (db X : string)
    (K : list byte) (st st' : state) :
  let file := cert_store_cache_filename E db X 4096 in
  agree_on file st st' ->
  (cert_tdb_verify E db X K st').1 = (cert_tdb_verify E db X K st).1 /\
  agree_on file (cert_tdb_verify E db X K st).2
    (cert_tdb_verify E db X K st').2.
Proof.
  intros file [Ht Hf]. unfold cert_tdb_verify. fold file. rewrite Hf.
  assert (Hgone : agree_on file (unlink file st) (unlink file st')).
  { split; [exact Ht |]. unfold unlink. cbn.
    now rewrite !lookup_delete_eq. }
  assert (Hkept : agree_on file st st') by now split.
  case_split; cbn [fst snd]; auto.
Qed.

Lemma cert_tdb_store_agree (E : environment) (db X : string) (exp : Z)
    (K : list byte) (st st' : state) :
  let file := cert_store_cache_filename E db X 4096 in
  agree_on file st st' ->
  (cert_tdb_store E db X exp K st').1 = (cert_tdb_store E db X exp K st).1 /\
  agree_on file (cert_tdb_store E db X exp K st).2
    (cert_tdb_store E db X exp K st').2.
Proof.
  intros file [Ht Hf]. unfold cert_tdb_store. fold file. rewrite Ht.
  assert (Hkept : agree_on file st st') by now split.
  case_split; cbn [fst snd]; auto.
  split; [reflexivity |]. split; [exact Ht |]. cbn.
  now rewrite !lookup_insert_eq.
Qed.

Lemma stored_agree (file : string) (r r' : outcome Z * state) :
  r'.1 = r.1 -> agree_on file r.2 r'.2 ->
  (stored r').1 = (stored r).1 /\ agree_on file (stored r).2 (stored r').2.
Proof.
  destruct r as [o st], r' as [o' st']. cbn [fst snd]. intros -> Ha.
  unfold stored. destruct o as [rv | status | |]; cbn [fst snd]; auto.
  destruct (negb (rv =? GNUTLS_E_SUCCESS)); cbn [fst snd]; auto.
Qed.

Lemma emit_agree (file : string) (e : event) (st st' : state) :
  agree_on file st st' -> agree_on file (emit e st) (emit e st').
Proof. intros [Ht Hf]. split; cbn; [now rewrite Ht | exact Hf]. Qed.

Lemma check_name_agree (E : environment) (db X : string) (cert : x509_crt)
    (st st' : state) :
  let file := cert_store_cache_filename E db X 4096 in
  agree_on file st st' ->
  (check_name E db X cert st').1 = (check_name E db X cert st).1 /\
  agree_on file (check_name E db X cert st).2 (check_name E db X cert st').2.
Proof.
  intros file Ha.
  assert (Hv : (gnutls_verify_stored_pubkey E db X cert st').1 =
               (gnutls_verify_stored_pubkey E db X cert st).1 /\
               agree_on file (gnutls_verify_stored_pubkey E db X cert st).2
                 (gnutls_verify_stored_pubkey E db X cert st').2).
  { unfold gnutls_verify_stored_pubkey.
    destruct (crt_raw_pubkey cert) as [K|]; [| now split].
    destruct (cert_tdb_verify_agree E db X K st st' Ha) as [H1 H2].
    destruct (cert_tdb_verify E db X K st) as [rv s1],
             (cert_tdb_verify E db X K st') as [rv' s1'].
    cbn [fst snd] in *. now subst rv'. }
  assert (Hs : forall exp s1 s1', agree_on file s1 s1' ->
    (stored (gnutls_store_pubkey E db X cert exp s1')).1 =
    (stored (gnutls_store_pubkey E db X cert exp s1)).1 /\
    agree_on file (stored (gnutls_store_pubkey E db X cert exp s1)).2
      (stored (gnutls_store_pubkey E db X cert exp s1')).2).
  { intros exp s1 s1' Ha1. apply stored_agree;
      unfold gnutls_store_pubkey;
      destruct (crt_raw_pubkey cert) as [K|]; cbn [fst snd];
      try reflexivity; try exact Ha1;
      now apply cert_tdb_store_agree. }
  unfold check_name.
  destruct (gnutls_verify_stored_pubkey E db X cert st) as [rv s1],
           (gnutls_verify_stored_pubkey E db X cert st') as [rv' s1'].
  destruct Hv as [Hrv Ha1]. cbn [fst snd] in Hrv, Ha1. subst rv'.
  destruct (rv =? GNUTLS_E_NO_CERTIFICATE_FOUND); [now apply Hs |].
  destruct (rv =? GNUTLS_E_CERTIFICATE_KEY_MISMATCH);
    [| destruct (rv <? 0); now split].
  destruct (negb (message_fits _)); [now split |].
  destruct Ha1 as [Ht1 Hf1]. rewrite Ht1.
  assert (Ha2 : forall e, agree_on file (emit e s1) (emit e s1'))
    by (intros e; apply emit_agree; now split).
  destruct (util_dialog_choice E (trace s1) _) as [r|];
    [| split; [reflexivity | apply Ha2]].
  destruct (strcmp0 r "no"); [split; [reflexivity | apply Ha2] |].
  apply Hs, Ha2.
Qed.

(** X4.  A trust check for an identity reads and writes the file under
    the path name of the record of that identity, and no other.  What any
    other path name of the store holds is after [check_cert] what it was
    before, whether the key was trusted, stored, replaced or refused.  And
    two states with the same past that hold the same under the path name
    of the record get the same result from [check_cert], with the same
    prompts, and hold the same under that path name afterwards, whatever
    else they hold.  (Path names are compared as they are written: two
    names of one file are two names.) *)
Theorem check_cert_touches_one_record (E : environment) (home X : string)
    (sess : session) (cert : x509_crt) (st : state) :
  getenv_HOME E = Some home ->
  peer_identity sess = Some (cert, X) ->
  (forall p, p <> record_file E home X ->
     files (check_cert E sess st).2 !! p = files st !! p) /\
  (forall st', agree_on (record_file E home X) st st' ->
     (check_cert E sess st').1 = (check_cert E sess st).1 /\
     agree_on (record_file E home X) (check_cert E sess st).2
       (check_cert E sess st').2).
Proof.
  intros Hhome Hid. unfold check_cert, certcache_check. rewrite Hhome.
  unfold peer_identity in Hid. unfold check_peer.
  destruct (certificate_type sess =? GNUTLS_CRT_X509); [| discriminate].
  destruct (certificate_peers sess) as [|c ?]; [discriminate |].
  destruct (0 <? crt_dn_size c); [| discriminate].
  destruct (strstr _ _) as [found|]; [| discriminate].
  destruct (strlen _ =? 0)%nat; [discriminate |].
  injection Hid as -> <-. split.
  - intros p Hp.
    destruct (os_stat E (trace st) (certcache_dir home)) as [| |is_dir];
      cbv beta iota zeta;
      [destruct (rd_certcache_mkdir E) | | destruct is_dir];
      simpl negb; cbv iota; try reflexivity;
      first [ apply (check_name_other E _ _ _ st p Hp)
            | apply (check_name_other E _ _ _ (emit EvMkdirCertcache st) p
                       Hp) ].
  - intros st' Ha. pose proof Ha as [Ht Hf]. rewrite Ht.
    destruct (os_stat E (trace st) (certcache_dir home)) as [| |is_dir];
      cbv beta iota zeta;
      [destruct (rd_certcache_mkdir E) | | destruct is_dir];
      simpl negb; cbv iota;
      first [ apply check_name_agree; exact Ha
            | apply check_name_agree; apply emit_agree; exact Ha
            | split; [reflexivity |]; first [exact Ha | now apply emit_agree] ].
Qed.

Lemma check_cert_touches_one_record_witness :
  let X := "server.example.com" in
  let sess := x509_peer X [x41; x42; x43; x44] 1700000000 in
  let E := scripted_env true (StatMode true) None sess
             send_all recv_nothing 0 in
  let st := set_files {[ "/home/user/notes" := "kept" ]} initial_state in
  files (check_cert E sess st).2 !! "/home/user/notes" = Some "kept" /\
  (check_cert E sess initial_state).1 = (check_cert E sess st).1.
Proof.
  intros X sess E st.
  destruct (check_cert_touches_one_record E "/home/user" X sess
              (x509_peer_cert X [x41; x42; x43; x44] 1700000000) st
              eq_refl eq_refl) as [Hother Hsame].
  split.
  - rewrite Hother; [reflexivity | vm_compute; discriminate].
  - apply Hsame. split; reflexivity.
Defined.

(** X5.  Trust on first use.  An identity that has no record yet is
    accepted without a prompt.  When the store of its key goes well (the
    record file can be opened, and [b64] holds a NUL right behind the
    encoding), the key is written with the expiration time of the
    certificate, and the very same session is trusted when it is checked
    again, and nothing changes then.  When the record file cannot be
    opened, [fprintf] is given NULL: the result of [fopen] is not
    tested. *)
Theorem first_use_stores_the_key (E : environment) (home X : string)
    (sess : session) (cert : x509_crt) (K : list byte) (st : state) :
  getenv_HOME E = Some home ->
  cache_root_is_dir E home ->
  peer_identity sess = Some (cert, X) -> crt_raw_pubkey cert = Some K ->
  storable E K = true -> time_t_range (crt_expiration_time cert) ->
  files st !! record_file E home X = None ->
  let st1 := (check_cert E sess st).2 in
  (clean_store E home X K ->
   (check_cert E sess st).1 = Return 0 /\
   trace st1 = trace st /\
   files st1 =
     <[record_file E home X := trust_record E (crt_expiration_time cert) K]>
       (files st) /\
   check_cert E sess st1 = (Return 0, st1)) /\
  (os_fopen_write E (trace st) (record_file E home X) = false ->
   (check_cert E sess st).1 = Fault /\ trace st1 = trace st).
Proof.
  intros Hhome Hdir Hid Hk Hs Hexp Hnone st1. subst st1.
  rewrite (check_cert_identity E home X sess cert) by assumption.
  rewrite (check_name_unknown E home X cert K st Hk Hnone).
  split.
  - intros Hclean.
    rewrite (cert_tdb_store_clean E home X _ K _ Hclean).
    cbn [stored fst snd]. change (negb (_ =? _)) with false. cbv iota.
    cbn [fst snd]. split; [reflexivity | split; [reflexivity | split]].
    + unfold unlink. cbn [files set_files]. now rewrite delete_id.
    + rewrite (check_cert_identity E home X sess cert) by assumption.
      apply (check_name_trusted E home X cert (crt_expiration_time cert) K);
        try assumption.
      cbn [files set_files]. apply lookup_insert_eq.
  - intros Hopen. unfold cert_tdb_store. unfold record_file in Hopen.
    change (trace (unlink (record_file E home X) st)) with (trace st).
    rewrite Hopen. cbn [negb].
    destruct (BASE64_ENCODE_RAW_LENGTH 4096 <? _)%N; split; reflexivity.
Qed.

Lemma first_use_stores_the_key_witness :
  let X := "server.example.com" in
  let K := [x41; x42; x43; x44] in
  let sess := x509_peer X K 1700000000 in
  let E := scripted_env true (StatMode true) None sess
             send_all recv_nothing 0 in
  (check_cert E sess initial_state).1 = Return 0 /\
  prompts (trace (check_cert E sess initial_state).2) = 0%nat.
Proof.
  intros X K sess E.
  destruct (first_use_stores_the_key E "/home/user" X sess
              (x509_peer_cert X K 1700000000) K initial_state)
    as [Hclean _].
  - reflexivity.
  - intros t. reflexivity.
  - reflexivity.
  - reflexivity.
  - vm_compute. reflexivity.
  - unfold time_t_range. simpl. lia.
  - reflexivity.
  - destruct Hclean as (Hr & Htr & _).
    + intros t. split; [reflexivity | vm_compute; reflexivity].
    + split; [exact Hr | now rewrite Htr].
Defined.



(** X7.  A certificate that gives no name is refused: when the
    distinguished name could not be read, holds no ["CN="], or has nothing
    after it, [check_cert] returns 1 and neither reads nor writes the
    store, and asks nobody. *)
Theorem nameless_certificate_is_refused (E : environment) (home : string)
    (sess : session) (cert : x509_crt) (rest : list x509_crt) (st : state) :
  getenv_HOME E = Some home ->
  cache_root_is_dir E home ->
  certificate_type sess = GNUTLS_CRT_X509 ->
  certificate_peers sess = cert :: rest ->
  crt_dn_size cert <= 0 \/
  strstr (c_str (crt_dn cert)) "CN=" = None \/
  (exists found, strstr (c_str (crt_dn cert)) "CN=" = Some found /\
                 strlen (str_drop 3 found) = 0%nat) ->
  check_cert E sess st = (Return 1, st).
Proof.
  intros Hhome Hdir Hty Hpeers Hname.
  unfold check_cert, certcache_check. rewrite Hhome, Hdir, Hty, Hpeers.
  simpl negb. rewrite Z.eqb_refl. cbv iota. unfold check_peer.
  destruct (0 <? crt_dn_size cert) eqn:Hsz; [| reflexivity].
  apply Z.ltb_lt in Hsz.
  destruct Hname as [Hle | [Hnone | (found & Hfound & Hlen)]]; [lia | |].
  - now rewrite Hnone.
  - now rewrite Hfound, Hlen.
Qed.

Lemma nameless_certificate_is_refused_witness :
  let cert :=
    {| crt_dn_size := 5; crt_dn := "O=Org"; crt_raw_pubkey := Some [x41];
       crt_expiration_time := 1700000000; crt_print_rv := 0;
       crt_print_info := "" |} in
  let sess :=
    {| certificate_type := GNUTLS_CRT_X509; certificate_peers := [cert] |} in
  let E := scripted_env true (StatMode true) None sess
             send_all recv_nothing 0 in
  check_cert E sess initial_state = (Return 1, initial_state).
Proof.
  intros cert sess E.
  apply (nameless_certificate_is_refused E "/home/user" sess cert []).
  - reflexivity.
  - intros t. reflexivity.
  - reflexivity.
  - reflexivity.
  - right. left. reflexivity.
Defined.

(** X8.  Without HOME there is no trust check: [check_cert] returns 0 for
    every session and leaves the state alone, so that [tcp_tls_connect]
    returns True after any handshake that succeeds, whatever certificate
    the peer presents; nothing is stored and nobody is asked. *)
Theorem unset_home_skips_the_trust_check (fuel : nat) (E : environment)
    (st st0 st1 : state) (err : Z) :
  getenv_HOME E = None ->
  tls_setup E st = Some st0 ->
  handshake_loop fuel E st0 = Some (err, st1) ->
  0 <= err ->
  (forall sess s, check_cert E sess s = (Return 0, s)) /\
  tcp_tls_connect fuel E st = Some (Return true, st1).
Proof.
  intros Hhome Hsetup Hloop Herr.
  assert (Hcheck : forall sess s, check_cert E sess s = (Return 0, s))
    by (intros sess s; unfold check_cert; now rewrite Hhome).
  split; [exact Hcheck |].
  unfold tcp_tls_connect. rewrite Hsetup, Hloop.
  assert (Hlt : (err <? 0) = false) by (apply Z.ltb_ge; lia).
  rewrite Hlt, Hcheck. reflexivity.
Qed.

Lemma unset_home_skips_the_trust_check_witness :
  let E := staged_env false None (fun _ => 0) recv_two false [] 0
             (fun _ => 0) in
  exists st1,
    tcp_tls_connect 1 E initial_state = Some (Return true, st1) /\
    files st1 = ∅.
Proof.
  intros E. eexists. split.
  - refine (proj2 (unset_home_skips_the_trust_check 1 E initial_state _ _ 0
                     eq_refl eq_refl eq_refl _)). lia.
  - reflexivity.
Defined.

(** ** The handshake *)

Lemma count_events_app (p : event -> bool) (new old : list event) :
  count_events p (new ++ old) = (count_events p new + count_events p old)%nat.
Proof.
  induction new as [|e new IH]; [reflexivity |].
  simpl. rewrite IH. lia.
Qed.

Lemma handshake_loop_events (fuel : nat) (E : environment) (st st1 : state)
    (err : Z) :
  handshake_loop fuel E st = Some (err, st1) ->
  handshake_decided E err = true /\
  exists retried,
    trace st1 = EvHandshake err :: map EvHandshake retried ++ trace st /\
    Forall (fun r => handshake_decided E r = false) retried /\
    (length retried < fuel)%nat /\
    files st1 = files st /\ g_sock st1 = g_sock st.
Proof.
  revert st. induction fuel as [|fuel IH]; intros st; [discriminate |].
  cbn [handshake_loop].
  destruct ((gnutls_handshake E (trace st) <? 0) && _) eqn:Hretry.
  - intros H. apply IH in H as (Hd & retried & Htr & Hall & Hlen & Hf & Hs).
    split; [exact Hd |].
    exists (retried ++ [gnutls_handshake E (trace st)]).
    split; [| split; [| split; [| split]]].
    + rewrite Htr, map_app, <- app_assoc. reflexivity.
    + apply Forall_app. split; [exact Hall |].
      constructor; [unfold handshake_decided; now rewrite Hretry
                   | constructor].
    + rewrite length_app. simpl. lia.
    + exact Hf.
    + exact Hs.
  - intros [= <- <-].
    split; [unfold handshake_decided; now rewrite Hretry |].
    exists []. split; [reflexivity | split; [constructor |]].
    split; [simpl; lia | split; reflexivity].
Qed.

(** X9.  The handshake loop calls [gnutls_handshake] again after every
    negative result that is not fatal, and after no other: when it ends,
    the last result is non-negative or fatal, every result before it was
    negative and not fatal, and nothing else has happened.  It ends at the
    first call whose result is of that kind. *)
Theorem handshake_retries_until_decided (fuel : nat) (E : environment)
    (st : state) :
  (forall err st1,
     handshake_loop fuel E st = Some (err, st1) ->
     handshake_decided E err = true /\
     exists retried,
       trace st1 = EvHandshake err :: map EvHandshake retried ++ trace st /\
       Forall (fun r => handshake_decided E r = false) retried /\
       (length retried < fuel)%nat /\
       files st1 = files st /\ g_sock st1 = g_sock st) /\
  (handshake_decided E (gnutls_handshake E (trace st)) = true ->
   handshake_loop (S fuel) E st =
     Some (gnutls_handshake E (trace st),
           emit (EvHandshake (gnutls_handshake E (trace st))) st)).
Proof.
  split.
  - intros err st1. apply handshake_loop_events.
  - unfold handshake_decided. simpl.
    destruct (_ && _); [discriminate | reflexivity].
Qed.

Lemma handshake_retries_until_decided_witness :
  let E := staged_env false (Some "/home/user")
             (fun t => if (length t <? 2)%nat then -28 else 0)
             recv_two false [] 0 (fun _ => 0) in
  exists st1,
    handshake_loop 5 E initial_state = Some (0, st1) /\
    trace st1 = [EvHandshake 0; EvHandshake (-28); EvHandshake (-28)] /\
    handshake_decided E 0 = true.
Proof.
  intros E. eexists. split; [reflexivity | split; [reflexivity |]].
  exact (proj1 (proj1 (handshake_retries_until_decided 5 E initial_state)
                  0 _ eq_refl)).
Defined.

Lemma tls_setup_events (E : environment) (st st0 : state) :
  tls_setup E st = Some st0 ->
  trace st0 = (if g_ssl_initialized st then [] else [EvTlsInit]) ++ trace st /\
  files st0 = files st /\ g_sock st0 = g_sock st.
Proof.
  unfold tls_setup. destruct (g_ssl_initialized st) eqn:Hinit.
  - destruct (_ || _); [discriminate |]. intros [= <-]. auto.
  - destruct (gnutls_init E <? 0); [discriminate |].
    destruct (_ || _); [discriminate |]. intros [= <-]. auto.
Qed.

(** X10.  A handshake that fails ends the upgrade with False and without a
    session: the session is torn down exactly once, no close-notify is
    sent, the trust check is not reached (no file of the store changes and
    nobody is asked), and the socket stays open for the caller.  When the
    failure is a certificate verification error, GnuTLS is asked for the
    reason first; and when it cannot print the reason, the [CHECK] of that
    call ends the process instead, with the session still initialised and
    not torn down. *)
Theorem failed_handshake_tears_down (fuel : nat) (E : environment)
    (st st0 st1 : state) (err : Z) :
  tls_setup E st = Some st0 ->
  handshake_loop fuel E st0 = Some (err, st1) ->
  err < 0 ->
  (status_print_fails E err = false ->
   exists st',
     tcp_tls_connect fuel E st = Some (Return false, st') /\
     g_ssl_initialized st' = false /\
     teardowns (trace st') = S (teardowns (trace st)) /\
     (exists why, trace st' = EvTlsDeinit :: why ++ trace st1 /\
        (why = [] \/ why = [EvVerificationStatusPrint])) /\
     prompts (trace st') = prompts (trace st) /\
     files st' = files st /\
     g_sock st' = g_sock st /\
     g_network_error st' = g_network_error st) /\
  (status_print_fails E err = true ->
   tcp_tls_connect fuel E st =
     Some (Abort, emit EvVerificationStatusPrint st1) /\
   g_ssl_initialized st1 = true /\
   teardowns (trace st1) = teardowns (trace st)).
Proof.
  intros Hsetup Hloop Herr.
  pose proof (tls_setup_frame E st st0 Hsetup) as (Hi0 & Hn0 & Ht0).
  pose proof (tls_setup_events E st st0 Hsetup) as (He0 & Hf0 & Hs0).
  pose proof (handshake_loop_frame fuel E st0 st1 err Hloop)
    as (Hi1 & Hn1 & Ht1).
  destruct (handshake_loop_events fuel E st0 st1 err Hloop)
    as (_ & retried & Htr1 & _ & _ & Hf1 & Hs1).
  assert (Hprompts : prompts (trace st1) = prompts (trace st)).
  { rewrite Htr1, He0. unfold prompts. simpl.
    rewrite count_events_app.
    assert (Hm : count_events is_dialog (map EvHandshake retried) = 0%nat)
      by (clear; induction retried; simpl; auto).
    rewrite Hm, count_events_app.
    destruct (g_ssl_initialized st); reflexivity. }
  assert (Hlt : (err <? 0) = true) by (apply Z.ltb_lt; lia).
  unfold status_print_fails, tcp_tls_connect. rewrite Hsetup, Hloop, Hlt.
  split.
  - intros Hp. unfold tls_fail.
    destruct ((0x030406 <=? GNUTLS_VERSION_NUMBER (env_build E))
              && (err =? GNUTLS_E_CERTIFICATE_VERIFICATION_ERROR));
      cbn [andb] in Hp; rewrite ?Hp;
      cbn [g_ssl_initialized emit]; rewrite Hi1, Hi0;
      eexists; (split; [reflexivity |]); cbn;
      (split; [reflexivity |]);
      (split; [unfold teardowns in *; cbn; congruence |]).
    + split; [exists [EvVerificationStatusPrint];
              split; [reflexivity | now right] |].
      unfold prompts in *. cbn.
      split; [congruence | split; [congruence | split; congruence]].
    + split; [exists []; split; [reflexivity | now left] |].
      unfold prompts in *. cbn.
      split; [congruence | split; [congruence | split; congruence]].
  - intros Hp. apply andb_prop in Hp as [Hasked Hp]. rewrite Hasked, Hp.
    split; [reflexivity | split; congruence].
Qed.

Lemma failed_handshake_tears_down_witness :
  let E := staged_env false (Some "/home/user") (fun _ => -110)
             recv_two false [] 0 (fun _ => 0) in
  exists st',
    tcp_tls_connect 1 E initial_state = Some (Return false, st') /\
    g_ssl_initialized st' = false /\
    trace st' = [EvTlsDeinit; EvHandshake (-110); EvTlsInit].
Proof.
  intros E.
  destruct (failed_handshake_tears_down 1 E initial_state _ _ (-110)
              eq_refl eq_refl) as [Hfail _]; [lia |].
  destruct (Hfail eq_refl) as (st' & Hr & Hs & _).
  exists st'. split; [exact Hr | split; [exact Hs |]].
  now injection Hr as <-.
Defined.

(** X11.  [tcp_tls_connect] returns True only for a session that came
    through: the handshake ended with a non-negative result, and the
    trust check on the certificate of the peer returned 0; the session is
    then marked as initialised. *)
Theorem established_session_passed_the_trust_check (fuel : nat)
    (E : environment) (st st' : state) :
  tcp_tls_connect fuel E st = Some (Return true, st') ->
  g_ssl_initialized st' = true /\
  exists st0 st1 err,
    tls_setup E st = Some st0 /\
    handshake_loop fuel E st0 = Some (err, st1) /\
    0 <= err /\
    check_cert E (gnutls_session E) st1 = (Return 0, st').
Proof.
  unfold tcp_tls_connect.
  destruct (tls_setup E st) as [st0|] eqn:Hsetup; [| discriminate].
  destruct (handshake_loop fuel E st0) as [[err st1]|] eqn:Hloop;
    [| discriminate].
  pose proof (tls_setup_frame E st st0 Hsetup) as (Hi0 & _).
  pose proof (handshake_loop_frame fuel E st0 st1 err Hloop) as (Hi1 & _).
  destruct (err <? 0) eqn:Herr.
  - unfold tls_fail. intros H.
    destruct (_ && _);
      [destruct (gnutls_certificate_verification_status_print E <? 0) |];
      try discriminate; cbn [g_ssl_initialized emit] in H;
      rewrite Hi1, Hi0 in H; cbv iota in H; discriminate.
  - apply Z.ltb_ge in Herr.
    pose proof (check_cert_frame E (gnutls_session E) st1) as (Hi2 & _).
    destruct (check_cert E (gnutls_session E) st1) as [[rv| | |] st2]
      eqn:Hcheck; try discriminate.
    destruct (rv =? 0) eqn:Hrv; [| discriminate].
    apply Z.eqb_eq in Hrv. subst rv. intros [= <-].
    split; [cbn [snd] in Hi2; congruence |].
    exists st0, st1, err.
    split; [reflexivity | split; [exact Hloop | split; [lia | exact Hcheck]]].
Qed.

Lemma established_session_passed_the_trust_check_witness :
  let E := staged_env false (Some "/home/user") (fun _ => 0)
             recv_two false [] 0 (fun _ => 0) in
  exists st',
    tcp_tls_connect 1 E initial_state = Some (Return true, st') /\
    g_ssl_initialized st' = true.
Proof.
  intros E. eexists. split; [reflexivity |].
  apply (established_session_passed_the_trust_check 1 E initial_state).
  reflexivity.
Defined.

(** ** Sending *)

Section SendOrder.

Variable E : environment.
Variable data : list byte.

Local Abbreviation len := (Z.of_nat (length data)).

(** One round hands over a piece of the window, or nothing; it keeps the
    transport that is active, and uses no other. *)
Lemma tcp_send_step_order (total : Z) (st : state) :
  let other := if g_ssl_initialized st then is_plain_io else is_tls_io in
  match tcp_send_step E data len total st with
  | SendContinue total' st' =>
      total <= total' /\
      g_ssl_initialized st' = g_ssl_initialized st /\
      exists new, trace st' = new ++ trace st /\
        count_events other new = 0%nat /\
        transmitted new =
          take (Z.to_nat (total' - total)) (send_window data len total)
  | SendReturn st' =>
      g_ssl_initialized st' = g_ssl_initialized st /\
      exists new, trace st' = new ++ trace st /\
        count_events other new = 0%nat /\ transmitted new = []
  end.
Proof.
  unfold tcp_send_step, tcp_can_send.
  destruct (g_ssl_initialized st) eqn:Hssl.
  - destruct (gnutls_record_send E (trace st) _ <=? 0) eqn:Hs;
      [destruct (gnutls_error_is_fatal E _) |]; simpl.
    + apply Z.leb_le in Hs. split; [exact Hssl |]. eexists [_].
      split; [reflexivity | split; [reflexivity |]]. simpl.
      now replace (Z.to_nat (gnutls_record_send E (trace st) _)) with 0%nat
        by lia.
    + apply Z.leb_le in Hs.
      split; [lia |]. split; [exact Hssl |].
      eexists [_; _].
      split; [reflexivity | split; [reflexivity |]]. simpl.
      replace (Z.to_nat (total + 0 - total)) with 0%nat by lia.
      now replace (Z.to_nat (gnutls_record_send E (trace st) _)) with 0%nat
        by lia.
    + apply Z.leb_gt in Hs.
      split; [lia |]. split; [exact Hssl |].
      eexists [_]. split; [reflexivity | split; [reflexivity |]]. simpl.
      f_equal. lia.
  - destruct (os_send E (trace st) _) as [sent blocks] eqn:Hos.
    destruct (sent <=? 0) eqn:Hs;
      [destruct ((sent =? -1) && blocks) |]; simpl.
    + apply Z.leb_le in Hs.
      split; [lia |]. split; [exact Hssl |].
      eexists [_; _].
      split; [reflexivity | split; [reflexivity |]]. simpl.
      replace (Z.to_nat (total + 0 - total)) with 0%nat by lia.
      now replace (Z.to_nat sent) with 0%nat by lia.
    + apply Z.leb_le in Hs. split; [exact Hssl |]. eexists [_].
      split; [reflexivity | split; [reflexivity |]]. simpl.
      now replace (Z.to_nat sent) with 0%nat by lia.
    + apply Z.leb_gt in Hs.
      split; [lia |]. split; [exact Hssl |].
      eexists [_]. split; [reflexivity | split; [reflexivity |]]. simpl.
      f_equal. lia.
Qed.

Lemma tcp_send_loop_order (fuel : nat) (total : Z) (st st' : state) :
  0 <= total ->
  tcp_send_loop fuel E data len total st = Some st' ->
  let other := if g_ssl_initialized st then is_plain_io else is_tls_io in
  g_ssl_initialized st' = g_ssl_initialized st /\
  exists new n, trace st' = new ++ trace st /\
    count_events other new = 0%nat /\
    (Z.to_nat total <= n)%nat /\
    take (Z.to_nat total) data ++ transmitted new = take n data.
Proof.
  revert total st. induction fuel as [|fuel IH]; intros total st Ht;
    simpl; destruct (total <? len) eqn:Hlt; simpl; try discriminate.
  - intros [= Heq]; subst st'. split; [reflexivity |].
    exists [], (Z.to_nat total). simpl. rewrite app_nil_r. auto.
  - pose proof (tcp_send_step_order total st) as Hstep.
    destruct (tcp_send_step E data len total st) as [total' st1 | st1].
    + destruct Hstep as (Hle & Hssl & new0 & Htr0 & Hc0 & Hnew0).
      intros Hloop. apply IH in Hloop; [| lia].
      cbv zeta in Hloop. rewrite Hssl in Hloop.
      destruct Hloop as (Hssl' & new & n & Htr & Hc & Hn & Hpre).
      split; [exact Hssl' |].
      exists (new ++ new0), n.
      split; [now rewrite Htr, Htr0, app_assoc |].
      split; [rewrite count_events_app; lia |]. split; [lia |].
      rewrite transmitted_app, Hnew0, send_window_drop by lia.
      rewrite app_assoc, take_take_drop.
      now replace (Z.to_nat total + Z.to_nat (total' - total))%nat
        with (Z.to_nat total') by lia.
    + destruct Hstep as (Hssl & new0 & Htr0 & Hc0 & Hnew0).
      intros [= Heq]; subst st'. split; [exact Hssl |].
      exists new0, (Z.to_nat total). rewrite Hnew0, app_nil_r. auto.
  - intros [= Heq]; subst st'. split; [reflexivity |].
    exists [], (Z.to_nat total). simpl. rewrite app_nil_r. auto.
Qed.

End SendOrder.

(** X12.  What [tcp_send] hands to the transport is always an initial
    piece of the stream, in order and without repetition, also when it
    gives up half-way; and it goes through the transport that is active:
    with a TLS session nothing is written to the socket itself, and
    without one nothing is written to a session.  The choice of transport
    is not changed by the call. *)
Theorem tcp_send_transmits_a_prefix (fuel : nat) (E : environment)
    (s : stream) (st st' : state) :
  tcp_send fuel E s st = Some st' ->
  g_ssl_initialized st' = g_ssl_initialized st /\
  exists new n,
    trace st' = new ++ trace st /\
    transmitted new = take n (s_data s) /\
    count_events
      (if g_ssl_initialized st then is_plain_io else is_tls_io) new = 0%nat.
Proof.
  unfold tcp_send, s_end_offset. destruct (g_network_error st).
  - intros [= <-]. split; [reflexivity |]. now exists [], 0%nat.
  - intros Hloop.
    apply tcp_send_loop_order in Hloop as (Hssl & new & n & Htr & Hc & _ & Hp);
      [| lia].
    split; [exact Hssl |]. exists new, n. simpl in Hp. auto.
Qed.

Lemma tcp_send_transmits_a_prefix_witness :
  let E := scripted_env true (StatMode true) None
             {| certificate_type := 2; certificate_peers := [] |}
             send_half recv_nothing 0 in
  let s := {| s_size := 8; s_p := 0; s_data := [x01; x02; x03; x04] |} in
  exists st' new n,
    tcp_send 4 E s initial_state = Some st' /\
    trace st' = new ++ trace initial_state /\
    transmitted new = take n (s_data s).
Proof.
  intros E s.
  destruct (tcp_send_transmits_a_prefix 4 E s initial_state _ eq_refl)
    as (_ & new & n & Htr & Hp & _).
  eexists _, new, n. split; [reflexivity | split; [exact Htr | exact Hp]].
Defined.

(** X13.  The timeout [tcp_can_send] gives to [select] is the number of
    milliseconds it was asked for, split into whole seconds and
    microseconds below a second; it answers True exactly when [select]
    reports a descriptor. *)
Theorem tcp_can_send_timeout (E : environment) (millis : Z) (st : state) :
  0 <= millis <= 2147483 ->
  exists tv_sec tv_usec sel_count,
    tcp_can_send E millis st =
      (0 <? sel_count, emit (EvSelectWrite tv_sec tv_usec sel_count) st) /\
    sel_count = os_select_write E (trace st) millis /\
    0 <= tv_usec < 1000000 /\ 0 <= tv_sec /\
    tv_sec * 1000000 + tv_usec = millis * 1000.
Proof.
  intros Hm. unfold tcp_can_send.
  exists (Z.quot millis 1000), (Z.rem (millis * 1000) 1000000),
    (os_select_write E (trace st) millis).
  split; [reflexivity | split; [reflexivity |]].
  rewrite Z.quot_div_nonneg, Z.rem_mod_nonneg by lia.
  split; [apply Z.mod_pos_bound; lia |].
  split; [apply Z.div_pos; lia |].
  Z.div_mod_to_equations. lia.
Qed.

Lemma tcp_can_send_timeout_witness :
  let E := scripted_env true (StatMode true) None
             {| certificate_type := 2; certificate_peers := [] |}
             send_all recv_nothing 0 in
  exists tv_sec tv_usec sel_count,
    tcp_can_send E 100 initial_state =
      (0 <? sel_count,
       emit (EvSelectWrite tv_sec tv_usec sel_count) initial_state) /\
    tv_sec * 1000000 + tv_usec = 100 * 1000.
Proof.
  intros E.
  destruct (tcp_can_send_timeout E 100 initial_state)
    as (tv_sec & tv_usec & sel_count & Hr & _ & _ & _ & Hsum); [lia |].
  exists tv_sec, tv_usec, sel_count. split; [exact Hr | exact Hsum].
Defined.

(** ** Receiving *)

Section RecvGrowth.

Variable E : environment.

Lemma deref_assign (p : stream_ptr) (v : stream) (st : state) :
  deref (assign p v st).1 (assign p v st).2 = v /\
  (p = PtrIn <-> (assign p v st).1 = PtrIn).
Proof. destruct p; simpl; split; try reflexivity; split; discriminate. Qed.

(** The wait at the head of a round reads nothing and leaves the buffers
    alone. *)
Lemma recv_wait_events (st : state) :
  let r := recv_wait E st in
  g_in r.2 = g_in st /\
  g_ssl_initialized r.2 = g_ssl_initialized st /\
  g_network_error r.2 = g_network_error st /\
  g_run_ui r.2 = g_run_ui st /\
  exists new, trace r.2 = new ++ trace st /\
    count_events is_read new = 0%nat /\
    count_events is_plain_io new = 0%nat /\
    (g_ssl_initialized st = false -> count_events is_tls_io new = 0%nat).
Proof.
  unfold recv_wait.
  destruct (g_ssl_initialized st) eqn:Hssl; cbv beta iota zeta.
  - cbn [g_run_ui emit].
    destruct (_ && g_run_ui _); cbn; rewrite ?Hssl.
    + do 4 (split; [reflexivity |]). eexists [_; _].
      split; [reflexivity |]. split; [reflexivity |]. split; [reflexivity |].
      discriminate.
    + do 4 (split; [reflexivity |]). eexists [_].
      split; [reflexivity |]. split; [reflexivity |]. split; [reflexivity |].
      discriminate.
  - cbn [andb]. destruct (g_run_ui st) eqn:Hui; cbn; rewrite ?Hssl, ?Hui.
    + do 4 (split; [reflexivity |]). eexists [_].
      split; [reflexivity |]. split; [reflexivity |]. split; reflexivity.
    + do 4 (split; [reflexivity |]). exists [].
      split; [reflexivity |]. split; [reflexivity |]. split; reflexivity.
Qed.

Lemma uint32_small (z : Z) : 0 <= z < 2 ^ 32 -> uint32 z = z.
Proof. intros Hz. unfold uint32. now apply Z.mod_small. Qed.

(** A read that lets the loop go on has put as many bytes behind the
    content of the stream as it takes off the length that is left. *)
Lemma recv_read_grows (s : stream_ptr) (length : Z) (st : state) :
  reads_within_request E -> 0 < length < 2 ^ 32 ->
  match recv_read E s length st with
  | RecvContinue s' length' st' =>
      0 <= length' <= length /\ (s = PtrIn <-> s' = PtrIn) /\
      g_ssl_initialized st' = g_ssl_initialized st /\
      exists more,
        s_data (deref s' st') = s_data (deref s st) ++ more /\
        Z.of_nat (List.length more) = length - length' /\
        s_p (deref s' st') = s_p (deref s st) /\
        s_size (deref s' st') = s_size (deref s st)
  | RecvReturn st' => g_ssl_initialized st' = g_ssl_initialized st
  end.
Proof.
  intros Hwithin Hlen. destruct (Hwithin (trace st) length) as [Hos Htls].
  assert (Hkeep : forall st0 : state,
    g_ssl_initialized st0 = g_ssl_initialized st ->
    deref s st0 = deref s st ->
    0 <= length <= length /\ (s = PtrIn <-> s = PtrIn) /\
    g_ssl_initialized st0 = g_ssl_initialized st /\
    exists more,
      s_data (deref s st0) = s_data (deref s st) ++ more /\
      Z.of_nat (List.length more) = length - length /\
      s_p (deref s st0) = s_p (deref s st) /\
      s_size (deref s st0) = s_size (deref s st)).
  { intros st0 Hs0 Hd0. split; [lia |]. split; [reflexivity |].
    split; [exact Hs0 |]. exists []. rewrite Hd0, app_nil_r. simpl.
    split; [reflexivity | split; [lia | split; reflexivity]]. }
  assert (Hgrow : forall (rcvd : Z) (bytes : list byte) (st0 : state),
    0 <= rcvd <= length ->
    g_ssl_initialized st0 = g_ssl_initialized st ->
    deref s st0 = deref s st ->
    let r := assign s (s_append rcvd bytes (deref s st0)) st0 in
    0 <= uint32 (length - rcvd) <= length /\ (s = PtrIn <-> r.1 = PtrIn) /\
    g_ssl_initialized r.2 = g_ssl_initialized st /\
    exists more,
      s_data (deref r.1 r.2) = s_data (deref s st) ++ more /\
      Z.of_nat (List.length more) = length - uint32 (length - rcvd) /\
      s_p (deref r.1 r.2) = s_p (deref s st) /\
      s_size (deref r.1 r.2) = s_size (deref s st)).
  { intros rcvd bytes st0 Hr Hs0 Hd0 r. subst r.
    rewrite uint32_small by lia.
    destruct (deref_assign s (s_append rcvd bytes (deref s st0)) st0)
      as [Hd Hp].
    pose proof (assign_frame s (s_append rcvd bytes (deref s st0)) st0)
      as (_ & _ & Hs & _).
    split; [lia |]. split; [exact Hp |]. split; [cbv zeta in Hs; congruence |].
    rewrite Hd, Hd0. exists (resize (Z.to_nat rcvd) x00 bytes).
    split; [reflexivity |]. rewrite length_resize. simpl.
    split; [lia | split; reflexivity]. }
  unfold recv_read. destruct (g_ssl_initialized st) eqn:Hssl.
  - destruct (gnutls_record_recv E (trace st) length) as [rcvd bytes].
    simpl in Htls.
    destruct (rcvd <? 0) eqn:Hneg;
      [destruct (gnutls_error_is_fatal E rcvd) |].
    + exact Hssl.
    + rewrite Z.sub_0_r, uint32_small by lia. now apply Hkeep.
    + apply Z.ltb_ge in Hneg.
      specialize (Hgrow rcvd bytes (emit (EvRecordRecv length rcvd) st)).
      destruct (assign s _ _) as [s1 st1].
      apply Hgrow; [lia | exact Hssl | now destruct s].
  - destruct (os_recv E (trace st) length) as [[rcvd blocks] bytes].
    simpl in Hos.
    destruct (rcvd <? 0) eqn:Hneg;
      [destruct ((rcvd =? -1) && blocks) |].
    + rewrite Z.sub_0_r, uint32_small by lia. now apply Hkeep.
    + exact Hssl.
    + apply Z.ltb_ge in Hneg.
      destruct (rcvd =? 0); [exact Hssl |].
      specialize (Hgrow rcvd bytes (emit (EvRecv length rcvd) st)).
      destruct (assign s _ _) as [s1 st1].
      apply Hgrow; [lia | exact Hssl | now destruct s].
Qed.

Lemma tcp_recv_step_grows (s : stream_ptr) (length : Z) (st : state) :
  reads_within_request E -> 0 < length < 2 ^ 32 ->
  match tcp_recv_step E s length st with
  | RecvContinue s' length' st' =>
      0 <= length' <= length /\ (s = PtrIn <-> s' = PtrIn) /\
      g_ssl_initialized st' = g_ssl_initialized st /\
      exists more,
        s_data (deref s' st') = s_data (deref s st) ++ more /\
        Z.of_nat (List.length more) = length - length' /\
        s_p (deref s' st') = s_p (deref s st) /\
        s_size (deref s' st') = s_size (deref s st)
  | RecvReturn st' => g_ssl_initialized st' = g_ssl_initialized st
  end.
Proof.
  intros Hwithin Hlen. unfold tcp_recv_step.
  pose proof (recv_wait_events st) as (Hin & Hssl & _).
  destruct (recv_wait E st) as [cancelled st1]. simpl in Hin, Hssl.
  destruct cancelled; [exact Hssl |].
  pose proof (recv_read_grows s length st1 Hwithin Hlen) as Hread.
  assert (Hd : deref s st1 = deref s st) by (destruct s; simpl; congruence).
  destruct (recv_read E s length st1) as [s' length' st' | st'];
    rewrite ?Hd, ?Hssl in Hread; exact Hread.
Qed.

Lemma tcp_recv_loop_grows (fuel : nat) (s s' : stream_ptr) (length : Z)
    (st st' : state) :
  reads_within_request E -> 0 <= length < 2 ^ 32 ->
  tcp_recv_loop fuel E s length st = Some (Some s', st') ->
  (s = PtrIn <-> s' = PtrIn) /\
  exists more,
    s_data (deref s' st') = s_data (deref s st) ++ more /\
    Z.of_nat (List.length more) = length /\
    s_p (deref s' st') = s_p (deref s st) /\
    s_size (deref s' st') = s_size (deref s st).
Proof.
  intros Hwithin. revert s length st.
  induction fuel as [|fuel IH]; intros s length st Hlen;
    simpl; destruct (0 <? length) eqn:Hpos; simpl; try discriminate.
  - intros [= <- <-]. apply Z.ltb_ge in Hpos. split; [reflexivity |].
    exists []. rewrite app_nil_r. simpl.
    split; [reflexivity | split; [lia | split; reflexivity]].
  - apply Z.ltb_lt in Hpos.
    pose proof (tcp_recv_step_grows s length st Hwithin) as Hstep.
    destruct (tcp_recv_step E s length st) as [s1 length1 st1 | st1];
      [| discriminate].
    destruct Hstep as (Hl1 & Hp1 & _ & more1 & Hd1 & Hn1 & Hpp1 & Hs1);
      [lia |].
    intros Hloop. apply IH in Hloop as (Hp2 & more2 & Hd2 & Hn2 & Hpp2 & Hs2);
      [| lia].
    split; [now rewrite Hp1 |]. exists (more1 ++ more2).
    rewrite Hd2, Hd1, <- app_assoc, length_app.
    split; [reflexivity |]. split; [lia |]. split; congruence.
  - intros [= <- <-]. apply Z.ltb_ge in Hpos. split; [reflexivity |].
    exists []. rewrite app_nil_r. simpl.
    split; [reflexivity | split; [lia | split; reflexivity]].
Qed.

End RecvGrowth.

(** X14.  A message read into a new stream.  When [tcp_recv] is given no
    stream and returns one, it is [g_in], holding exactly the number of
    bytes asked for, with the read cursor at the start; the buffer was
    enlarged to that number if it was smaller, never shrunk, and its
    content lies within its capacity. *)
Theorem tcp_recv_fills_a_new_stream (fuel : nat) (E : environment)
    (length : Z) (st st' : state) (p : stream_ptr) :
  reads_within_request E -> 0 <= length < 2 ^ 32 ->
  tcp_recv fuel E None length st = Some (Some p, st') ->
  p = PtrIn /\
  s_end_offset (g_in st') = length /\
  s_p (g_in st') = 0 /\
  s_size (g_in st') = Z.max (s_size (g_in st)) length /\
  s_end_offset (g_in st') <= s_size (g_in st').
Proof.
  intros Hwithin Hlen. unfold tcp_recv.
  destruct (g_network_error st); [discriminate |].
  cbn [recv_prepare]. intros Hloop.
  apply (tcp_recv_loop_grows E) in Hloop
    as (Hp & more & Hd & Hn & Hpp & Hs); try assumption.
  assert (Hpin : p = PtrIn) by (apply Hp; reflexivity). subst p.
  simpl in Hd, Hpp, Hs.
  unfold s_end_offset. rewrite Hd, Hpp, Hs, Hn.
  split; [reflexivity |]. split; [reflexivity |]. split; [reflexivity |].
  destruct (s_size (g_in st) <? length) eqn:Hlt;
    [apply Z.ltb_lt in Hlt | apply Z.ltb_ge in Hlt]; lia.
Qed.

Lemma tcp_recv_fills_a_new_stream_witness :
  let E := staged_env false (Some "/home/user") (fun _ => 0) recv_two false
             [] 0 (fun _ => 0) in
  exists st',
    tcp_recv 4 E None 5 initial_state = Some (Some PtrIn, st') /\
    s_end_offset (g_in st') = 5 /\ s_size (g_in st') = 5.
Proof.
  intros E. eexists. split; [reflexivity |].
  match goal with
  | |- s_end_offset (g_in ?st') = _ /\ _ =>
      destruct (tcp_recv_fills_a_new_stream 4 E 5 initial_state st' PtrIn)
        as (_ & Hend & _ & Hsize & _)
  end.
  - intros t len. split; simpl; lia.
  - lia.
  - reflexivity.
  - split; [exact Hend | exact Hsize].
Defined.

(** X15.  A message appended to a stream.  When [tcp_recv] is given a
    stream and returns, it returns that stream, with exactly the number of
    bytes asked for behind the bytes it held; these and the offset of the
    read cursor are as they were, also when the buffer had to grow.  The
    capacity is the larger of what it was and what is needed, so that a
    stream whose content lay within its capacity still does. *)
Theorem tcp_recv_appends (fuel : nat) (E : environment) (p0 p : stream_ptr)
    (length : Z) (st st' : state) :
  reads_within_request E ->
  0 <= length -> s_end_offset (deref p0 st) + length < 2 ^ 32 ->
  tcp_recv fuel E (Some p0) length st = Some (Some p, st') ->
  let s := deref p0 st in
  (p0 = PtrIn <-> p = PtrIn) /\
  exists more,
    deref p st' =
      {| s_size := Z.max (s_size s) (s_end_offset s + length);
         s_p := s_p s; s_data := s_data s ++ more |} /\
    Z.of_nat (List.length more) = length /\
    (s_end_offset s <= s_size s ->
     s_end_offset (deref p st') <= s_size (deref p st')).
Proof.
  intros Hwithin Hlen Hfit. unfold tcp_recv.
  destruct (g_network_error st); [discriminate |].
  set (s := deref p0 st) in *.
  assert (Hend : 0 <= s_end_offset s) by (unfold s_end_offset; lia).
  assert (Hprep :
    let r := recv_prepare (Some p0) length st in
    (p0 = PtrIn <-> r.1 = PtrIn) /\
    deref r.1 r.2 =
      {| s_size := Z.max (s_size s) (s_end_offset s + length);
         s_p := s_p s; s_data := s_data s |}).
  { cbn [recv_prepare]. fold s. rewrite uint32_small by lia.
    destruct (s_size s <? s_end_offset s + length) eqn:Hlt; cbv zeta.
    - apply Z.ltb_lt in Hlt. rewrite Z.max_r by lia.
      match goal with
      | |- context [assign p0 ?v st] =>
          destruct (deref_assign p0 v st) as [Hd Hk]
      end.
      split; [exact Hk | exact Hd].
    - apply Z.ltb_ge in Hlt. rewrite Z.max_l by lia.
      split; [reflexivity |]. cbn [fst snd]. fold s. now destruct s. }
  destruct (recv_prepare (Some p0) length st) as [p1 st1].
  cbv zeta in Hprep. cbn [fst snd] in Hprep. destruct Hprep as [Hk1 Hd1].
  intros Hloop.
  apply (tcp_recv_loop_grows E) in Hloop
    as (Hk & more & Hd & Hn & Hpp & Hs); [| assumption | lia].
  rewrite Hd1 in Hd, Hpp, Hs. simpl in Hd, Hpp, Hs.
  split; [now rewrite Hk1 |]. exists more.
  split; [destruct (deref p st'); simpl in *; congruence |].
  split; [exact Hn |].
  intros Hin. unfold s_end_offset in *. rewrite Hd, Hs, length_app. lia.
Qed.

Lemma tcp_recv_appends_witness :
  let E := staged_env false (Some "/home/user") (fun _ => 0) recv_two false
             [] 0 (fun _ => 0) in
  let s := {| s_size := 2; s_p := 1; s_data := [x01; x02] |} in
  exists st' more,
    tcp_recv 4 E (Some (PtrCaller s)) 3 initial_state =
      Some (Some (PtrCaller {| s_size := 5; s_p := 1;
                               s_data := [x01; x02] ++ more |}), st') /\
    length more = 3%nat.
Proof.
  intros E s.
  destruct (tcp_recv 4 E (Some (PtrCaller s)) 3 initial_state)
    as [[[p|] st']|] eqn:Hrun; try discriminate.
  destruct (tcp_recv_appends 4 E (PtrCaller s) p 3 initial_state st')
    as (_ & more & Hp & Hlen & _).
  - intros t len. split; simpl; lia.
  - lia.
  - reflexivity.
  - exact Hrun.
  - exists st', more. split; [| lia].
    destruct p as [|v]; [discriminate Hrun |].
    simpl in Hp. now rewrite Hp.
Defined.

Section RecvEvents.

Variable E : environment.

Lemma recv_read_events (s : stream_ptr) (length : Z) (st : state) :
  let other := if g_ssl_initialized st then is_plain_io else is_tls_io in
  let after st' :=
    g_ssl_initialized st' = g_ssl_initialized st /\
    exists new, trace st' = new ++ trace st /\
      count_events other new = 0%nat in
  match recv_read E s length st with
  | RecvContinue _ _ st' => after st'
  | RecvReturn st' => after st'
  end.
Proof.
  assert (Hassign : forall (v : stream) (st0 : state) (e : event),
    g_ssl_initialized st0 = g_ssl_initialized st ->
    trace st0 = e :: trace st ->
    (if g_ssl_initialized st then is_plain_io else is_tls_io) e = false ->
    let st' := (assign s v st0).2 in
    g_ssl_initialized st' = g_ssl_initialized st /\
    exists new, trace st' = new ++ trace st /\
      count_events (if g_ssl_initialized st then is_plain_io else is_tls_io)
        new = 0%nat).
  { intros v st0 e Hs0 Ht0 He.
    pose proof (assign_frame s v st0) as (_ & _ & Hs & _ & Ht).
    cbv zeta in *. split; [congruence |]. exists [e].
    split; [now rewrite Ht, Ht0 |]. simpl. now rewrite He. }
  unfold recv_read. destruct (g_ssl_initialized st) eqn:Hssl.
  - destruct (gnutls_record_recv E (trace st) length) as [rcvd bytes].
    destruct (rcvd <? 0); [destruct (gnutls_error_is_fatal E rcvd) |];
      try (simpl; split; [exact Hssl | now eexists [_]]).
    specialize (Hassign (s_append rcvd bytes
                           (deref s (emit (EvRecordRecv length rcvd) st)))
                  (emit (EvRecordRecv length rcvd) st)
                  (EvRecordRecv length rcvd) Hssl eq_refl eq_refl).
    destruct (assign s _ _) as [s1 st1]. exact Hassign.
  - destruct (os_recv E (trace st) length) as [[rcvd blocks] bytes].
    destruct (rcvd <? 0); [destruct ((rcvd =? -1) && blocks) |];
      try (simpl; split; [exact Hssl | now eexists [_]]).
    destruct (rcvd =? 0);
      [simpl; split; [exact Hssl | now eexists [_]] |].
    specialize (Hassign (s_append rcvd bytes
                           (deref s (emit (EvRecv length rcvd) st)))
                  (emit (EvRecv length rcvd) st)
                  (EvRecv length rcvd) Hssl eq_refl eq_refl).
    destruct (assign s _ _) as [s1 st1]. exact Hassign.
Qed.

Lemma tcp_recv_step_events (s : stream_ptr) (length : Z) (st : state) :
  let other := if g_ssl_initialized st then is_plain_io else is_tls_io in
  let after st' :=
    g_ssl_initialized st' = g_ssl_initialized st /\
    exists new, trace st' = new ++ trace st /\
      count_events other new = 0%nat in
  match tcp_recv_step E s length st with
  | RecvContinue _ _ st' => after st'
  | RecvReturn st' => after st'
  end.
Proof.
  unfold tcp_recv_step.
  pose proof (recv_wait_events E st)
    as (_ & Hssl & _ & _ & new0 & Htr0 & _ & Hplain & Htls).
  destruct (recv_wait E st) as [cancelled st1]. cbn [fst snd] in *.
  assert (Hc0 : count_events
                  (if g_ssl_initialized st then is_plain_io else is_tls_io)
                  new0 = 0%nat)
    by (destruct (g_ssl_initialized st); auto).
  destruct cancelled; [split; [exact Hssl | eauto] |].
  pose proof (recv_read_events s length st1) as Hread. cbv zeta in Hread.
  rewrite Hssl in Hread.
  destruct (recv_read E s length st1) as [s' length' st' | st'];
    destruct Hread as (Hs & new & Htr & Hc);
    (split; [exact Hs |]); exists (new ++ new0);
    (split; [now rewrite Htr, Htr0, app_assoc |]);
    rewrite count_events_app; lia.
Qed.

Lemma tcp_recv_loop_events (fuel : nat) (s : stream_ptr) (length : Z)
    (st st' : state) (r : option stream_ptr) :
  tcp_recv_loop fuel E s length st = Some (r, st') ->
  g_ssl_initialized st' = g_ssl_initialized st /\
  exists new, trace st' = new ++ trace st /\
    count_events (if g_ssl_initialized st then is_plain_io else is_tls_io)
      new = 0%nat.
Proof.
  revert s length st. induction fuel as [|fuel IH]; intros s length st;
    simpl; destruct (0 <? length); simpl; try discriminate;
    try (intros [= <- <-]; split; [reflexivity | now exists []]).
  pose proof (tcp_recv_step_events s length st) as Hstep. cbv zeta in Hstep.
  destruct (tcp_recv_step E s length st) as [s1 length1 st1 | st1];
    destruct Hstep as (Hs1 & new1 & Htr1 & Hc1).
  - intros Hloop. apply IH in Hloop as (Hs & new & Htr & Hc).
    rewrite Hs1 in Hs, Hc. split; [exact Hs |]. exists (new ++ new1).
    split; [now rewrite Htr, Htr1, app_assoc |].
    rewrite count_events_app. lia.
  - intros [= <- <-]. split; [exact Hs1 | eauto].
Qed.

End RecvEvents.

(** X16.  [tcp_recv] reads through the transport that is active, and
    through no other: with a TLS session nothing is read from the socket
    itself, and without one the session is neither read nor asked for
    pending data.  The choice of transport is not changed by the call. *)
Theorem tcp_recv_keeps_to_the_transport (fuel : nat) (E : environment)
    (s r : option stream_ptr) (length : Z) (st st' : state) :
  tcp_recv fuel E s length st = Some (r, st') ->
  g_ssl_initialized st' = g_ssl_initialized st /\
  exists new, trace st' = new ++ trace st /\
    count_events (if g_ssl_initialized st then is_plain_io else is_tls_io)
      new = 0%nat.
Proof.
  unfold tcp_recv. destruct (g_network_error st).
  - intros [= <- <-]. split; [reflexivity | now exists []].
  - pose proof (recv_prepare_frame s length st) as (_ & _ & Hs & _ & Ht).
    destruct (recv_prepare s length st) as [p1 st1]. cbn [snd] in Hs, Ht.
    intros Hloop. apply tcp_recv_loop_events in Hloop.
    now rewrite Hs, Ht in Hloop.
Qed.

Lemma tcp_recv_keeps_to_the_transport_witness :
  let E := staged_env false (Some "/home/user") (fun _ => 0) recv_two false
             [] 0 (fun _ => 0) in
  let st := set_ssl_initialized true initial_state in
  exists st' new,
    tcp_recv 4 E None 3 st = Some (Some PtrIn, st') /\
    trace st' = new ++ trace st /\
    count_events is_plain_io new = 0%nat.
Proof.
  intros E st.
  destruct (tcp_recv_keeps_to_the_transport 4 E None _ 3 st _ eq_refl)
    as (_ & new & Htr & Hc).
  eexists _, new. split; [reflexivity | split; [exact Htr | exact Hc]].
Defined.

(** X17.  Leaving the main loop.  Under the event loop of the user
    interface, when the request to leave the main loop is made while
    [tcp_recv] waits, it returns NULL at once: nothing is read from the
    transport, and the network-error flag stays clear. *)
Theorem cancelled_recv_reads_nothing (fuel : nat) (E : environment)
    (s : option stream_ptr) (length : Z) (st : state) :
  g_network_error st = false ->
  g_run_ui st = true ->
  0 < length ->
  (forall t, gnutls_record_check_pending E t <= 0) ->
  (forall t, ui_select E t = true) ->
  exists st' new,
    tcp_recv (S fuel) E s length st = Some (None, st') /\
    trace st' = new ++ trace st /\
    count_events is_read new = 0%nat /\
    g_exit_mainloop st' = true /\
    g_network_error st' = false.
Proof.
  intros Hflag Hui Hlen Hpending Hquit. unfold tcp_recv. rewrite Hflag.
  pose proof (recv_prepare_frame s length st) as (Hf & _ & _ & Hu & Ht).
  destruct (recv_prepare s length st) as [p1 st1]. cbn [snd] in Hf, Hu, Ht.
  cbn [tcp_recv_loop].
  assert (Hpos : (0 <? length) = true) by (apply Z.ltb_lt; lia).
  rewrite Hpos. cbn [negb]. unfold tcp_recv_step, recv_wait.
  destruct (g_ssl_initialized st1).
  - assert (Hp : (gnutls_record_check_pending E (trace st1) <=? 0) = true)
      by (apply Z.leb_le; apply Hpending).
    rewrite Hp. cbn [g_run_ui emit andb]. rewrite Hu, Hui, Hquit. cbn.
    eexists _, [_; _]. split; [reflexivity |]. cbn. rewrite Ht.
    split; [reflexivity |]. split; [reflexivity |].
    split; [reflexivity |]. congruence.
  - cbn [andb]. rewrite Hu, Hui, Hquit. cbn.
    eexists _, [_]. split; [reflexivity |]. cbn. rewrite Ht.
    split; [reflexivity |]. split; [reflexivity |].
    split; [reflexivity |]. congruence.
Qed.

Lemma cancelled_recv_reads_nothing_witness :
  let E := staged_env false (Some "/home/user") (fun _ => 0) recv_two true
             [] 0 (fun _ => 0) in
  exists st',
    tcp_recv 1 E None 4 (tcp_run_ui true initial_state) = Some (None, st') /\
    g_network_error st' = false.
Proof.
  intros E.
  destruct (cancelled_recv_reads_nothing 0 E None 4
              (tcp_run_ui true initial_state))
    as (st' & new & Hr & _ & _ & _ & Hflag).
  - reflexivity.
  - reflexivity.
  - lia.
  - intros t. simpl. lia.
  - intros t. reflexivity.
  - exists st'. split; [exact Hr | exact Hflag].
Defined.

(** X18.  The end of a TLS stream is not noticed.  Through a TLS session a
    read of no bytes is not taken for a disconnection, as it is on the
    socket itself: the round changes neither the stream nor the length
    that is left, and the loop goes on.  With a session that has nothing
    more to give, [tcp_recv] does not return, however many rounds it is
    given. *)
Theorem tls_end_of_stream_is_not_noticed (E : environment)
    (s : option stream_ptr) (length : Z) (st : state) :
  g_network_error st = false ->
  g_ssl_initialized st = true ->
  0 < length < 2 ^ 32 ->
  (forall t len, (gnutls_record_recv E t len).1 = 0) ->
  (forall t, ui_select E t = false) ->
  forall fuel, tcp_recv fuel E s length st = None.
Proof.
  intros Hflag Hssl Hlen Hzero Hstay fuel. unfold tcp_recv. rewrite Hflag.
  pose proof (recv_prepare_frame s length st) as (_ & _ & Hs & _).
  destruct (recv_prepare s length st) as [p1 st1]. cbn [snd] in Hs.
  rewrite Hssl in Hs. clear Hssl Hflag s st.
  revert p1 st1 Hs. induction fuel as [|fuel IH]; intros p st Hssl;
    cbn [tcp_recv_loop];
    assert (Hpos : (0 <? length) = true) by (apply Z.ltb_lt; lia);
    rewrite Hpos; cbn [negb]; [reflexivity |].
  assert (Hstep : exists p' st',
    tcp_recv_step E p length st = RecvContinue p' length st' /\
    g_ssl_initialized st' = true).
  { unfold tcp_recv_step.
    assert (Hwait : exists st1,
      recv_wait E st = (false, st1) /\ g_ssl_initialized st1 = true).
    { unfold recv_wait. rewrite Hssl. cbv beta iota zeta.
      destruct (_ && _).
      - cbn [g_exit_mainloop set_exit_mainloop]. rewrite Hstay.
        eexists. split; [reflexivity | exact Hssl].
      - eexists. split; [reflexivity | exact Hssl]. }
    destruct Hwait as (st1 & -> & Hssl1). unfold recv_read. rewrite Hssl1.
    pose proof (Hzero (trace st1) length) as Hz.
    destruct (gnutls_record_recv E (trace st1) length) as [rcvd bytes].
    simpl in Hz. subst rcvd. cbn [Z.ltb Z.compare].
    match goal with
    | |- context [assign p ?v ?s0] =>
        pose proof (assign_frame p v s0) as (_ & _ & Ha & _);
        destruct (assign p v s0) as [p' st']
    end.
    exists p', st'. rewrite Z.sub_0_r, uint32_small by lia.
    split; [reflexivity |]. cbn [snd] in Ha. now rewrite Ha. }
  destruct Hstep as (p' & st' & -> & Hssl'). now apply IH.
Qed.

Lemma tls_end_of_stream_is_not_noticed_witness :
  let E := staged_env false (Some "/home/user") (fun _ => 0)
             (fun _ _ => (0, [])) false [] 0 (fun _ => 0) in
  tcp_recv 1000 E None 4 (set_ssl_initialized true initial_state) = None.
Proof.
  intros E.
  apply (tls_end_of_stream_is_not_noticed E None 4
           (set_ssl_initialized true initial_state)).
  - reflexivity.
  - reflexivity.
  - lia.
  - intros t len. reflexivity.
  - intros t. reflexivity.
Defined.

Section RecvProgress.

Variable E : environment.
Hypothesis Hdelivers : delivers E.
Hypothesis Hstays : stays_in_main_loop E.

Lemma recv_wait_stays (st : state) :
  exists st1,
    recv_wait E st = (false, st1) /\
    g_network_error st1 = g_network_error st.
Proof.
  unfold recv_wait.
  destruct (g_ssl_initialized st); cbv beta iota zeta;
    destruct (_ && _); cbv zeta;
    cbn [g_exit_mainloop set_exit_mainloop]; rewrite ?Hstays;
    eexists; split; reflexivity.
Qed.

(** With such a transport every round takes at least one byte off the
    length that is left, and none sets the flag. *)
Lemma tcp_recv_step_progress (s : stream_ptr) (length : Z) (st : state) :
  0 < length < 2 ^ 32 ->
  exists s' length' st',
    tcp_recv_step E s length st = RecvContinue s' length' st' /\
    0 <= length' < length /\
    g_network_error st' = g_network_error st.
Proof.
  intros Hlen. unfold tcp_recv_step.
  destruct (recv_wait_stays st) as (st1 & -> & Hflag).
  destruct (Hdelivers (trace st1) length) as [Hos Htls]; [lia |].
  unfold recv_read. destruct (g_ssl_initialized st1).
  - destruct (gnutls_record_recv E (trace st1) length) as [rcvd bytes].
    simpl in Htls.
    assert (Hneg : (rcvd <? 0) = false) by (apply Z.ltb_ge; lia).
    rewrite Hneg.
    match goal with
    | |- context [assign s ?v ?s0] =>
        pose proof (assign_frame s v s0) as (Ha & _);
        destruct (assign s v s0) as [s' st']
    end.
    exists s', (uint32 (length - rcvd)), st'.
    split; [reflexivity |]. rewrite uint32_small by lia.
    split; [lia |]. cbn [snd] in Ha. now rewrite Ha.
  - destruct (os_recv E (trace st1) length) as [[rcvd blocks] bytes].
    simpl in Hos.
    assert (Hneg : (rcvd <? 0) = false) by (apply Z.ltb_ge; lia).
    assert (Hz : (rcvd =? 0) = false) by (apply Z.eqb_neq; lia).
    rewrite Hneg, Hz.
    match goal with
    | |- context [assign s ?v ?s0] =>
        pose proof (assign_frame s v s0) as (Ha & _);
        destruct (assign s v s0) as [s' st']
    end.
    exists s', (uint32 (length - rcvd)), st'.
    split; [reflexivity |]. rewrite uint32_small by lia.
    split; [lia |]. cbn [snd] in Ha. now rewrite Ha.
Qed.

Lemma tcp_recv_loop_returns (fuel : nat) (s : stream_ptr) (length : Z)
    (st : state) :
  0 <= length < 2 ^ 32 -> length <= Z.of_nat fuel ->
  exists s' st',
    tcp_recv_loop fuel E s length st = Some (Some s', st') /\
    g_network_error st' = g_network_error st.
Proof.
  revert s length st. induction fuel as [|fuel IH]; intros s length st Hl Hf;
    cbn [tcp_recv_loop]; destruct (0 <? length) eqn:Hpos; cbn [negb];
    try (now eexists _, _); [apply Z.ltb_lt in Hpos; lia |].
  apply Z.ltb_lt in Hpos.
  destruct (tcp_recv_step_progress s length st)
    as (s1 & length1 & st1 & -> & Hl1 & Hflag1); [lia |].
  destruct (IH s1 length1 st1) as (s' & st' & Hloop & Hflag); [lia | lia |].
  exists s', st'. split; [exact Hloop | congruence].
Qed.

End RecvProgress.

(** X19.  [tcp_recv] returns what was asked for.  Over a transport that
    gives at least one byte to every read, and with no request to leave
    the main loop, [tcp_recv] returns a stream after at most as many
    rounds as bytes were asked for, and the network-error flag stays
    clear. *)
Theorem tcp_recv_returns_the_message (fuel : nat) (E : environment)
    (s : option stream_ptr) (length : Z) (st : state) :
  delivers E -> stays_in_main_loop E ->
  g_network_error st = false ->
  0 <= length < 2 ^ 32 -> length <= Z.of_nat fuel ->
  exists p st',
    tcp_recv fuel E s length st = Some (Some p, st') /\
    g_network_error st' = false.
Proof.
  intros Hd Hs Hflag Hlen Hfuel. unfold tcp_recv. rewrite Hflag.
  pose proof (recv_prepare_frame s length st) as (Hf & _).
  destruct (recv_prepare s length st) as [p1 st1]. cbn [snd] in Hf.
  destruct (tcp_recv_loop_returns E Hd Hs fuel p1 length st1 Hlen Hfuel)
    as (p & st' & Hloop & Hflag').
  exists p, st'. split; [exact Hloop | congruence].
Qed.

Lemma tcp_recv_returns_the_message_witness :
  let E := staged_env false (Some "/home/user") (fun _ => 0) recv_two false
             [] 0 (fun _ => 0) in
  exists p st', tcp_recv 5 E None 5 initial_state = Some (Some p, st').
Proof.
  intros E.
  destruct (tcp_recv_returns_the_message 5 E None 5 initial_state)
    as (p & st' & Hr & _).
  - intros t len Hlen. split; simpl; lia.
  - intros t. reflexivity.
  - reflexivity.
  - lia.
  - lia.
  - now exists p, st'.
Defined.

(** ** Connecting and disconnecting *)

Lemma reset_slots (f : stream -> stream) (m k : nat) (l : list stream)
    (j : nat) :
  foldl (fun out i => alter f i out) l (seq k m) !! j =
    if decide (k <= j < k + m)%nat then f <$> l !! j else l !! j.
Proof.
  revert k l. induction m as [|m IH]; intros k l.
  - simpl. destruct (decide _); [lia | reflexivity].
  - cbn [seq foldl]. rewrite IH.
    destruct (decide (j = k)) as [-> | Hne].
    + rewrite decide_False by lia. rewrite decide_True by lia.
      apply list_lookup_alter_eq.
    + rewrite list_lookup_alter_ne by congruence.
      destruct (decide (S k <= j < S k + m)%nat);
        [rewrite decide_True by lia | rewrite decide_False by lia];
        reflexivity.
Qed.

(** The loops over [g_out]: the first [STREAM_COUNT] elements are dealt
    with, each by itself. *)
Lemma for_each_out_lookup (E : environment) (f : stream -> stream)
    (l : list stream) (j : nat) :
  for_each_out E f l !! j =
    if decide (j < STREAM_COUNT (env_build E))%nat
    then f <$> l !! j else l !! j.
Proof.
  unfold for_each_out. rewrite reset_slots.
  destruct (decide (0 <= j < 0 + _)%nat), (decide (j < _)%nat);
    try reflexivity; lia.
Qed.

Lemma for_each_out_length (E : environment) (f : stream -> stream)
    (l : list stream) :
  length (for_each_out E f l) = length l.
Proof.
  unfold for_each_out. generalize (seq 0 (STREAM_COUNT (env_build E))).
  intros idx. revert l. induction idx as [|i idx IH]; intros l;
    [reflexivity |].
  cbn [foldl]. now rewrite IH, length_alter.
Qed.

Lemma for_each_out_fmap (E : environment) (f : stream -> stream)
    (l : list stream) :
  length l = STREAM_COUNT (env_build E) -> for_each_out E f l = f <$> l.
Proof.
  intros Hl. apply list_eq. intros j.
  rewrite for_each_out_lookup, list_lookup_fmap.
  destruct (decide _) as [Hin | Hout]; [reflexivity |].
  rewrite lookup_ge_None_2 by lia. reflexivity.
Qed.


Section ConnectSockets.

Variable E : environment.

Local Abbreviation opened := sockets_opened.
Local Abbreviation closed := sockets_closed.

Lemma sockets_app (new old : list event) :
  opened (new ++ old) = (opened new + opened old)%nat /\
  closed (new ++ old) = (closed new + closed old)%nat.
Proof. split; apply count_events_app. Qed.

(** What the loop over the candidates does with sockets: each one it
    opens it closes again, but the one it connects, and the one it holds
    when [getnameinfo] fails. *)
Ltac frame_refl :=
  split; [reflexivity | split; [reflexivity | split; reflexivity]].

Lemma try_candidates_sockets (addrs : list addrinfo) (st : state) :
  let frame st' :=
    g_ssl_initialized st' = g_ssl_initialized st /\
    files st' = files st /\ g_in st' = g_in st /\ g_out st' = g_out st in
  match try_candidates E addrs st with
  | CandidateConnected addr st' =>
      frame st' /\ 0 <= g_sock st' /\
      exists new, trace st' = EvConnect 0 :: new ++ trace st /\
        opened new = S (closed new)
  | CandidatesExhausted st' =>
      frame st' /\ (g_sock st' < 0 \/ g_sock st' = g_sock st) /\
      exists new, trace st' = new ++ trace st /\ opened new = closed new
  | CandidateGetnameinfoFailed st' =>
      frame st' /\ 0 <= g_sock st' /\
      exists new n, trace st' = EvGetnameinfo n :: new ++ trace st /\
        n <> 0 /\ opened new = S (closed new)
  end.
Proof.
  revert st. induction addrs as [|addr rest IH]; intros st; cbv zeta.
  - simpl. split; [frame_refl |]. split; [now right |]. now exists [].
  - simpl. destruct (os_socket E (trace st) <? 0) eqn:Hfd.
    + specialize (IH (set_sock (os_socket E (trace st))
                        (emit (EvSocket (os_socket E (trace st))) st))).
      cbv zeta in IH. simpl in IH. apply Z.ltb_lt in Hfd.
      assert (Hop : opened [EvSocket (os_socket E (trace st))] = 0%nat).
      { unfold sockets_opened. simpl.
        destruct (0 <=? _) eqn:H0; [apply Z.leb_le in H0; lia |].
        reflexivity. }
      destruct (try_candidates E rest _) as [a st' | st' | st'].
      * destruct IH as (Hf & Hs & new & Htr & Hc). split; [exact Hf |].
        split; [exact Hs |]. exists (new ++ [EvSocket (os_socket E (trace st))]).
        split; [now rewrite Htr, <- app_assoc |].
        rewrite !(proj1 (sockets_app _ _)), !(proj2 (sockets_app _ _)), Hop.
        unfold sockets_opened, sockets_closed in *. simpl. lia.
      * destruct IH as (Hf & Hs & new & Htr & Hc). split; [exact Hf |].
        split; [lia |]. exists (new ++ [EvSocket (os_socket E (trace st))]).
        split; [now rewrite Htr, <- app_assoc |].
        rewrite !(proj1 (sockets_app _ _)), !(proj2 (sockets_app _ _)), Hop.
        unfold sockets_opened, sockets_closed in *. simpl. lia.
      * destruct IH as (Hf & Hs & new & n & Htr & Hn & Hc). split; [exact Hf |].
        split; [exact Hs |].
        exists (new ++ [EvSocket (os_socket E (trace st))]), n.
        split; [now rewrite Htr, <- app_assoc |]. split; [exact Hn |].
        rewrite !(proj1 (sockets_app _ _)), !(proj2 (sockets_app _ _)), Hop.
        unfold sockets_opened, sockets_closed in *. simpl. lia.
    + apply Z.ltb_ge in Hfd.
      assert (Hop : opened [EvSocket (os_socket E (trace st))] = 1%nat).
      { unfold sockets_opened. simpl.
        destruct (0 <=? _) eqn:H0; [reflexivity |].
        apply Z.leb_gt in H0. lia. }
      destruct (negb _) eqn:Hn.
      * apply negb_true_iff, Z.eqb_neq in Hn.
        simpl. split; [frame_refl |]. split; [exact Hfd |].
        eexists [_], _. split; [reflexivity |].
        split; [exact Hn |]. rewrite Hop. reflexivity.
      * destruct (os_connect_addrinfo E _ addr =? 0) eqn:Hrv.
        -- apply Z.eqb_eq in Hrv. simpl. split; [frame_refl |].
           split; [exact Hfd |]. eexists [_; _]. rewrite Hrv.
           split; [reflexivity |].
           unfold sockets_opened, sockets_closed in *. simpl in Hop |- *. lia.
        -- match goal with
           | |- context [try_candidates E rest ?s0] => specialize (IH s0)
           end.
           cbv zeta in IH. simpl in IH.
           destruct (try_candidates E rest _) as [a st' | st' | st'].
           ++ destruct IH as (Hf & Hs & new & Htr & Hc). split; [exact Hf |].
              split; [exact Hs |]. eexists (new ++ [_; _; _; _]).
              split; [rewrite Htr, <- app_assoc; reflexivity |].
              rewrite !(proj1 (sockets_app _ _)), !(proj2 (sockets_app _ _)).
              unfold sockets_opened, sockets_closed in *. simpl in Hop |- *. lia.
           ++ destruct IH as (Hf & Hs & new & Htr & Hc). split; [exact Hf |].
              split; [lia |]. eexists (new ++ [_; _; _; _]).
              split; [rewrite Htr, <- app_assoc; reflexivity |].
              rewrite !(proj1 (sockets_app _ _)), !(proj2 (sockets_app _ _)).
              unfold sockets_opened, sockets_closed in *. simpl in Hop |- *. lia.
           ++ destruct IH as (Hf & Hs & new & n & Htr & Hn' & Hc).
              split; [exact Hf |]. split; [exact Hs |].
              eexists (new ++ [_; _; _; _]), n.
              split; [rewrite Htr, <- app_assoc; reflexivity |].
              split; [exact Hn' |].
              rewrite !(proj1 (sockets_app _ _)), !(proj2 (sockets_app _ _)).
              unfold sockets_opened, sockets_closed in *. simpl in Hop |- *. lia.
Qed.

Lemma tcp_connect_finish_state (server : string) (st : state) :
  let r := tcp_connect_finish E server st in
  r.1 = Return true /\
  g_sock r.2 = g_sock st /\
  g_ssl_initialized r.2 = g_ssl_initialized st /\
  files r.2 = files st /\
  g_server_address r.2 = g_server_address st /\
  g_in r.2 = rebuffered 4096 (g_in st) /\
  g_out r.2 = for_each_out E (rebuffered 4096) (g_out st) /\
  g_last_server_name r.2 = Some (c_str server) /\
  exists rv value,
    trace r.2 =
      (if (rv =? 0) && (value <? 16384)
       then [EvSetsockopt "SO_RCVBUF" 16384] else [])
      ++ EvGetsockopt rv value :: EvSetsockopt "TCP_NODELAY" 1 :: trace st.
Proof.
  unfold tcp_connect_finish.
  destruct (os_getsockopt_rcvbuf E _) as [rv value] eqn:Hopt.
  cbv zeta. change (1024 * 16) with 16384.
  do 8 (split; [destruct (_ && _); reflexivity |]).
  exists rv, value. destruct (_ && _); reflexivity.
Qed.

(** The two ways a call of [tcp_connect] goes: a socket is connected and
    the call ends in [tcp_connect_finish], or it does not return True. *)
Lemma tcp_connect_cases (server : string) (st : state) :
  let r := tcp_connect E server st in
  (exists st0 crv new,
     r = tcp_connect_finish E server st0 /\
     0 <= g_sock st0 /\ 0 <= crv /\
     g_ssl_initialized st0 = g_ssl_initialized st /\
     files st0 = files st /\
     (g_in st0 = g_in st /\ g_out st0 = g_out st) /\
     trace st0 = EvConnect crv :: new ++ trace st /\
     opened new = S (closed new)) \/
  (r.1 <> Return true /\
   failed_connect_frame E st r.2 /\
   exists new, trace r.2 = new ++ trace st /\ sockets_given_back new).
Proof.
  assert (Hfail : forall (o : outcome bool) (st' : state) (new : list event),
    o <> Return true ->
    failed_connect_frame E st st' ->
    trace st' = new ++ trace st ->
    sockets_given_back new ->
    (exists st0 crv new0,
       (o, st') = tcp_connect_finish E server st0 /\
       0 <= g_sock st0 /\ 0 <= crv /\
       g_ssl_initialized st0 = g_ssl_initialized st /\
       files st0 = files st /\
       (g_in st0 = g_in st /\ g_out st0 = g_out st) /\
       trace st0 = EvConnect crv :: new0 ++ trace st /\
       opened new0 = S (closed new0)) \/
    ((o, st').1 <> Return true /\
     failed_connect_frame E st (o, st').2 /\
     exists new0, trace (o, st').2 = new0 ++ trace st /\
       sockets_given_back new0)).
  { intros o st' new Ho Hf Ht Hb. right. split; [exact Ho |].
    split; [exact Hf | eauto]. }
  unfold tcp_connect. destruct (IPv6 (env_build E)) eqn:Hbuild.
  - (* IPv6 *)
    assert (Hloop : forall (res : list addrinfo) (stc : state)
                           (pre : list event) (resolve : bool),
      trace stc = pre ++ trace st ->
      opened pre = 0%nat -> closed pre = 0%nat ->
      g_ssl_initialized stc = g_ssl_initialized st ->
      files stc = files st -> g_in stc = g_in st -> g_out stc = g_out st ->
      g_last_server_name stc = g_last_server_name st ->
      g_server_address stc = g_server_address st ->
      g_sock stc = -1 ->
      let r :=
        match try_candidates E res stc with
        | CandidateGetnameinfoFailed st1 => (Return false, st1)
        | CandidatesExhausted st1 =>
            if g_sock st1 =? -1 then (Return false, st1) else (Fault, st1)
        | CandidateConnected addr st1 =>
            tcp_connect_finish E server
              (if resolve
               then set_server_address
                      (Some (ServerAddrinfo (cached_addrinfo addr))) st1
               else st1)
        end in
      (exists st0 crv new,
         r = tcp_connect_finish E server st0 /\
         0 <= g_sock st0 /\ 0 <= crv /\
         g_ssl_initialized st0 = g_ssl_initialized st /\
         files st0 = files st /\
         (g_in st0 = g_in st /\ g_out st0 = g_out st) /\
         trace st0 = EvConnect crv :: new ++ trace st /\
         opened new = S (closed new)) \/
      (r.1 <> Return true /\
       failed_connect_frame E st r.2 /\
       exists new, trace r.2 = new ++ trace st /\ sockets_given_back new)).
    { intros res stc pre resolve Ht Hop Hcl Hs Hf Hi Ho Hn Ha Hsock.
      pose proof (try_candidates_sockets res stc) as Hsk.
      pose proof (try_candidates_spec E res stc) as Hsp.
      unfold candidates_frame in Hsp. cbv zeta in Hsk.
      destruct (try_candidates E res stc) as [addr st1 | st1 | st1]; cbv zeta.
      - destruct Hsk as ((F1 & F2 & F3 & F4) & Hsock1 & new & Htr & Hc).
        left. eexists _, 0, (new ++ pre).
        split; [reflexivity |].
        split; [now destruct resolve |]. split; [lia |].
        split; [destruct resolve; simpl; congruence |].
        split; [destruct resolve; simpl; congruence |].
        split; [destruct resolve; simpl; split; congruence |].
        split; [destruct resolve; simpl; rewrite Htr, Ht, <- app_assoc;
                reflexivity |].
        rewrite (proj1 (sockets_app _ _)), (proj2 (sockets_app _ _)). lia.
      - destruct Hsk as ((F1 & F2 & F3 & F4) & Hsock1 & new & Htr & Hc).
        destruct Hsp as (_ & G2 & G3 & _).
        assert (Hframe : failed_connect_frame E st st1).
        { unfold failed_connect_frame.
          split; [congruence |]. split; [congruence |].
          split; [congruence |]. split; [congruence |].
          split; [congruence |]. intros _. congruence. }
        assert (Hbal : sockets_given_back (new ++ pre)).
        { left. rewrite (proj1 (sockets_app _ _)), (proj2 (sockets_app _ _)).
          lia. }
        destruct (g_sock st1 =? -1);
          apply (Hfail _ _ (new ++ pre)); try assumption; try discriminate;
          now rewrite Htr, Ht, <- app_assoc.
      - destruct Hsk as ((F1 & F2 & F3 & F4) & Hsock1 & new & n & Htr & Hn0 & Hc).
        destruct Hsp as (_ & G2 & G3 & _).
        apply (Hfail _ _ (EvGetnameinfo n :: new ++ pre)).
        + discriminate.
        + unfold failed_connect_frame.
          split; [congruence |]. split; [congruence |].
          split; [congruence |]. split; [congruence |].
          split; [congruence |]. intros _. congruence.
        + rewrite Htr, Ht, app_assoc. reflexivity.
        + right. split; [| now exists n, (new ++ pre)].
          change (EvGetnameinfo n :: new ++ pre)
            with ([EvGetnameinfo n] ++ (new ++ pre)).
          rewrite !(proj1 (sockets_app _ _)), !(proj2 (sockets_app _ _)).
          unfold sockets_opened, sockets_closed in *. simpl. lia. }
    unfold tcp_connect_ipv6.
    destruct (tcp_connect_resolve_hostname server st) eqn:Hres.
    + destruct (os_getaddrinfo E (trace st) server (g_tcp_port_rdp st))
        as [n res].
      destruct (n =? 0); cbv beta iota zeta; simpl negb; cbv iota.
      * apply (Hloop res _ [EvResolve server] true); reflexivity.
      * apply (Hfail _ _ [EvResolve server]); try reflexivity;
          [discriminate | | now left].
        unfold failed_connect_frame. simpl. auto 10.
    + destruct (g_server_address st) as [[a|a]|] eqn:Ha in |- *;
        cbv beta iota zeta;
        first [ apply (Hloop [a] _ [] false); reflexivity
              | apply (Hloop [] _ [] false); reflexivity ].
  - (* without IPv6 *)
    assert (Htail : forall (a : sockaddr_in) (stc : state) (pre : list event),
      trace stc = pre ++ trace st ->
      opened pre = 0%nat -> closed pre = 0%nat ->
      g_ssl_initialized stc = g_ssl_initialized st ->
      files stc = files st -> g_in stc = g_in st -> g_out stc = g_out st ->
      g_last_server_name stc = g_last_server_name st ->
      let r :=
        let fd := os_socket E (trace stc) in
        let st1 := set_sock fd (emit (EvSocket fd) stc) in
        if fd <? 0 then (Return false, st1)
        else
          let rv := os_connect_sockaddr E (trace st1) a in
          let st2 := emit (EvConnect rv) st1 in
          if rv <? 0 then (Return false, set_sock (-1) (TCP_CLOSE st2))
          else tcp_connect_finish E server st2 in
      (exists st0 crv new,
         r = tcp_connect_finish E server st0 /\
         0 <= g_sock st0 /\ 0 <= crv /\
         g_ssl_initialized st0 = g_ssl_initialized st /\
         files st0 = files st /\
         (g_in st0 = g_in st /\ g_out st0 = g_out st) /\
         trace st0 = EvConnect crv :: new ++ trace st /\
         opened new = S (closed new)) \/
      (r.1 <> Return true /\
       failed_connect_frame E st r.2 /\
       exists new, trace r.2 = new ++ trace st /\ sockets_given_back new)).
    { intros a stc pre Ht Hop Hcl Hs Hf Hi Ho Hn. cbv zeta.
      assert (Hframe : forall st', 
        g_ssl_initialized st' = g_ssl_initialized stc ->
        files st' = files stc -> g_in st' = g_in stc ->
        g_out st' = g_out stc ->
        g_last_server_name st' = g_last_server_name stc ->
        failed_connect_frame E st st').
      { intros st' H1 H2 H3 H4 H5. unfold failed_connect_frame.
        rewrite Hbuild.
        split; [congruence |]. split; [congruence |].
        split; [congruence |]. split; [congruence |].
        split; [congruence | discriminate]. }
      destruct (os_socket E (trace stc) <? 0) eqn:Hfd.
      - apply Z.ltb_lt in Hfd.
        apply (Hfail _ _ (EvSocket (os_socket E (trace stc)) :: pre)).
        + discriminate.
        + now apply Hframe.
        + simpl. now rewrite Ht.
        + left. unfold sockets_opened, sockets_closed in *. simpl.
          destruct (0 <=? _) eqn:H0; [apply Z.leb_le in H0; lia |].
          simpl. lia.
      - apply Z.ltb_ge in Hfd.
        assert (Hopen : (0 <=? os_socket E (trace stc)) = true)
          by (apply Z.leb_le; lia).
        destruct (os_connect_sockaddr E _ a <? 0) eqn:Hrv.
        + eapply (Hfail _ _ (_ :: _ :: _ :: pre)).
          * discriminate.
          * now apply Hframe.
          * simpl. rewrite Ht. reflexivity.
          * left. unfold sockets_opened, sockets_closed in *.
            cbn [count_events is_socket_opened is_close].
            rewrite <- ?Ht, Hopen. lia.
        + apply Z.ltb_ge in Hrv. left.
          eexists _, _, (_ :: pre).
          split; [reflexivity |]. split; [exact Hfd |].
          split; [exact Hrv |]. split; [exact Hs |]. split; [exact Hf |].
          split; [split; [exact Hi | exact Ho] |].
          split; [simpl; rewrite Ht; reflexivity |].
          unfold sockets_opened, sockets_closed in *.
          cbn [count_events is_socket_opened is_close].
          rewrite <- ?Ht, Hopen. lia. }
    unfold tcp_connect_ipv4.
    destruct (tcp_connect_resolve_hostname server st) eqn:Hres.
    + destruct (os_gethostbyname E (trace st) server) as [h_addr|].
      * apply (Htail _ _ [EvResolve server]); reflexivity.
      * cbv beta iota zeta.
        change (sin_addr (resolved_sockaddr ?p ?x)) with x.
        destruct (inet_addr E server =? INADDR_NONE)%N.
        -- apply (Hfail _ _ [EvResolve server]); try reflexivity;
             [discriminate | | now left].
           unfold failed_connect_frame. rewrite Hbuild. simpl.
           do 5 (split; [reflexivity |]). discriminate.
        -- apply (Htail _ _ [EvResolve server]); reflexivity.
    + destruct (g_server_address st) as [[a|a]|] eqn:Ha in |- *;
        cbv beta iota zeta;
        try (apply (Hfail _ _ []); try reflexivity;
             [discriminate | | now left];
             unfold failed_connect_frame; rewrite Hbuild;
             do 5 (split; [reflexivity |]); discriminate).
      apply (Htail a st []); reflexivity.
Qed.

End ConnectSockets.



(** X21.  A connect that fails.  When [tcp_connect] returns False, the
    buffers, the remembered name of the server, a TLS session and the
    files of the store are what they were, and in the IPv6 build so is the
    cached address.  Every socket the call opened it has closed again,
    with one exception: when [getnameinfo] fails, the call returns with
    the socket it had just opened left open. *)
Theorem failed_connect_gives_sockets_back (E : environment) (server : string)
    (st st1 : state) :
  tcp_connect E server st = (Return false, st1) ->
  failed_connect_frame E st st1 /\
  exists new, trace st1 = new ++ trace st /\ sockets_given_back new.
Proof.
  intros Hfail.
  destruct (tcp_connect_cases E server st)
    as [(st0 & crv & new & Hr & _) | (_ & Hframe & Hnew)].
  - pose proof (tcp_connect_finish_state E server st0) as (F & _).
    rewrite <- Hr, Hfail in F. discriminate.
  - rewrite Hfail in Hframe, Hnew. auto.
Qed.

Lemma failed_connect_gives_sockets_back_witness :
  let E := staged_env false (Some "/home/user") (fun _ => 0) recv_two false
             [host_address x01; host_address x02] 0 (fun _ => -1) in
  let st1 := (tcp_connect E "farm" initial_state).2 in
  g_sock st1 = -1 /\
  exists new, trace st1 = new ++ trace initial_state /\
    sockets_given_back new.
Proof.
  intros E st1.
  destruct (failed_connect_gives_sockets_back E "farm" initial_state st1
              eq_refl) as (_ & Hnew).
  split; [reflexivity | exact Hnew].
Defined.

(** X22.  Disconnecting keeps what was resolved.  After a successful
    connect and a disconnect, a connect to the same name resolves nothing:
    it goes to the cached address, which stays in the cache. *)
Theorem reconnect_after_disconnect_resolves_nothing (E : environment)
    (server : string) (st st1 : state) :
  tcp_connect E server st = (Return true, st1) ->
  let st2 := tcp_disconnect E st1 in
  let st3 := (tcp_connect E server st2).2 in
  resolutions (trace st3) = resolutions (trace st1) /\
  g_server_address st3 = g_server_address st1 /\
  g_server_address st1 <> None.
Proof.
  intros Hok st2 st3.
  pose proof (tcp_connect_spec E server st) as (_ & _ & _ & Hsucc).
  rewrite Hok in Hsucc. destruct (Hsucc eq_refl) as (Hname & a & Haddr & _).
  cbn [snd] in Hname, Haddr.
  assert (Hkeep : g_server_address st2 = g_server_address st1 /\
                  g_last_server_name st2 = g_last_server_name st1 /\
                  resolutions (trace st2) = resolutions (trace st1)).
  { unfold st2, tcp_disconnect, TCP_CLOSE.
    destruct (g_ssl_initialized st1); auto. }
  destruct Hkeep as (K1 & K2 & K3).
  assert (Hres : tcp_connect_resolve_hostname server st2 = false).
  { unfold tcp_connect_resolve_hostname, strcmp0.
    now rewrite K1, K2, Haddr, Hname, c_str_idemp, String.eqb_refl. }
  pose proof (tcp_connect_spec E server st2) as (_ & Hcount & Hsame & _).
  fold st3 in Hcount, Hsame. rewrite Hres in Hcount, Hsame.
  split; [rewrite Hcount; exact K3 |].
  split; [rewrite (Hsame eq_refl); exact K1 | now rewrite Haddr].
Qed.

Lemma reconnect_after_disconnect_resolves_nothing_witness :
  let E := scripted_env true (StatMode true) None
             {| certificate_type := 2; certificate_peers := [] |}
             send_all recv_nothing 0 in
  let st1 := (tcp_connect E "farm" initial_state).2 in
  resolutions (trace (tcp_connect E "farm" (tcp_disconnect E st1)).2) = 1%nat.
Proof.
  intros E st1.
  destruct (reconnect_after_disconnect_resolves_nothing E "farm"
              initial_state st1 eq_refl) as (Hres & _).
  rewrite Hres. reflexivity.
Defined.



(** ** Outbound buffers *)

Lemma tcp_init_calls_results (E : environment) (maxlens : list Z) (cur : nat)
    (st : state) :
  let n := STREAM_COUNT (env_build E) in
  (cur < n)%nat ->
  let r := tcp_init_calls E maxlens cur st in
  r.1.1 = List.map (fun k => ((cur + k) mod n)%nat) (seq 0 (length maxlens)) /\
  r.1.2 = ((cur + length maxlens) mod n)%nat /\
  length (g_out r.2) = length (g_out st).
Proof.
  intros n. revert cur st.
  induction maxlens as [|maxlen rest IH]; intros cur st Hcur.
  - simpl. rewrite Nat.add_0_r, Nat.mod_small by exact Hcur. auto.
  - cbn [tcp_init_calls]. unfold tcp_init. fold n.
    assert (Hn : (n <> 0)%nat) by lia.
    specialize (IH ((cur + 1) mod n)%nat
      (set_out (alter (fun s => s_reset (s_realloc s maxlen)) cur (g_out st))
         st)
      (Nat.mod_upper_bound _ _ Hn)).
    destruct (tcp_init_calls E rest _ _) as [[results cur'] st'].
    cbn [fst snd] in *. destruct IH as (Hres & Hc & Hlen).
    split; [| split].
    + cbn [length seq List.map]. rewrite Nat.add_0_r.
      rewrite (Nat.mod_small cur n Hcur). f_equal.
      rewrite Hres, <- seq_shift, List.map_map. apply List.map_ext.
      intros k. rewrite Nat.Div0.add_mod_idemp_l. f_equal. lia.
    + rewrite Hc, Nat.Div0.add_mod_idemp_l. cbn [length]. f_equal. lia.
    + rewrite Hlen. cbn [g_out set_out]. apply length_alter.
Qed.

(** X24.  [tcp_init] hands the outbound buffers out in turn.  Starting
    from a counter below [STREAM_COUNT], the call number [k] of a sequence
    returns the buffer [(cur + k) mod STREAM_COUNT], so that a buffer comes
    back to the caller, emptied, after [STREAM_COUNT] further calls; in the
    build without smart-card support every call returns the one buffer
    there is. *)
Theorem tcp_init_round_robin (E : environment) (maxlens : list Z) (cur : nat)
    (st : state) :
  let n := STREAM_COUNT (env_build E) in
  (cur < n)%nat ->
  let r := tcp_init_calls E maxlens cur st in
  (forall k, (k < length maxlens)%nat ->
     r.1.1 !! k = Some ((cur + k) mod n)%nat) /\
  (forall k, (k + n < length maxlens)%nat ->
     r.1.1 !! (k + n)%nat = r.1.1 !! k) /\
  r.1.2 = ((cur + length maxlens) mod n)%nat /\
  (WITH_SCARD (env_build E) = false -> Forall (fun i => i = 0%nat) r.1.1).
Proof.
  intros n Hcur r.
  destruct (tcp_init_calls_results E maxlens cur st Hcur) as (Hres & Hc & _).
  fold n r in Hres, Hc.
  assert (Hk : forall k, (k < length maxlens)%nat ->
                 r.1.1 !! k = Some ((cur + k) mod n)%nat).
  { intros k Hlt. rewrite Hres.
    change (List.map ?f ?l) with (f <$> l).
    rewrite list_lookup_fmap, lookup_seq_lt by exact Hlt. reflexivity. }
  split; [exact Hk | split; [| split; [exact Hc |]]].
  - intros k Hlt. rewrite !Hk by lia. f_equal.
    replace (cur + (k + n))%nat with (cur + k + 1 * n)%nat by lia.
    apply Nat.Div0.mod_add.
  - intros Hscard. rewrite Hres. apply Forall_forall. intros i Hin.
    change (List.map ?f ?l) with (f <$> l) in Hin.
    apply list_elem_of_fmap in Hin as (k & -> & _).
    subst n. unfold STREAM_COUNT. rewrite Hscard. apply Nat.mod_1_r.
Qed.

Lemma tcp_init_round_robin_witness :
  let E := staged_env true (Some "/home/user") (fun _ => 0) recv_two false
             [] 0 (fun _ => 0) in
  let st := tcp_disconnect E initial_state in
  let r := tcp_init_calls E (replicate 10 100) 0 st in
  r.1.1 !! 8%nat = r.1.1 !! 0%nat /\ r.1.1 !! 9%nat = Some 1%nat.
Proof.
  intros E st r.
  destruct (tcp_init_round_robin E (replicate 10 100) 0 st)
    as (Hk & Hn & _); [vm_compute; lia |].
  split.
  - apply (Hn 0%nat). vm_compute. lia.
  - apply (Hk 9%nat). vm_compute. lia.
Defined.

(** X25.  The buffer [tcp_init] returns is empty, with the read cursor at
    its start, and large enough for the length asked for: its capacity is
    the larger of that length and the capacity it had.  The other outbound
    buffers, the inbound buffer and the connection are not touched.  (As
    far as [s_realloc] and [s_reset] do what the specification says.) *)
Theorem tcp_init_returns_an_empty_buffer (E : environment) (maxlen : Z)
    (cur : nat) (st : state) :
  (cur < length (g_out st))%nat ->
  let r := tcp_init E maxlen cur st in
  r.1.1 = cur /\
  (exists old,
     g_out st !! cur = Some old /\
     g_out r.2 !! cur =
       Some {| s_size := Z.max (s_size old) maxlen; s_p := 0;
               s_data := [] |}) /\
  (forall j, j <> cur -> g_out r.2 !! j = g_out st !! j) /\
  length (g_out r.2) = length (g_out st) /\
  g_in r.2 = g_in st /\ g_sock r.2 = g_sock st /\ trace r.2 = trace st.
Proof.
  intros Hcur. unfold tcp_init. cbn [fst snd g_out set_out].
  split; [reflexivity |].
  destruct (lookup_lt_is_Some_2 (g_out st) cur Hcur) as [old Hold].
  split; [| split; [| split]].
  - exists old. split; [exact Hold |].
    rewrite list_lookup_alter_eq, Hold. cbn. f_equal.
    unfold s_reset, s_realloc.
    destruct (s_size old <? maxlen) eqn:Hlt;
      [apply Z.ltb_lt in Hlt; rewrite Z.max_r by lia
      | apply Z.ltb_ge in Hlt; rewrite Z.max_l by lia]; reflexivity.
  - intros j Hj. now apply list_lookup_alter_ne.
  - apply length_alter.
  - auto.
Qed.

Lemma tcp_init_returns_an_empty_buffer_witness :
  let E := scripted_env true (StatMode true) None
             {| certificate_type := 2; certificate_peers := [] |}
             send_all recv_nothing 0 in
  let st1 := (tcp_connect E "farm" initial_state).2 in
  g_out (tcp_init E 8192 0 st1).2 !! 0%nat =
    Some {| s_size := 8192; s_p := 0; s_data := [] |}.
Proof.
  intros E st1.
  destruct (tcp_init_returns_an_empty_buffer E 8192 0 st1)
    as (_ & (old & Hold & Hnew) & _); [vm_compute; lia |].
  rewrite Hnew. injection Hold as <-. reflexivity.
Defined.

(** X26.  [tcp_reset_state] empties the inbound buffer and every outbound
    buffer and keeps their capacities; the socket, a TLS session and what
    was resolved stay, and nothing leaves the process.  Doing it twice is
    doing it once, and after a successful connect it leaves every buffer
    empty with a capacity of 4096 bytes.  (As far as [s_reset] does what
    the specification says.) *)
Theorem tcp_reset_state_empties_the_buffers (E : environment) (st : state) :
  length (g_out st) = STREAM_COUNT (env_build E) ->
  let st' := tcp_reset_state E st in
  g_in st' = s_reset (g_in st) /\
  g_out st' = s_reset <$> g_out st /\
  Forall (fun s => s_data s = [] /\ s_p s = 0) (g_in st' :: g_out st') /\
  s_size <$> g_out st' = s_size <$> g_out st /\
  trace st' = trace st /\ g_sock st' = g_sock st /\
  g_ssl_initialized st' = g_ssl_initialized st /\
  tcp_reset_state E st' = st' /\
  (forall server st0, tcp_connect E server st0 = (Return true, st) ->
     g_in st' = fresh_stream /\
     g_out st' = replicate (STREAM_COUNT (env_build E)) fresh_stream).
Proof.
  intros Hlen st'.
  assert (Hmap : forall l : list stream,
    length l = STREAM_COUNT (env_build E) ->
    foldl (fun out i => alter s_reset i out) l
      (seq 0 (STREAM_COUNT (env_build E))) = s_reset <$> l).
  { intros l Hl. apply list_eq. intros j.
    rewrite reset_slots, list_lookup_fmap.
    destruct (decide _) as [Hin | Hout]; [reflexivity |].
    rewrite lookup_ge_None_2 by lia. reflexivity. }
  assert (Hout : g_out st' = s_reset <$> g_out st)
    by (unfold st', tcp_reset_state; cbn; now apply Hmap).
  assert (Hin : g_in st' = s_reset (g_in st)) by reflexivity.
  assert (Hidem : forall l : list stream, s_reset <$> (s_reset <$> l) =
                                          s_reset <$> l).
  { intros l. rewrite <- list_fmap_compose. apply list_fmap_ext.
    intros i s _. reflexivity. }
  split; [exact Hin | split; [exact Hout |]].
  split; [| split; [| split; [| split; [| split; [| split]]]]];
    try reflexivity.
  - rewrite Hin, Hout. constructor; [split; reflexivity |].
    apply Forall_fmap, Forall_true. intros s. split; reflexivity.
  - rewrite Hout, <- list_fmap_compose. apply list_fmap_ext.
    intros i s _. reflexivity.
  - unfold tcp_reset_state at 1. cbn [g_in g_out set_in set_out].
    rewrite Hmap by (rewrite Hout, length_fmap; exact Hlen).
    rewrite Hout, Hin, Hidem. unfold st', tcp_reset_state.
    cbn [g_in g_out set_in set_out]. rewrite (Hmap _ Hlen).
    reflexivity.
  - intros server st0 Hok.
    destruct (tcp_connect_cases E server st0)
      as [(st1 & crv & new & Hr & _) | (Hne & _)];
      [| now rewrite Hok in Hne].
    pose proof (tcp_connect_finish_state E server st1)
      as (_ & _ & _ & _ & _ & Hgin & Hgout & _).
    rewrite <- Hr, Hok in Hgin, Hgout. cbn [snd] in Hgin, Hgout.
    split; [rewrite Hin, Hgin; reflexivity |].
    rewrite Hout, Hgout.
    assert (Hl1 : length (g_out st1) = STREAM_COUNT (env_build E))
      by now rewrite <- Hlen, Hgout, for_each_out_length.
    rewrite (for_each_out_fmap E _ _ Hl1), <- list_fmap_compose, <- Hl1.
    clear. induction (g_out st1) as [|s l IH]; [reflexivity |].
    cbn. now rewrite <- IH.
Qed.

Lemma tcp_reset_state_empties_the_buffers_witness :
  let E := scripted_env true (StatMode true) None
             {| certificate_type := 2; certificate_peers := [] |}
             send_all recv_nothing 0 in
  let st :=
    set_in {| s_size := 16; s_p := 2; s_data := [x01; x02; x03] |}
      initial_state in
  g_in (tcp_reset_state E st) = {| s_size := 16; s_p := 0; s_data := [] |}.
Proof.
  intros E st.
  destruct (tcp_reset_state_empties_the_buffers E st) as (Hin & _);
    [reflexivity |].
  rewrite Hin. reflexivity.
Defined.

(** ** The address of the client, and the key of the server *)

Lemma print_uint8_length (b : byte) :
  (1 <= String.length (print_uint8 b) <= 3)%nat.
Proof. destruct b; vm_compute; lia. Qed.

(** X27.  [tcp_get_address] answers ["127.0.0.1"] when [getsockname]
    fails, and otherwise the four bytes of the address in decimal with
    dots between them.  What it writes has between 7 and 15 characters,
    none of them a NUL, so that with its terminator it fits the 32 bytes of
    the static buffer it is written to. *)
Theorem tcp_get_address_fits_its_buffer (rv : Z) (ip : list byte) :
  let address := tcp_get_address (rv, ip) in
  (rv <> 0 -> address = "127.0.0.1") /\
  (forall a b c d, rv = 0 -> ip = [a; b; c; d] ->
     address = print_uint8 a +:+ "." +:+ print_uint8 b +:+ "."
                 +:+ print_uint8 c +:+ "." +:+ print_uint8 d) /\
  (7 <= String.length address <= 15)%nat /\
  c_str address = address.
Proof.
  unfold tcp_get_address. destruct (rv =? 0) eqn:Hrv.
  - apply Z.eqb_eq in Hrv. split; [intros Hne; now destruct Hne |].
    split; [intros a b c d _ ->; reflexivity |].
    split.
    + rewrite !length_append. change (String.length ".") with 1%nat.
      pose proof (print_uint8_length (nth 0 ip x00)).
      pose proof (print_uint8_length (nth 1 ip x00)).
      pose proof (print_uint8_length (nth 2 ip x00)).
      pose proof (print_uint8_length (nth 3 ip x00)). lia.
    + apply c_str_plain. unfold print_uint8.
      rewrite !plain_append, !print_ld_plain. reflexivity.
  - apply Z.eqb_neq in Hrv. split; [reflexivity |].
    split; [intros a b c d H0; now destruct Hrv |].
    split; [vm_compute; lia | reflexivity].
Qed.

Lemma tcp_get_address_fits_its_buffer_witness :
  tcp_get_address (0, [xc0; xa8; x00; x0a]) = "192.168.0.10" /\
  tcp_get_address (-1, []) = "127.0.0.1".
Proof.
  split.
  - rewrite (proj1 (proj2 (tcp_get_address_fits_its_buffer
                             0 [xc0; xa8; x00; x0a]))
               xc0 xa8 x00 x0a eq_refl eq_refl).
    vm_compute. reflexivity.
  - refine (proj1 (tcp_get_address_fits_its_buffer (-1) []) _). discriminate.
Defined.

(** X28.  [tcp_tls_get_server_pubkey] gives the key of an RSA certificate
    or nothing.  It returns True only when the peer has a certificate that
    could be imported, whose key is RSA, and whose modulus and exponent
    the encoder turned into at least one byte; the stream then holds
    exactly these bytes, unread.  Whenever it returns False the stream
    holds no byte.  A key of another algorithm is not looked at any
    further, and no more is a peer without a certificate: the function
    goes to the label [out] with [m] and [e] not written, where it returns
    False when the stack holds nothing to free in their place, and calls
    [free] on what was never allocated otherwise. *)
Theorem server_pubkey_is_rsa_or_nothing (G : server_key) :
  let r := tcp_tls_get_server_pubkey G in
  let unwritten :=
    (if key_stack_e G || key_stack_m G then Fault else Return false,
     @None stream) in
  (r.1 = Return true ->
   exists der m e pk,
     key_certificate_get_peers G = Some der /\
     key_x509_crt_init G = 0 /\ key_x509_crt_import G der = 0 /\
     key_x509_crt_get_pk_algorithm G der = GNUTLS_PK_RSA /\
     key_x509_crt_get_pk_rsa_raw G der = (0, Some m, Some e) /\
     write_pkcs1_der_pubkey G m e 1024 = (0, pk) /\
     pk <> [] /\
     r.2 = Some {| s_size := Z.of_nat (length pk); s_p := 0;
                   s_data := pk |}) /\
  (r.1 = Return false ->
   r.2 = None \/ r.2 = Some {| s_size := 0; s_p := 0; s_data := [] |}) /\
  (forall der, key_certificate_get_peers G = Some der ->
     key_x509_crt_get_pk_algorithm G der <> GNUTLS_PK_RSA ->
     r = unwritten) /\
  (key_certificate_get_peers G = None -> r = unwritten).
Proof.
  unfold tcp_tls_get_server_pubkey, GNUTLS_E_SUCCESS.
  assert (Hout : forall m e,
    let o := server_pubkey_out G m e false None in
    o.1 <> Return true /\ o.2 = None /\
    (m = None -> e = None ->
     o = (if key_stack_e G || key_stack_m G then Fault else Return false,
          None))).
  { intros m e. unfold server_pubkey_out.
    destruct m, e; cbn [orb];
      repeat match goal with
             | |- context [if ?b then _ else _] => destruct b
             end;
      cbn [fst snd]; (split; [discriminate |]);
      (split; [reflexivity |]); try discriminate; reflexivity. }
  destruct (key_certificate_get_peers G) as [der|].
  2: { destruct (Hout None None) as (H1 & H2 & H3).
       split; [intros H; now apply H1 in H |].
       split; [now left |]. split; [discriminate |].
       intros _. now apply H3. }
  assert (Hearly :
    let r := server_pubkey_out G None None false None in
    (r.1 = Return true -> False) /\ r.2 = None /\
    r = (if key_stack_e G || key_stack_m G then Fault else Return false,
         None)).
  { destruct (Hout None None) as (H1 & H2 & H3).
    split; [exact H1 | split; [exact H2 | now apply H3]]. }
  cbv zeta in Hearly. destruct Hearly as (E1 & E2 & E3).
  destruct (key_x509_crt_init G =? 0) eqn:Hinit; cbn [negb];
    [| split; [intros H; now apply E1 in H |]; split; [now left |];
       split; [intros ? _ _; exact E3 | discriminate]].
  destruct (key_x509_crt_import G der =? 0) eqn:Himport; cbn [negb];
    [| split; [intros H; now apply E1 in H |]; split; [now left |];
       split; [intros ? _ _; exact E3 | discriminate]].
  destruct (key_x509_crt_get_pk_algorithm G der =? GNUTLS_PK_RSA) eqn:Halgo;
    [| split; [intros H; now apply E1 in H |]; split; [now left |];
       split; [intros ? _ _; exact E3 | discriminate]].
  apply Z.eqb_eq in Hinit, Himport, Halgo.
  assert (Hrsa : forall r u : outcome bool * option stream,
    forall der0 : list byte, Some der = Some der0 ->
      key_x509_crt_get_pk_algorithm G der0 <> GNUTLS_PK_RSA -> r = u)
    by (intros r u der0 [= <-] Hne; now destruct Hne).
  destruct (key_x509_crt_get_pk_rsa_raw G der) as [[ret m] e] eqn:Hraw.
  destruct (ret =? 0) eqn:Hret; cbn [negb].
  2: { destruct (Hout m e) as (H1 & H2 & _).
       split; [intros H; now apply H1 in H |]. split; [now left |].
       split; [apply Hrsa | discriminate]. }
  apply Z.eqb_eq in Hret. subst ret.
  destruct m as [m|], e as [e|];
    try (split; [discriminate |]; split; [discriminate |];
         split; [apply Hrsa | discriminate]).
  destruct (write_pkcs1_der_pubkey G m e 1024) as [ret pk] eqn:Hder.
  destruct (ret =? 0) eqn:Hret; cbn [negb].
  2: { destruct (Hout (Some m) (Some e)) as (H1 & H2 & _).
       split; [intros H; now apply H1 in H |]. split; [now left |].
       split; [apply Hrsa | discriminate]. }
  apply Z.eqb_eq in Hret. subst ret.
  unfold server_pubkey_out. cbn [orb fst snd].
  split; [| split; [| split; [apply Hrsa | discriminate]]].
  - intros [= Hsize]. exists der, m, e, pk.
    do 6 (split; [assumption || reflexivity |]).
    split; [| reflexivity].
    intros ->. discriminate.
  - intros [= Hsize]. right. destruct pk; [reflexivity | discriminate].
Qed.

Lemma server_pubkey_is_rsa_or_nothing_witness :
  let G stack :=
    {| key_certificate_get_peers := Some [x30; x82];
       key_x509_crt_init := 0;
       key_x509_crt_import := fun _ => 0;
       key_x509_crt_get_pk_algorithm := fun _ => 2;
       key_x509_crt_get_pk_rsa_raw := fun _ => (0, Some [x01], Some [x03]);
       write_pkcs1_der_pubkey := fun m e _ => (0, m ++ e);
       key_stack_m := stack; key_stack_e := false |} in
  tcp_tls_get_server_pubkey (G false) = (Return false, None) /\
  tcp_tls_get_server_pubkey (G true) = (Fault, None).
Proof.
  intros G. split.
  - apply (proj1 (proj2 (proj2 (server_pubkey_is_rsa_or_nothing (G false))))
             [x30; x82]).
    + reflexivity.
    + discriminate.
  - apply (proj1 (proj2 (proj2 (server_pubkey_is_rsa_or_nothing (G true))))
             [x30; x82]).
    + reflexivity.
    + discriminate.
Defined.

(** ** The identity of a peer *)

Lemma is_prefix_append (p s : string) : is_prefix p (p +:+ s) = true.
Proof.
  induction p as [|c p IH]; [reflexivity |].
  rewrite append_cons. simpl. now rewrite Ascii.eqb_refl, IH.
Qed.

(** [strstr] finds the first place where the needle occurs. *)
Lemma strstr_first (pre needle rest : string) :
  (forall k, (k < String.length pre)%nat ->
     is_prefix needle (str_drop k (pre +:+ needle +:+ rest)) = false) ->
  strstr (pre +:+ needle +:+ rest) needle = Some (needle +:+ rest).
Proof.
  induction pre as [|c pre IH]; intros Hfirst.
  - rewrite append_nil_l. destruct needle; simpl.
    + now destruct rest.
    + rewrite append_cons. simpl.
      now rewrite Ascii.eqb_refl, is_prefix_append.
  - rewrite append_cons.
    pose proof (Hfirst 0%nat ltac:(simpl; lia)) as H0.
    rewrite append_cons in H0. simpl in H0.
    simpl strstr. rewrite H0. apply IH.
    intros k Hk. specialize (Hfirst (S k) ltac:(simpl; lia)).
    now rewrite append_cons in Hfirst.
Qed.

Lemma c_str_suffix (s a b : string) : c_str s = a +:+ b -> c_str b = b.
Proof.
  revert s. induction a as [|c a IH]; intros s Hs.
  - rewrite append_nil_l in Hs. now rewrite <- Hs, c_str_idemp.
  - rewrite append_cons in Hs. destruct s as [|x s]; [discriminate |].
    simpl in Hs. destruct (Ascii.eqb x NUL); [discriminate |].
    injection Hs as _ Hs. now apply (IH s).
Qed.

(** X29.  The identity under which a key is stored is all of the
    distinguished name that follows its first ["CN="], up to the end of
    the name: attributes that come after the common name are part of the
    identity.  The trust check of such a certificate is the check of that
    identity. *)
Theorem identity_is_what_follows_cn (E : environment) (home : string)
    (sess : session) (cert : x509_crt) (others : list x509_crt)
    (pre name : string) (st : state) :
  certificate_type sess = GNUTLS_CRT_X509 ->
  certificate_peers sess = cert :: others ->
  0 < crt_dn_size cert ->
  c_str (crt_dn cert) = pre +:+ "CN=" +:+ name ->
  (forall k, (k < String.length pre)%nat ->
     is_prefix "CN=" (str_drop k (pre +:+ "CN=" +:+ name)) = false) ->
  name <> EmptyString ->
  peer_identity sess = Some (cert, name) /\
  (getenv_HOME E = Some home -> cache_root_is_dir E home ->
   check_cert E sess st = check_name E (certcache_dir home) name cert st).
Proof.
  intros Hty Hpeers Hsize Hdn Hfirst Hname.
  assert (Hid : peer_identity sess = Some (cert, name)).
  { unfold peer_identity. rewrite Hty, Hpeers, Z.eqb_refl.
    assert (Hs : (0 <? crt_dn_size cert) = true) by (apply Z.ltb_lt; lia).
    rewrite Hs, Hdn, (strstr_first pre "CN=" name Hfirst).
    change (str_drop 3 ("CN=" +:+ name)) with name.
    unfold strlen.
    rewrite (c_str_suffix (crt_dn cert) (pre +:+ "CN=") name)
      by (now rewrite append_assoc).
    destruct name as [|c name]; [now destruct Hname | reflexivity]. }
  split; [exact Hid |]. intros Hhome Hdir.
  now apply check_cert_identity.
Qed.

Lemma identity_is_what_follows_cn_witness :
  let cert :=
    {| crt_dn_size := 24; crt_dn := "C=SE,CN=host,O=Org";
       crt_raw_pubkey := Some [x41]; crt_expiration_time := 1700000000;
       crt_print_rv := 0; crt_print_info := "" |} in
  let sess :=
    {| certificate_type := GNUTLS_CRT_X509; certificate_peers := [cert] |} in
  peer_identity sess = Some (cert, "host,O=Org").
Proof.
  intros cert sess.
  refine (proj1 (identity_is_what_follows_cn
                   (scripted_env true (StatMode true) None sess
                      send_all recv_nothing 0)
                   "/home/user" sess cert [] "C=SE," "host,O=Org"
                   initial_state eq_refl eq_refl _ eq_refl _ _)).
  - reflexivity.
  - intros [|[|[|[|[|k]]]]] Hk; try reflexivity. simpl in Hk. lia.
  - discriminate.
Defined.
